(** * Ledger reconciliation and anomaly detection of calo_logs_analyzer

    A shallow embedding of [compute.py] (the ledger builder) and
    [anomalies.py] (the anomaly detector), with the properties the written
    specification states about them.

    Numbers.  The ledger arithmetic of [build_ledger] runs on Python's
    [decimal.Decimal] under the default context: 28 significant digits,
    ties to even for the arithmetic operators, and [ROUND_HALF_UP] where
    the code asks for it in [quantize].  A decimal is a signed coefficient
    and an exponent, as in Python; it is finite, and the sign of a zero and
    the exponent limits of the context (plus or minus 999999) are left
    out.  The statistics of [detect_anomalies] run on binary64 floats,
    which are the kernel's primitive floats here.

    Tables.  A pandas frame is the list of its column labels and the list
    of its rows; a row is a record with one field per column the code
    reads.  A null cell (None, NaN, NaT) is [None]; text cells hold ASCII
    text; a timestamp is a number of nanoseconds.  Code that may raise
    returns a [Result]. *)

From Stdlib Require Import ZArith QArith Qround Qabs Qpower.
From Stdlib Require Import List String Ascii Bool Lia.
From Stdlib Require PrimFloat Uint63 FloatAxioms.
From Stdlib Require Import Sorting.Permutation Sorting.Sorted.
Import ListNotations.

Local Open Scope Z_scope.

(** ** Results of code that may raise *)

Inductive Error : Type :=
| InvalidOperation                 (* decimal.InvalidOperation *)
| KeyError (column : string).      (* a column the frame does not have *)

Inductive Result (A : Type) : Type :=
| Ok (a : A)
| Raise (e : Error).
Arguments Ok {A} a.
Arguments Raise {A} e.

Definition bind {A B : Type} (r : Result A) (k : A -> Result B) : Result B :=
  match r with
  | Ok a => k a
  | Raise e => Raise e
  end.

Notation "x <- r ;; k" := (bind r (fun x => k))
  (at level 61, r at next level, right associativity).

Fixpoint mapM {A B : Type} (f : A -> Result B) (l : list A) : Result (list B) :=
  match l with
  | [] => Ok []
  | a :: l' => b <- f a ;; bs <- mapM f l' ;; Ok (b :: bs)
  end.

(** ** Python's [decimal] under the default context *)

Module Dec.

Record Decimal : Type := mkDec { coef : Z; dexp : Z }.

(** [getcontext().prec] *)
Definition prec : Z := 28.

Definition zero : Decimal := mkDec 0 0.

(** Number of decimal digits of a non-negative coefficient ([len(self._int)]). *)
Fixpoint ndigits_fuel (fuel : nat) (a : Z) : Z :=
  match fuel with
  | O => 1
  | S f => if a <? 10 then 1 else 1 + ndigits_fuel f (a / 10)
  end.

Definition ndigits (a : Z) : Z := ndigits_fuel (Z.to_nat (Z.log2 a)) a.

(** [Decimal.adjusted()]: the exponent of the leading digit. *)
Definition adjusted (d : Decimal) : Z := dexp d + ndigits (Z.abs (coef d)) - 1.

(** [Decimal._fix]: round to the precision of the context, ties to even.
    When rounding up gives 29 digits the last one, a zero, is dropped. *)
Definition fix_ctx (d : Decimal) : Decimal :=
  let a := Z.abs (coef d) in
  let n := ndigits a in
  if n <=? prec then d
  else
    let k := n - prec in
    let q := a / 10 ^ k in
    let r := a mod 10 ^ k in
    let up := (10 ^ k <? 2 * r) || ((2 * r =? 10 ^ k) && Z.odd q) in
    let q' := if up then q + 1 else q in
    if q' =? 10 ^ prec
    then mkDec (Z.sgn (coef d) * 10 ^ (prec - 1)) (dexp d + k + 1)
    else mkDec (Z.sgn (coef d) * q') (dexp d + k).

(** The exact sum, written at the smaller of the two exponents. *)
Definition add_exact (a b : Decimal) : Decimal :=
  let e := Z.min (dexp a) (dexp b) in
  mkDec (coef a * 10 ^ (dexp a - e) + coef b * 10 ^ (dexp b - e)) e.

Definition neg (a : Decimal) : Decimal := mkDec (- coef a) (dexp a).

Definition sub_exact (a b : Decimal) : Decimal := add_exact a (neg b).

(** [a + b], [a - b] and [abs(a)]: the exact result, then [_fix], here [fix_ctx]. *)
Definition add (a b : Decimal) : Decimal := fix_ctx (add_exact a b).
Definition sub (a b : Decimal) : Decimal := fix_ctx (sub_exact a b).
Definition abs (a : Decimal) : Decimal := fix_ctx (mkDec (Z.abs (coef a)) (dexp a)).

(** Comparisons are exact: they do not round. *)
Definition compare (a b : Decimal) : comparison :=
  let e := Z.min (dexp a) (dexp b) in
  Z.compare (coef a * 10 ^ (dexp a - e)) (coef b * 10 ^ (dexp b - e)).

Definition gtb (a b : Decimal) : bool :=
  match compare a b with Gt => true | _ => false end.

Definition eqb (a b : Decimal) : bool :=
  match compare a b with Eq => true | _ => false end.

(** [d < 0] *)
Definition negative (d : Decimal) : bool := coef d <? 0.

(** Truth value of a decimal: false exactly for zero. *)
Definition truthy (d : Decimal) : bool := negb (coef d =? 0).

(** [Decimal._rescale(exp, ROUND_HALF_UP)]: the digits below [exp] are
    dropped and the coefficient goes up by one when the first dropped
    digit is 5 or more. *)
Definition rescale_half_up (d : Decimal) (e : Z) : Decimal :=
  if coef d =? 0 then mkDec 0 e
  else if e <=? dexp d then mkDec (coef d * 10 ^ (dexp d - e)) e
  else
    let k := e - dexp d in
    let a := Z.abs (coef d) in
    let q := a / 10 ^ k in
    let r := a mod 10 ^ k in
    let q' := if 10 ^ k <=? 2 * r then q + 1 else q in
    mkDec (Z.sgn (coef d) * q') e.

(** [d.quantize(Decimal("1").scaleb(-dps), rounding=ROUND_HALF_UP)].
    It raises when the result would need more digits than the context
    has. *)
Definition quantize (d : Decimal) (dps : Z) : Result Decimal :=
  let e := - dps in
  if coef d =? 0 then Ok (mkDec 0 e)
  else if prec <? adjusted d - e + 1 then Raise InvalidOperation
  else
    let ans := rescale_half_up d e in
    if prec <? ndigits (Z.abs (coef ans)) then Raise InvalidOperation
    else Ok ans.

(** The rational number a decimal denotes. *)
Definition to_Q (d : Decimal) : Q := inject_Z (coef d) * (10 # 1) ^ dexp d.

(** A decimal whose coefficient has at most 28 digits. *)
Definition fits (d : Decimal) : Prop := Z.abs (coef d) < 10 ^ prec.

End Dec.

Export Dec(Decimal, mkDec, coef, dexp).

(** ** The rounding the specification names *)

(** Round [x] to [dps] decimal places, ties away from zero:
    the magnitude is scaled by [10^dps], a half is added, the floor is
    taken, and the sign is put back. *)
Definition roundHalfAwayFromZero (x : Q) (dps : Z) : Q :=
  let n := Qfloor (Qabs x * (10 # 1) ^ dps + (1 # 2)) in
  (if Qle_bool 0 x then inject_Z n else - inject_Z n) * (10 # 1) ^ (- dps).

(* ------------------------------------------------------------------ *)
(** * Tables and text *)

(** A pandas frame: the column labels and the rows.  [df.empty] holds as
    soon as one of the two axes has length zero. *)
Record Frame (R : Type) : Type := mkFrame { columns : list string; rows : list R }.
Arguments mkFrame {R} columns rows.
Arguments columns {R} f.
Arguments rows {R} f.

Definition empty {R : Type} (df : Frame R) : bool :=
  match columns df, rows df with
  | [], _ => true
  | _, [] => true
  | _, _ => false
  end.

Definition has_column {R : Type} (df : Frame R) (c : string) : bool :=
  existsb (String.eqb c) (columns df).

(** [str.upper()] on ASCII text. *)
Definition upper_ascii (c : ascii) : ascii :=
  let n := nat_of_ascii c in
  if ((97 <=? n) && (n <=? 122))%nat then ascii_of_nat (n - 32) else c.

Fixpoint upper (s : string) : string :=
  match s with
  | EmptyString => EmptyString
  | String c s' => String (upper_ascii c) (upper s')
  end.

(** [str(x)] of a text cell: a null cell prints as [None]. *)
Definition py_str (x : option string) : string :=
  match x with
  | Some s => s
  | None => "None"%string
  end.

(** [x or ""] on a text cell. *)
Definition or_empty (x : option string) : string :=
  match x with
  | Some s => s
  | None => EmptyString
  end.

(** [d.get(k, default)] on a dictionary kept as an association list. *)
Fixpoint dict_get {V : Type} (d : list (string * V)) (k : string) (default : V) : V :=
  match d with
  | [] => default
  | (k', v) :: d' => if String.eqb k k' then v else dict_get d' k default
  end.

(** Order of two nullable cells as [sort_values] sees it: nulls last. *)
Definition compare_cell {A : Type} (cmp : A -> A -> comparison)
    (a b : option A) : comparison :=
  match a, b with
  | Some x, Some y => cmp x y
  | Some _, None => Lt
  | None, Some _ => Gt
  | None, None => Eq
  end.

Definition lex (c1 c2 : comparison) : comparison :=
  match c1 with
  | Eq => c2
  | _ => c1
  end.

Section Sorting.
Context {R : Type} (cmp : R -> R -> comparison).

Definition leb_by (a b : R) : bool :=
  match cmp a b with Gt => false | _ => true end.

(** Stable insertion sort: [x] goes before the first row that is not
    smaller, so rows that compare equal keep their order. *)
Fixpoint insert (x : R) (l : list R) : list R :=
  match l with
  | [] => [x]
  | y :: l' => if leb_by x y then x :: l else y :: insert x l'
  end.

Fixpoint sort_values (l : list R) : list R :=
  match l with
  | [] => []
  | x :: l' => insert x (sort_values l')
  end.
End Sorting.

Section GroupShift.
Context {R K V : Type} (key_eqb : K -> K -> bool).
Context (key : R -> option K) (val : R -> option V).

(** A row belongs to the group of key [k]; rows with a null key are in
    no group ([groupby] drops them). *)
Definition grouped_with (k : K) (r : R) : bool :=
  match key r with
  | Some k' => key_eqb k k'
  | None => false
  end.

(** The nearest earlier row of the same group. *)
Definition previous_in_group (r : R) (before : list R) : option R :=
  match key r with
  | None => None
  | Some k => find (grouped_with k) before
  end.

(** The value [shift(1)] puts in front of a row. *)
Definition shifted (r : R) (before : list R) : option V :=
  match previous_in_group r before with
  | Some p => val p
  | None => None
  end.

(** [df.groupby(key)[val].shift(1)]; [before] is the part of the frame
    already passed, latest row first. *)
Fixpoint group_shift_from (before rows : list R) : list (option V) :=
  match rows with
  | [] => []
  | r :: rest => shifted r before :: group_shift_from (r :: before) rest
  end.

Definition group_shift (rows : list R) : list (option V) :=
  group_shift_from [] rows.
End GroupShift.

(* ------------------------------------------------------------------ *)
(** * compute.py *)

Module Compute.

(** One parsed event.  Text and time cells are nullable.  A numeric cell
    holds the float64 that [pd.to_numeric] left in the column; the model
    keeps it as the decimal that [Decimal(str(x))] reads, and a NaN or
    absent cell as [None]. *)
Record Event : Type := mkEvent {
  timestamp : option Z;          (* nanoseconds since the epoch; NaT is None *)
  userId : option string;
  id : option string;
  messageId : option string;
  eventType : option string;
  type : option string;
  source : option string;
  action : option string;
  amount : option Decimal;
  vat : option Decimal;
  oldBalance : option Decimal;
  newBalance : option Decimal;
  paymentBalance : option Decimal;
  currency : option string
}.

(** The columns of a frame built from a non-empty list of events: the
    keys the event source writes. *)
Definition event_columns : list string :=
  ["timestamp"; "messageId"; "eventType"; "userId"; "id"; "type"; "source";
   "action"; "amount"; "vat"; "oldBalance"; "newBalance"; "paymentBalance";
   "currency"]%string.

(** [pd.DataFrame(events)] *)
Definition DataFrame (events : list Event) : Frame Event :=
  match events with
  | [] => mkFrame [] []
  | _ => mkFrame event_columns events
  end.

Record Config : Type := mkConfig {
  decimals : Z;
  tolerance : Decimal;            (* Decimal(str(tolerance)) *)
  currency_decimals : option (list (string * Z))
}.

Definition default_config : Config :=
  mkConfig 2 (mkDec 5 (-3)) None.

(** [currency_decimals or {"SAR": 3, "BHD": 4}] *)
Definition effective_currency_decimals (cfg : Config) : list (string * Z) :=
  match currency_decimals cfg with
  | None | Some [] => [("SAR", 3); ("BHD", 4)]%string
  | Some d => d
  end.

Definition get_decimals (cfg : Config) (cur : string) : Z :=
  dict_get (effective_currency_decimals cfg) (upper cur) (decimals cfg).

(** Decimal places of a row: [get_decimals(row.get("currency") or "")]. *)
Definition dps (cfg : Config) (ev : Event) : Z :=
  get_decimals cfg (or_empty (currency ev)).

(** [to_dec] (compute.py, lines 84-90): [Decimal(str(x))] of a numeric
    cell, [None] for a null cell.  The cell is already held as that
    decimal. *)
Definition to_dec (x : option Decimal) : option Decimal := x.

(** [x or Decimal(0)]: a missing and a zero decimal both give [Decimal(0)]. *)
Definition or_zero (x : option Decimal) : Decimal :=
  match x with
  | Some d => if Dec.truthy d then d else Dec.zero
  | None => Dec.zero
  end.

(** [x.quantize(quant, rounding=ROUND_HALF_UP) if x is not None else None] *)
Definition quantize_opt (x : option Decimal) (places : Z) : Result (option Decimal) :=
  match x with
  | Some d => q <- Dec.quantize d places ;; Ok (Some q)
  | None => Ok None
  end.

(** A ledger row at the end of the row loop, with the three temporary
    columns the continuity check reads. *)
Record Computed : Type := mkComputed {
  c_event : Event;
  c_expected : option Decimal;        (* expectedNewBalance *)
  c_mismatch : bool;                  (* balanceMismatch *)
  c_overdraft : bool;
  c_overdraftReason : option string;
  c_newBalanceFilled : option Decimal;  (* _newBalanceFilled *)
  c_oldBalanceDec : option Decimal;     (* _oldBalanceDec *)
  c_newBalanceDec : option Decimal;     (* _newBalanceDec *)
  c_suggested : Decimal               (* suggestedAdjustment *)
}.

(** [exp_new] (compute.py, lines 96-106). *)
Definition expected_balance (ev : Event) : option Decimal :=
  let amt := or_zero (to_dec (amount ev)) in
  let v := or_zero (to_dec (vat ev)) in
  let old_b := or_zero (to_dec (oldBalance ev)) in
  let t := upper (py_str (type ev)) in
  if String.eqb t "CREDIT" then Some (Dec.add old_b (Dec.sub amt v))
  else if String.eqb t "DEBIT" then Some (Dec.sub old_b (Dec.sub amt v))
  else None.

(** [mismatch] (compute.py, lines 125-130). *)
Definition mismatch_of (cfg : Config) (exp_new_q new_bal_q : option Decimal) : bool :=
  match exp_new_q, new_bal_q with
  | Some e, Some n => Dec.gtb (Dec.abs (Dec.sub e n)) (tolerance cfg)
  | _, _ => false
  end.

(** [reason] (compute.py, lines 133-144). *)
Definition overdraft_reason (exp_new_q new_bal_q : option Decimal) : option string :=
  let expected_neg := match exp_new_q with Some e => Dec.negative e | None => false end in
  let actual_neg := match new_bal_q with Some n => Dec.negative n | None => false end in
  if expected_neg && actual_neg
  then Some "expected balance < 0, actual balance < 0"%string
  else if actual_neg then Some "actual<0"%string
  else if expected_neg then Some "expected<0"%string
  else None.

(** [nf], the filled new balance (compute.py, lines 148-154). *)
Definition filled (exp_new_q new_bal_q : option Decimal) : option Decimal :=
  match new_bal_q with
  | Some n => Some n
  | None => exp_new_q
  end.

(** The body of the loop over [tx.iterrows()] (compute.py, lines 78-162). *)
Definition compute_row (cfg : Config) (ev : Event) : Result Computed :=
  let places := dps cfg ev in
  let old_bal := to_dec (oldBalance ev) in
  let new_bal := to_dec (newBalance ev) in
  exp_new_q <- quantize_opt (expected_balance ev) places ;;
  new_bal_q <- quantize_opt new_bal places ;;
  old_dec <- quantize_opt (option_map (fun _ => or_zero old_bal) old_bal) places ;;
  let mismatch := mismatch_of cfg exp_new_q new_bal_q in
  let reason := overdraft_reason exp_new_q new_bal_q in
  sug <- match exp_new_q, new_bal_q with
         | Some e, Some n =>
             if mismatch then Dec.quantize (Dec.sub e n) places else Ok Dec.zero
         | _, _ => Ok Dec.zero
         end ;;
  Ok (mkComputed ev exp_new_q mismatch
        (match reason with Some _ => true | None => false end) reason
        (filled exp_new_q new_bal_q) old_dec new_bal_q sug).

(** A row of the ledger that [build_ledger] returns.  The column
    [expectedNewBalance] stores [float(exp_new_q)]; the record keeps the
    quantized decimal itself. *)
Record LedgerEntry : Type := mkEntry {
  event : Event;
  expectedNewBalance : option Decimal;
  balanceMismatch : bool;
  overdraft : bool;
  overdraftReason : option string;
  suggestedAdjustment : Decimal;
  prevNewBalanceFilled : option Decimal;
  continuityBreak : bool
}.

Definition ledger_columns : list string :=
  event_columns ++
  ["expectedNewBalance"; "balanceMismatch"; "overdraft"; "overdraftReason";
   "suggestedAdjustment"; "prevNewBalanceFilled"; "continuityBreak"]%string.

(** The order of [tx.sort_values(["userId", "timestamp", "id", "messageId"])]. *)
Definition compare_events (a b : Event) : comparison :=
  lex (compare_cell String.compare (userId a) (userId b))
   (lex (compare_cell Z.compare (timestamp a) (timestamp b))
     (lex (compare_cell String.compare (id a) (id b))
          (compare_cell String.compare (messageId a) (messageId b)))).

Definition compare_rows (a b : Computed) : comparison :=
  compare_events (c_event a) (c_event b).

(** [cont_break] (compute.py, lines 178-184). *)
Definition cont_break (cfg : Config) (ob_dec prev_nf : option Decimal) : bool :=
  match ob_dec, to_dec prev_nf with
  | Some ob, Some pf => Dec.gtb (Dec.abs (Dec.sub ob pf)) (tolerance cfg)
  | _, _ => false
  end.

(** The last steps on one row: the continuity flag is set and the
    temporary columns are dropped. *)
Definition finish_row (cfg : Config) (r : Computed) (prev : option Decimal) : LedgerEntry :=
  mkEntry (c_event r) (c_expected r) (c_mismatch r) (c_overdraft r)
    (c_overdraftReason r) (c_suggested r) prev
    (cont_break cfg (c_oldBalanceDec r) prev).

Fixpoint map2 {A B C : Type} (f : A -> B -> C) (l : list A) (l' : list B) : list C :=
  match l, l' with
  | a :: t, b :: t' => f a b :: map2 f t t'
  | _, _ => []
  end.

(** [df["eventType"] == "BALANCE_SYNC"] *)
Definition is_balance_sync (ev : Event) : bool :=
  match eventType ev with
  | Some s => String.eqb s "BALANCE_SYNC"
  | None => false
  end.

(** [build_ledger] (compute.py, lines 11-190).  The two early returns
    give back the frame they tested, with the columns it has. *)
Definition build_ledger (cfg : Config) (events : list Event) : Result (Frame LedgerEntry) :=
  let df := DataFrame events in
  if empty df then Ok (mkFrame (columns df) [])
  else
    let tx := filter is_balance_sync (rows df) in
    match tx with
    | [] => Ok (mkFrame (columns df) [])
    | _ =>
        computed <- mapM (compute_row cfg) tx ;;
        let sorted := sort_values compare_rows computed in
        let prev := group_shift String.eqb
                      (fun r => userId (c_event r)) c_newBalanceFilled sorted in
        Ok (mkFrame ledger_columns (map2 (finish_row cfg) sorted prev))
    end.

End Compute.

(* ------------------------------------------------------------------ *)
(** * anomalies.py *)

(** The two places where the detector turns a cell into a binary64
    float: [astype(float)] on an amount, and [total_seconds()] on a
    difference of timestamps.  Their results are fixed by pandas, not by
    this repository, so the detector is stated over any such pair. *)
Class Float64Conv : Type := {
  to_float : Decimal -> PrimFloat.float;
  total_seconds : Z -> PrimFloat.float
}.

(** The conversions as the examples use them: an integer goes to the
    nearest float, a decimal with a negative exponent is the quotient of
    two such floats (correctly rounded when both are exact, which holds
    for coefficients below 2^53 and up to 22 decimal places), and
    [total_seconds] divides the nanoseconds by 1e9. *)
Definition float_of_Z (z : Z) : PrimFloat.float :=
  if z <? 0 then PrimFloat.opp (PrimFloat.of_uint63 (Uint63.of_Z (- z)))
  else PrimFloat.of_uint63 (Uint63.of_Z z).

#[global] Instance sample_conv : Float64Conv := {
  to_float d :=
    if 0 <=? dexp d then float_of_Z (coef d * 10 ^ dexp d)
    else PrimFloat.div (float_of_Z (coef d)) (float_of_Z (10 ^ (- dexp d)));
  total_seconds ns := PrimFloat.div (float_of_Z ns) (float_of_Z 1000000000)
}.

Module Anomalies.

Import Compute.

Definition float : Type := PrimFloat.float.

Record Config : Type := mkConfig {
  mad_threshold : float;
  dup_time_window : float
}.

(** What the [details] text of a record says.  The numbers a message
    prints are kept as numbers. *)
Inductive Details : Type :=
| ActionContainsInvalid
| MadZScore (score threshold : float)
| DuplicateTransactionId
| FieldIsBlank (col : string)
| RepeatedManual (type : option string) (window : float)
| OldBalanceDoesNotMatch
| ExpectedNotActual (expected actual : option Decimal)
| TransactionsWithinOneSecond
| MultipleCurrencies.

Record AnomalyRecord : Type := mkAnomaly {
  a_timestamp : option Z;
  a_userId : option string;
  a_id : option string;
  a_type : option string;
  a_source : option string;
  a_action : option string;
  a_amount : option Decimal;
  a_oldBalance : option Decimal;
  a_newBalance : option Decimal;
  anomalyType : string;
  details : Details
}.

Definition anomaly_columns : list string :=
  ["timestamp"; "userId"; "id"; "type"; "source"; "action"; "amount";
   "oldBalance"; "newBalance"; "anomalyType"; "details"]%string.

(** The dictionary every pass but MissingField appends for a row. *)
Definition record (kind : string) (d : Details) (r : LedgerEntry) : AnomalyRecord :=
  let ev := event r in
  mkAnomaly (timestamp ev) (userId ev) (id ev) (type ev) (source ev) (action ev)
    (amount ev) (oldBalance ev) (newBalance ev) kind d.

(** The rows of [df[mask]]. *)
Fixpoint select {R : Type} (mask : list bool) (l : list R) : list R :=
  match mask, l with
  | b :: mask', r :: l' => if b then r :: select mask' l' else select mask' l'
  | _, _ => []
  end.

(** *** Text tests *)

Fixpoint contains (pat s : string) : bool :=
  String.prefix pat s ||
  match s with
  | EmptyString => false
  | String _ s' => contains pat s'
  end.

(** [str.contains(pat, case=False)] for a pattern of plain letters. *)
Definition contains_ci (pat s : string) : bool := contains (upper pat) (upper s).

Definition is_space (c : ascii) : bool :=
  let n := nat_of_ascii c in
  ((n =? 32) || ((9 <=? n) && (n <=? 13)) || ((28 <=? n) && (n <=? 31)))%nat.

Fixpoint all_space (s : string) : bool :=
  match s with
  | EmptyString => true
  | String c s' => is_space c && all_space s'
  end.

(** [df[col].isna() | (df[col].astype(str).str.strip() == "")] *)
Definition blank (x : option string) : bool :=
  match x with
  | None => true
  | Some s => all_space s
  end.

(** *** Order of the frame *)

(** [df.sort_values(["userId", "timestamp", "id"])] *)
Definition compare_entries (a b : LedgerEntry) : comparison :=
  lex (compare_cell String.compare (userId (event a)) (userId (event b)))
   (lex (compare_cell Z.compare (timestamp (event a)) (timestamp (event b)))
        (compare_cell String.compare (id (event a)) (id (event b)))).

Definition compare_anomalies (a b : AnomalyRecord) : comparison :=
  compare_cell Z.compare (a_timestamp a) (a_timestamp b).

(** *** Keys of the groupings *)

Definition opt_eqb {A : Type} (eqb : A -> A -> bool) (a b : option A) : bool :=
  match a, b with
  | Some x, Some y => eqb x y
  | None, None => true
  | _, _ => false
  end.

Definition user_type_key (r : LedgerEntry) : option (string * string) :=
  match userId (event r), type (event r) with
  | Some u, Some t => Some (u, t)
  | _, _ => None
  end.

Definition user_type_eqb (a b : string * string) : bool :=
  String.eqb (fst a) (fst b) && String.eqb (snd a) (snd b).

Definition rapid_key (r : LedgerEntry) : option (string * string * Decimal) :=
  match userId (event r), type (event r), amount (event r) with
  | Some u, Some t, Some a => Some (u, t, a)
  | _, _, _ => None
  end.

Definition rapid_key_eqb (a b : string * string * Decimal) : bool :=
  user_type_eqb (fst a) (fst b) && Dec.eqb (snd a) (snd b).

Definition same_tx (a b : LedgerEntry) : bool :=
  opt_eqb String.eqb (userId (event a)) (userId (event b)) &&
  opt_eqb String.eqb (id (event a)) (id (event b)).

Section WithFloats.
Context {conv : Float64Conv}.

(** [astype(float)]: a null cell is NaN. *)
Definition astype_float (x : option Decimal) : float :=
  match x with
  | Some d => to_float d
  | None => PrimFloat.nan
  end.

(** *** MADSpike (anomalies.py, lines 79-105) *)

Fixpoint insert_float (x : float) (l : list float) : list float :=
  match l with
  | [] => [x]
  | y :: l' => if PrimFloat.leb x y then x :: l else y :: insert_float x l'
  end.

Definition sort_floats (l : list float) : list float :=
  fold_right insert_float [] l.

(** [np.nanmedian]: NaN entries are left out; the median of nothing is
    NaN, of an even count the mean of the two middle values. *)
Definition nanmedian (l : list float) : float :=
  let s := sort_floats (filter (fun x => negb (PrimFloat.is_nan x)) l) in
  let n := List.length s in
  match n with
  | O => PrimFloat.nan
  | _ =>
      if Nat.even n
      then PrimFloat.div
             (PrimFloat.add (nth (n / 2 - 1) s PrimFloat.nan)
                            (nth (n / 2) s PrimFloat.nan))
             PrimFloat.two
      else nth (n / 2) s PrimFloat.nan
  end.

Definition group_amounts (grp : list LedgerEntry) : list float :=
  map (fun r => astype_float (amount (event r))) grp.

Definition group_median (grp : list LedgerEntry) : float :=
  nanmedian (group_amounts grp).

Definition group_mad (grp : list LedgerEntry) : float :=
  let median := group_median grp in
  nanmedian (map (fun a => PrimFloat.abs (PrimFloat.sub a median)) (group_amounts grp)).

(** [np.abs((amount - median) / mad)] *)
Definition mad_z (grp : list LedgerEntry) (r : LedgerEntry) : float :=
  PrimFloat.abs
    (PrimFloat.div
       (PrimFloat.sub (astype_float (amount (event r))) (group_median grp))
       (group_mad grp)).

(** [mad == 0 or np.isnan(mad)] *)
Definition no_signal (mad : float) : bool :=
  PrimFloat.eqb mad PrimFloat.zero || PrimFloat.is_nan mad.

(** The rows of one group that the pass flags. *)
Definition spikes_of_group (cfg : Config) (grp : list LedgerEntry) : list LedgerEntry :=
  if no_signal (group_mad grp) then []
  else filter (fun r => PrimFloat.leb (mad_threshold cfg) (mad_z grp r)) grp.

Definition in_group (k : string * string) (r : LedgerEntry) : bool :=
  match user_type_key r with
  | Some k' => user_type_eqb k k'
  | None => false
  end.

(** The keys of [df.groupby(["userId", "type"])], each once. *)
Fixpoint group_keys (seen : list (string * string)) (l : list LedgerEntry)
    : list (string * string) :=
  match l with
  | [] => []
  | r :: l' =>
      match user_type_key r with
      | Some k =>
          if existsb (user_type_eqb k) seen then group_keys seen l'
          else k :: group_keys (k :: seen) l'
      | None => group_keys seen l'
      end
  end.

Definition mad_record (cfg : Config) (grp : list LedgerEntry) (r : LedgerEntry)
    : AnomalyRecord :=
  record "MADSpike"%string (MadZScore (mad_z grp r) (mad_threshold cfg)) r.

Definition mad_spikes (cfg : Config) (df : list LedgerEntry) : list AnomalyRecord :=
  flat_map (fun k =>
              let grp := filter (in_group k) df in
              map (mad_record cfg grp) (spikes_of_group cfg grp))
           (group_keys [] df).

(** *** The other passes *)

Definition invalid_actions (df : list LedgerEntry) : list AnomalyRecord :=
  map (record "InvalidAction"%string ActionContainsInvalid)
    (filter (fun r => let a := py_str (action (event r)) in
                      contains_ci "INVALID"%string a || contains_ci "INVAILID"%string a) df).

(** [df.duplicated(subset=["userId", "id"], keep=False)] (anomalies.py,
    line 108): a row is marked when its pair occurs at least twice, nulls
    counting as equal. *)
Definition dup_id_mask (df : list LedgerEntry) : list bool :=
  map (fun r => (2 <=? List.length (filter (same_tx r) df))%nat) df.

Definition duplicate_ids (df : list LedgerEntry) : list AnomalyRecord :=
  map (record "DuplicateTxId"%string DuplicateTransactionId) (select (dup_id_mask df) df).

(** MissingField reads the row with [row.get]: a column the frame
    lacks reads as null. *)
Definition missing_record (has_old has_new : bool) (col : string) (r : LedgerEntry)
    : AnomalyRecord :=
  let ev := event r in
  mkAnomaly (timestamp ev) (userId ev) (id ev) (type ev) (source ev) (action ev)
    (amount ev)
    (if has_old then oldBalance ev else None)
    (if has_new then newBalance ev else None)
    "MissingField"%string (FieldIsBlank col).

Definition missing_fields (has_old has_new : bool) (df : list LedgerEntry)
    : list AnomalyRecord :=
  map (missing_record has_old has_new "type"%string)
      (filter (fun r => blank (type (event r))) df) ++
  map (missing_record has_old has_new "source"%string)
      (filter (fun r => blank (source (event r))) df) ++
  map (missing_record has_old has_new "action"%string)
      (filter (fun r => blank (action (event r))) df).

(** [(df["timestamp"] - prev).dt.total_seconds()]: NaN when either
    timestamp is NaT. *)
Definition gap_seconds (ts prev : option Z) : float :=
  match ts, prev with
  | Some t, Some p => total_seconds (t - p)
  | _, _ => PrimFloat.nan
  end.

Definition is_some {A : Type} (x : option A) : bool :=
  match x with Some _ => true | None => false end.

(** One entry of [rapid_mask], for a row and its [prevTimestamp]
    (anomalies.py, lines 144-150). *)
Definition rapid_row (cfg : Config) (r : LedgerEntry) (prev : option Z) : bool :=
  opt_eqb String.eqb (type (event r)) (Some "DEBIT"%string) &&
  contains_ci "MANUAL"%string (py_str (source (event r))) &&
  is_some prev &&
  PrimFloat.leb (gap_seconds (timestamp (event r)) prev) (dup_time_window cfg).

Definition rapid_mask (cfg : Config) (df : list LedgerEntry) : list bool :=
  let prevTimestamp :=
    group_shift rapid_key_eqb rapid_key (fun r => timestamp (event r)) df in
  map2 (rapid_row cfg) df prevTimestamp.

Definition rapid_deductions (cfg : Config) (df : list LedgerEntry) : list AnomalyRecord :=
  map (fun r => record "RapidManualDeduction"%string
                  (RepeatedManual (type (event r)) (dup_time_window cfg)) r)
      (select (rapid_mask cfg df) df).

Definition continuity_breaks (df : list LedgerEntry) : list AnomalyRecord :=
  map (record "ContinuityBreak"%string OldBalanceDoesNotMatch) (filter continuityBreak df).

Definition balance_mismatches (df : list LedgerEntry) : list AnomalyRecord :=
  map (fun r => record "BalanceMismatch"%string
                  (ExpectedNotActual (expectedNewBalance r) (newBalance (event r))) r)
      (filter balanceMismatch df).

(** One entry of [gap_mask], for a row and its [prevTs] (anomalies.py,
    lines 203-205). *)
Definition burst_row (r : LedgerEntry) (prev : option Z) : bool :=
  let gap := gap_seconds (timestamp (event r)) prev in
  negb (PrimFloat.is_nan gap) && PrimFloat.ltb gap PrimFloat.one.

Definition gap_mask (df : list LedgerEntry) : list bool :=
  let prevTs :=
    group_shift String.eqb (fun r => userId (event r))
      (fun r => timestamp (event r)) df in
  map2 burst_row df prevTs.

Definition bursts (df : list LedgerEntry) : list AnomalyRecord :=
  map (record "Burst"%string TransactionsWithinOneSecond) (select (gap_mask df) df).

Fixpoint distinct (l : list string) : list string :=
  match l with
  | [] => []
  | x :: l' => x :: filter (fun y => negb (String.eqb x y)) (distinct l')
  end.

(** Number of distinct non-null currencies of a user ([nunique]). *)
Definition currencies_of (u : string) (df : list LedgerEntry) : list string :=
  distinct
    (flat_map (fun r => match userId (event r), currency (event r) with
                        | Some u', Some c => if String.eqb u u' then [c] else []
                        | _, _ => []
                        end) df).

Definition mixed_user (df : list LedgerEntry) (r : LedgerEntry) : bool :=
  match userId (event r) with
  | Some u => (2 <=? List.length (currencies_of u df))%nat
  | None => false
  end.

Definition currency_mismatches (df : list LedgerEntry) : list AnomalyRecord :=
  map (record "CurrencyMismatch"%string MultipleCurrencies) (filter (mixed_user df) df).

(** *** Columns the passes index *)

Definition require (cols : list string) (c : string) : Result unit :=
  if existsb (String.eqb c) cols then Ok tt else Raise (KeyError c).

Fixpoint require_all (cols : list string) (cs : list string) : Result unit :=
  match cs with
  | [] => Ok tt
  | c :: cs' => _ <- require cols c ;; require_all cols cs'
  end.

(** The columns [row[...]] reads when a pass appends a record. *)
Definition record_columns : list string :=
  ["timestamp"; "userId"; "id"; "type"; "source"; "action"; "amount";
   "oldBalance"; "newBalance"]%string.

(** A pass that flags no row reads no row. *)
Definition emitting {A : Type} (cols : list string) (flagged : list A)
    (cs : list string) : Result unit :=
  match flagged with
  | [] => Ok tt
  | _ => require_all cols cs
  end.

(** The list [anomalies] after the last pass. *)
Definition collected (cfg : Config) (cols : list string) (df : list LedgerEntry)
    : list AnomalyRecord :=
  let has c := existsb (String.eqb c) cols in
  invalid_actions df ++ mad_spikes cfg df ++ duplicate_ids df ++
  missing_fields (has "oldBalance"%string) (has "newBalance"%string) df ++
  rapid_deductions cfg df ++
  (if has "continuityBreak"%string then continuity_breaks df else []) ++
  (if has "balanceMismatch"%string then balance_mismatches df else []) ++
  bursts df ++ currency_mismatches df.

(** All the passes in the order of the source; the records of a pass
    are appended only after the columns it indexes were found. *)
Definition passes (cfg : Config) (cols : list string) (df : list LedgerEntry)
    : Result (list AnomalyRecord) :=
  let has c := existsb (String.eqb c) cols in
  let invalid := invalid_actions df in
  _ <- require cols "action"%string ;;
  _ <- emitting cols invalid record_columns ;;
  _ <- require cols "type"%string ;;
  _ <- match group_keys [] df with [] => Ok tt | _ => require cols "amount"%string end ;;
  let spikes := mad_spikes cfg df in
  _ <- emitting cols spikes record_columns ;;
  let dups := duplicate_ids df in
  _ <- emitting cols dups record_columns ;;
  _ <- require cols "source"%string ;;
  let missing := missing_fields (has "oldBalance"%string) (has "newBalance"%string) df in
  _ <- require cols "amount"%string ;;
  let rapid := rapid_deductions cfg df in
  _ <- emitting cols rapid record_columns ;;
  let cont := if has "continuityBreak"%string then continuity_breaks df else [] in
  _ <- emitting cols cont record_columns ;;
  let mism := if has "balanceMismatch"%string then balance_mismatches df else [] in
  _ <- emitting cols mism (record_columns ++ ["expectedNewBalance"%string]) ;;
  let burst := bursts df in
  _ <- emitting cols burst record_columns ;;
  _ <- require cols "currency"%string ;;
  let mixed := currency_mismatches df in
  _ <- emitting cols mixed record_columns ;;
  Ok (invalid ++ spikes ++ dups ++ missing ++ rapid ++ cont ++ mism ++ burst ++ mixed).

(** The columns every pass needs on a frame with rows. *)
Definition base_columns : list string :=
  ["timestamp"; "userId"; "id"; "type"; "source"; "action"; "amount";
   "oldBalance"; "newBalance"; "currency"]%string.

Definition empty_anomalies : Frame AnomalyRecord := mkFrame anomaly_columns [].

Definition detect_anomalies (cfg : Config) (ledger : option (Frame LedgerEntry))
    : Result (Frame AnomalyRecord) :=
  match ledger with
  | None => Ok empty_anomalies
  | Some ledger =>
      if empty ledger then Ok empty_anomalies
      else
        let cols := columns ledger in
        _ <- require_all cols ["timestamp"; "userId"; "id"]%string ;;
        let df := sort_values compare_entries (rows ledger) in
        anomalies <- passes cfg cols df ;;
        match anomalies with
        | [] => Ok empty_anomalies
        | _ => Ok (mkFrame anomaly_columns (sort_values compare_anomalies anomalies))
        end
  end.

End WithFloats.

End Anomalies.

(* ------------------------------------------------------------------ *)
(** * The words of the specification *)

Section SpecWords.

Import Compute.
Context {conv : Float64Conv}.

(** A missing amount counts as zero in the arithmetic of the expected
    balance. *)
Definition value_or_zero (x : option Decimal) : Q :=
  match x with
  | Some d => Dec.to_Q d
  | None => 0%Q
  end.

(** [x], written with [places] decimal places, needs no more digits than
    the decimal context has. *)
Definition within_precision (x : Q) (places : Z) : Prop :=
  (Qabs x * (10 # 1) ^ places < (10 # 1) ^ Dec.prec)%Q.



(** The rounded expected balance of an entry, as a number. *)
Definition expected_value (e : LedgerEntry) : option Q :=
  option_map Dec.to_Q (expectedNewBalance e).

(** The reported new balance of an entry, rounded to the decimal places
    of its currency. *)
Definition rounded_actual (cfg : Config) (e : LedgerEntry) : option Q :=
  option_map (fun d => roundHalfAwayFromZero (Dec.to_Q d) (dps cfg (event e)))
    (newBalance (event e)).

(** The old balance of an entry, rounded to the decimal places of its
    currency. *)
Definition rounded_old (cfg : Config) (e : LedgerEntry) : option Q :=
  option_map (fun d => roundHalfAwayFromZero (Dec.to_Q d) (dps cfg (event e)))
    (oldBalance (event e)).

(** The filled new balance of an entry: the rounded reported balance if
    it is known, else the rounded expected balance. *)
Definition filled_new (cfg : Config) (p : LedgerEntry) : option Q :=
  match rounded_actual cfg p with
  | Some a => Some a
  | None => expected_value p
  end.

(** The order the ledger is put in. *)
Definition in_ledger_order (a b : LedgerEntry) : Prop :=
  leb_by compare_events (event a) (event b) = true.

(** A quantized decimal cell and the number it stands for. *)
Definition denotes (d : option Decimal) (q : option Q) (places : Z) : Prop :=
  match d, q with
  | Some d, Some q => (Dec.to_Q d == q)%Q /\ dexp d = - places
  | None, None => True
  | _, _ => False
  end.


(** C2 as the specification words it. *)
Definition balance_mismatch_as_stated (cfg : Config) (events : list Event) : Prop :=
  forall fr e,
    build_ledger cfg events = Ok fr -> In e (rows fr) ->
    (balanceMismatch e = true <->
     exists x a, expected_value e = Some x /\ rounded_actual cfg e = Some a /\
                 (Dec.to_Q (tolerance cfg) < Qabs (x - a))%Q).

(** C3 as the specification words it, at one position of the ledger. *)
Definition continuity_as_stated (cfg : Config) (events : list Event) : Prop :=
  forall fr pre e post,
    build_ledger cfg events = Ok fr -> rows fr = pre ++ e :: post ->
    ((forall p, In p pre -> userId (event p) <> userId (event e)) ->
     continuityBreak e = false) /\
    (forall pre1 p pre2 u,
       pre = pre1 ++ p :: pre2 ->
       userId (event e) = Some u -> userId (event p) = Some u ->
       (forall y, In y pre2 -> userId (event y) <> Some u) ->
       (continuityBreak e = true <->
        exists ob pf, rounded_old cfg e = Some ob /\ filled_new cfg p = Some pf /\
                      (Dec.to_Q (tolerance cfg) < Qabs (ob - pf))%Q)).

(** C5 as the specification words it: both tables empty, each with its
    columns. *)
Definition empty_run_as_stated (cfg : Compute.Config) (acfg : Anomalies.Config) : Prop :=
  exists ledger anomalies,
    build_ledger cfg [] = Ok ledger /\
    rows ledger = [] /\ columns ledger = ledger_columns /\
    Anomalies.detect_anomalies acfg (Some ledger) = Ok anomalies /\
    rows anomalies = [] /\ columns anomalies = Anomalies.anomaly_columns.

End SpecWords.

(* ------------------------------------------------------------------ *)
(** * Sample events *)

Module Samples.

Import Compute.
Local Open Scope string_scope.

Definition sync (user tx msg : string) (ts : Z) (ty : string)
    (amt v old new : option Decimal) (cur : string) : Event :=
  mkEvent (Some ts) (Some user) (Some tx) (Some msg) (Some "BALANCE_SYNC"%string)
    (Some ty) (Some "APP"%string) (Some "PAYMENT"%string) amt v old new None (Some cur).

(** amount 100.0, vat 0.0, oldBalance 50.0, newBalance 150.01 *)
Definition credit_100 : Event :=
  sync "u1" "t1" "m1" 0 "CREDIT"
    (Some (mkDec 1000 (-1))) (Some (mkDec 0 (-1))) (Some (mkDec 500 (-1)))
    (Some (mkDec 15001 (-2))) "UNKNOWN".

(** The type in lower case, a currency with three places. *)
Definition credit_lower : Event :=
  sync "u1" "t1" "m1" 0 "credit" (Some (mkDec 1000 (-1))) None None None "SAR".


(** oldBalance 5e+25, amount 0.01, newBalance -5e+25. *)
Definition credit_huge : Event :=
  sync "u1" "t1" "m1" 0 "CREDIT"
    (Some (mkDec 1 (-2))) None (Some (mkDec 5 25)) (Some (mkDec (-5) 25)) "UNKNOWN".

(** tolerance 1e+26 *)
Definition huge_tolerance : Config := mkConfig 2 (mkDec 1 26) None.

(** The ledger rows of the events above. *)
Definition entry_100 : LedgerEntry :=
  mkEntry credit_100 (Some (mkDec 15000 (-2))) true false None (mkDec (-1) (-2))
    None false.



(** A second transaction of the same user one minute later:
    amount 20.0, oldBalance 100.0, newBalance 80.0. *)
Definition debit_20 : Event :=
  sync "u1" "t2" "m2" 60000000000 "DEBIT"
    (Some (mkDec 200 (-1))) None (Some (mkDec 1000 (-1))) (Some (mkDec 800 (-1)))
    "UNKNOWN".

Definition entry_20 : LedgerEntry :=
  mkEntry debit_20 (Some (mkDec 8000 (-2))) false false None Dec.zero
    (Some (mkDec 15001 (-2))) true.

(** Two rows of one user in currencies of four and of two places:
    newBalance 0.0001, then oldBalance -1e+24. *)
Definition small_bhd : Event :=
  sync "u1" "t1" "m1" 0 "CREDIT" None None None (Some (mkDec 1 (-4))) "BHD".

Definition debit_minus_1e24 : Event :=
  sync "u1" "t2" "m2" 1 "DEBIT" None None (Some (mkDec (-1) 24)) None "UNKNOWN".

(** tolerance 1e+24 *)
Definition tolerance_1e24 : Config := mkConfig 2 (mkDec 1 24) None.

Definition entry_small_bhd : LedgerEntry :=
  mkEntry small_bhd (Some (mkDec 0 (-4))) false false None Dec.zero None false.

Definition entry_minus_1e24 : LedgerEntry :=
  mkEntry debit_minus_1e24 (Some (mkDec (-100000000000000000000000000) (-2)))
    false true (Some "expected<0"%string) Dec.zero (Some (mkDec 1 (-4))) false.

(** The detector with its default thresholds, 6.0 and 60.0. *)
Definition detector_config : Anomalies.Config :=
  Anomalies.mkConfig (float_of_Z 6) (float_of_Z 60).

(** A ledger with rows whose frame has the event columns only. *)
Definition ledger_without_flags : Frame LedgerEntry :=
  mkFrame event_columns [entry_100; entry_20].

(** A ledger row with nothing flagged by the ledger builder. *)
Definition plain (ev : Event) : LedgerEntry :=
  mkEntry ev None false false None Dec.zero None false.




(** One transaction id used twice by a user, the second time on a row
    without a timestamp. *)
Definition twice_1 : Event :=
  mkEvent (Some 0) (Some "u1") (Some "t1") (Some "m1") (Some "BALANCE_SYNC")
    (Some "DEBIT") (Some "APP") (Some "PAYMENT")
    (Some (mkDec 50 (-1))) None None None None (Some "UNKNOWN")%string.

Definition twice_2 : Event :=
  mkEvent None (Some "u1") (Some "t1") (Some "m2") (Some "BALANCE_SYNC")
    (Some "DEBIT") (Some "MANUAL") (Some "PAYMENT")
    (Some (mkDec 50 (-1))) None None None None (Some "UNKNOWN")%string.

Definition twice_ledger : Frame LedgerEntry :=
  mkFrame ledger_columns [plain twice_1; plain twice_2].




Definition entry_huge : LedgerEntry :=
  mkEntry credit_huge (Some (mkDec 5000000000000000000000000001 (-2))) false true
    (Some "actual<0"%string) Dec.zero None false.

End Samples.

(* ------------------------------------------------------------------ *)
(** * Words for the further properties *)

Section LedgerWords.

Import Compute.

(** A known value below zero. *)
Definition negative_value (q : option Q) : Prop :=
  exists x, q = Some x /\ (x < 0)%Q.


End LedgerWords.

Section ModestWords.
Import Compute.





End ModestWords.

Section DetectorWords.

Import Compute Anomalies.

(** The nine kinds of anomaly. *)
Definition anomaly_kinds : list string :=
  ["InvalidAction"; "MADSpike"; "DuplicateTxId"; "MissingField";
   "RapidManualDeduction"; "ContinuityBreak"; "BalanceMismatch"; "Burst";
   "CurrencyMismatch"]%string.

(** Ascending timestamps, the unknown ones last. *)
Definition timestamp_order (a b : AnomalyRecord) : Prop :=
  match a_timestamp a, a_timestamp b with
  | Some x, Some y => x <= y
  | None, Some _ => False
  | _, None => True
  end.

(** A record repeats the cells of a ledger row. *)
Definition copies (rec : AnomalyRecord) (r : LedgerEntry) : Prop :=
  a_timestamp rec = timestamp (event r) /\ a_userId rec = userId (event r) /\
  a_id rec = id (event r) /\ a_type rec = type (event r) /\
  a_source rec = source (event r) /\ a_action rec = action (event r) /\
  a_amount rec = amount (event r).

(** The columns the detector indexes on every frame that has rows. *)
Definition always_read_columns : list string :=
  ["timestamp"; "userId"; "id"; "action"; "type"; "source"; "amount";
   "currency"]%string.

(** [text], in upper case, has [pat], in upper case, somewhere in it. *)
Definition mentions (pat text : string) : Prop :=
  exists pre post, upper text = (pre ++ upper pat ++ post)%string.

End DetectorWords.

(* ------------------------------------------------------------------ *)
(** * compute.py: the reconciliation table *)

Module Reconciliation.

Import Compute.

(** The columns of the reconciliation table, in its order (compute.py,
    lines 199-215). *)
Definition cols : list string :=
  ["timestamp"; "userId"; "id"; "type"; "source"; "action"; "oldBalance";
   "amount"; "newBalance"; "expectedNewBalance"; "balanceMismatch";
   "continuityBreak"; "overdraft"; "overdraftReason"; "suggestedAdjustment"]%string.

(** [build_reconciliation] (compute.py, lines 193-218).  An empty ledger
    is returned as it is.  Otherwise [ledger[cols]] keeps every row and,
    of the listed columns, those the ledger has, in the order of the
    list; the columns of a frame say which cells of its rows it holds. *)
Definition build_reconciliation (ledger : Frame LedgerEntry) : Frame LedgerEntry :=
  if empty ledger then ledger
  else mkFrame (filter (has_column ledger) cols) (rows ledger).

End Reconciliation.

(* ------------------------------------------------------------------ *)
(** * report.py: the column presets and the Ledger sheet *)

Module Report.

Import Compute.

(** [str.lower()] on ASCII text. *)
Definition lower_ascii (c : ascii) : ascii :=
  let n := nat_of_ascii c in
  if ((65 <=? n) && (n <=? 90))%nat then ascii_of_nat (n + 32) else c.

Fixpoint lower (s : string) : string :=
  match s with
  | EmptyString => EmptyString
  | String c s' => String (lower_ascii c) (lower s')
  end.

(** What a caller passes as [preset]: a string, or a path object. *)
Inductive Preset : Type :=
| Name (s : string)
| PathOf (p : string).

(** The list returned for the preset [accounting] (report.py, lines
    215-231). *)
Definition accounting : list string :=
  ["timestamp"; "userId"; "id"; "type"; "source"; "action"; "oldBalance";
   "amount"; "newBalance"; "expectedNewBalance"; "balanceMismatch";
   "continuityBreak"; "overdraft"; "overdraftReason"; "suggestedAdjustment"]%string.

Section Files.

(** What the [try] block reads from the file at a path (report.py, lines
    232-239): the items of the list the JSON file holds, each through
    [str]; nothing when the file cannot be opened or parsed, or holds no
    list. *)
Variable load_list : string -> option (list string).

(** [_load_column_preset] (report.py, lines 193-240). *)
Definition _load_column_preset (preset : option Preset) : option (list string) :=
  match preset with
  | None => None
  | Some (Name s) =>
      if String.eqb (lower s) "full" then None
      else if String.eqb (lower s) "accounting" then Some accounting
      else load_list s
  | Some (PathOf p) => load_list p
  end.

End Files.

(** The frame [_write_excel] puts on the Ledger sheet (report.py, lines
    86-90): the ledger, or the columns of the list that the ledger has. *)
Definition ledger_sheet (ledger_columns : option (list string))
    (ledger : Frame LedgerEntry) : Frame LedgerEntry :=
  match ledger_columns with
  | None => ledger
  | Some cs => mkFrame (filter (has_column ledger) cs) (rows ledger)
  end.

End Report.

(* ------------------------------------------------------------------ *)
(** * parser.py: scalars and the block of a transaction *)

Module Parser.

Local Open Scope string_scope.

(** The values [coerce_scalar] returns. *)
Inductive Scalar : Type :=
| Text (s : string)
| Int (z : Z)
| Float (f : PrimFloat.float)
| Bool (b : bool)
| Null.

(** [str.strip()] on ASCII text: the white space at the two ends goes. *)
Fixpoint lstrip (s : string) : string :=
  match s with
  | EmptyString => EmptyString
  | String c s' => if Anomalies.is_space c then lstrip s' else s
  end.

Fixpoint rstrip (s : string) : string :=
  match s with
  | EmptyString => EmptyString
  | String c s' =>
      match rstrip s' with
      | EmptyString => if Anomalies.is_space c then EmptyString else String c EmptyString
      | r => String c r
      end
  end.

Definition strip (s : string) : string := rstrip (lstrip s).

Definition single_quote : ascii := "'"%char.
Definition double_quote : ascii := ascii_of_nat 34.

(** [v.startswith(q)] and [v.endswith(q)] for a one-character [q]. *)
Definition startswith (q : ascii) (v : string) : bool :=
  match v with
  | String c _ => Ascii.eqb c q
  | EmptyString => false
  end.

Fixpoint endswith (q : ascii) (v : string) : bool :=
  match v with
  | EmptyString => false
  | String c EmptyString => Ascii.eqb c q
  | String _ v' => endswith q v'
  end.

Fixpoint drop_last (v : string) : string :=
  match v with
  | EmptyString => EmptyString
  | String _ EmptyString => EmptyString
  | String c v' => String c (drop_last v')
  end.

(** [v[1:-1]] *)
Definition inner (v : string) : string :=
  match v with
  | EmptyString => EmptyString
  | String _ v' => drop_last v'
  end.

Section Builtins.

(** Python's [int(v)] and [float(v)] on text; nothing when they raise
    [ValueError]. *)
Variable int_of : string -> option Z.
Variable float_of : string -> option PrimFloat.float.

(** [coerce_scalar] (parser.py, lines 29-50). *)
Definition coerce_scalar (val : string) : Scalar :=
  let v := strip val in
  if (startswith single_quote v && endswith single_quote v) ||
     (startswith double_quote v && endswith double_quote v)
  then Text (inner v)
  else
    match int_of v with
    | Some z => Int z
    | None =>
        match float_of v with
        | Some f => Float f
        | None =>
            let l := Report.lower v in
            if String.eqb l "true" || String.eqb l "false" then Bool (String.eqb l "true")
            else if String.eqb l "null" || String.eqb l "none" then Null
            else Text v
        end
    end.

End Builtins.

End Parser.

Module BraceScan.

Definition opening : ascii := "{"%char.
Definition closing : ascii := "}"%char.

(** The loop that looks for the matching brace in
    [parse_transaction_block] (parser.py, lines 72-82): [text] is
    [content[idx:]] and [brace] the count so far; the result is [end],
    nothing when the loop runs out. *)
Fixpoint scan (text : string) (brace : Z) (idx : nat) : option nat :=
  match text with
  | EmptyString => None
  | String ch rest =>
      if Ascii.eqb ch opening then scan rest (brace + 1) (S idx)
      else if Ascii.eqb ch closing then
        if brace - 1 =? 0 then Some idx else scan rest (brace - 1) (S idx)
      else scan rest brace (S idx)
  end.

(** [content[start:]] *)
Fixpoint from (start : nat) (content : string) : string :=
  match start, content with
  | O, _ => content
  | S n, String _ rest => from n rest
  | S _, EmptyString => EmptyString
  end.

(** The index of the brace that closes the one at [start] (parser.py,
    lines 71-86). *)
Definition matching_brace (content : string) (start : nat) : option nat :=
  scan (from start content) 0 start.

(** Opening braces less closing braces. *)
Fixpoint balance (s : string) : Z :=
  match s with
  | EmptyString => 0
  | String ch rest =>
      (if Ascii.eqb ch opening then 1 else if Ascii.eqb ch closing then -1 else 0)
      + balance rest
  end.

(** [s[:n]] *)
Definition first_chars (n : nat) (s : string) : string := substring 0 n s.

(** What a character adds to the balance; nothing past the end. *)
Definition delta (c : option ascii) : Z :=
  match c with
  | Some ch => if Ascii.eqb ch opening then 1 else if Ascii.eqb ch closing then -1 else 0
  | None => 0
  end.

End BraceScan.

(* ------------------------------------------------------------------ *)
(** * More sample events *)

Module MoreSamples.

Import Compute.
Local Open Scope string_scope.

(** A line the event source reports as skipped: it carries no
    transaction. *)
Definition skipped : Event :=
  mkEvent (Some 0) None None (Some "m0") (Some "SKIP_CREATE_SUBSCRIPTION")
    None None None None None None None None (Some "UNKNOWN").

(** amount 80.0 taken from a balance of 50.0, newBalance -30.0 *)
Definition debit_overdrawn : Event :=
  Samples.sync "u1" "t1" "m1" 0 "DEBIT"
    (Some (mkDec 800 (-1))) None (Some (mkDec 500 (-1))) (Some (mkDec (-300) (-1)))
    "UNKNOWN".

Definition entry_overdrawn : LedgerEntry :=
  mkEntry debit_overdrawn (Some (mkDec (-3000) (-2))) false true
    (Some "expected balance < 0, actual balance < 0") Dec.zero None false.


(** A ledger row with nothing flagged, of a whole amount. *)
Definition row (user tx : option string) (ts : option Z) (ty src act : option string)
    (amt : Z) (cur : string) : LedgerEntry :=
  Samples.plain
    (mkEvent ts user tx (Some "m") (Some "BALANCE_SYNC") ty src act
       (Some (mkDec amt 0)) None None None None (Some cur)).

(** An action with the word in lower case. *)
Definition invalid_row : LedgerEntry :=
  row (Some "u1") (Some "t1") (Some 0) (Some "DEBIT") (Some "APP")
    (Some "invalid_refund") 5 "SAR".

Definition invalid_ledger : Frame LedgerEntry :=
  mkFrame ledger_columns [invalid_row].

(** A row of no user, with no type and a source of two spaces. *)
Definition blank_row : LedgerEntry :=
  row None (Some "t1") (Some 0) None (Some "  ") (Some "PAYMENT") 5 "SAR".

Definition blank_ledger : Frame LedgerEntry :=
  mkFrame ledger_columns [blank_row].

(** One user paying in two currencies, half a second apart. *)
Definition sar_row : LedgerEntry :=
  row (Some "u1") (Some "t1") (Some 0) (Some "DEBIT") (Some "APP") (Some "PAYMENT")
    5 "SAR".

Definition bhd_row : LedgerEntry :=
  row (Some "u1") (Some "t2") (Some 500000000) (Some "DEBIT") (Some "APP")
    (Some "PAYMENT") 7 "BHD".

Definition mixed_ledger : Frame LedgerEntry :=
  mkFrame ledger_columns [sar_row; bhd_row].

(** A frame with rows and without the timestamp column. *)
Definition untimed_ledger : Frame LedgerEntry :=
  mkFrame ["userId"; "id"] [sar_row].

End MoreSamples.

Module ViewSamples.

Import Compute.
Local Open Scope string_scope.

(** A mapping with a key in lower case before the key in upper case. *)
Definition lower_key_config : Config :=
  mkConfig 2 (mkDec 5 (-3)) (Some [("sar", 5); ("SAR", 1)]).

(** A directory in which every name is a JSON file holding one column. *)
Definition every_file (path : string) : option (list string) := Some ["id"].

End ViewSamples.

(* ------------------------------------------------------------------ *)
(** * parser.py: the events as the parser leaves them *)

Module Normalize.

Import Compute.

(** [e.get("currency")], or the text [UNKNOWN] when it is none. *)
Definition currency_or_unknown (c : option string) : string :=
  match c with
  | Some s => s
  | None => "UNKNOWN"%string
  end.

(** One turn of the loop that normalizes types and defaults in
    [parse_logs] (parser.py, lines 243-250): an event without a currency
    gets [UNKNOWN], and a type and a source that are there are put in
    upper case. *)
Definition normalize (e : Event) : Event :=
  mkEvent (timestamp e) (userId e) (id e) (messageId e) (eventType e)
    (option_map upper (type e)) (option_map upper (source e)) (action e)
    (amount e) (vat e) (oldBalance e) (newBalance e) (paymentBalance e)
    (Some (currency_or_unknown (currency e))).

(** The type test of [build_ledger]: the text of the type, in upper
    case, is [kind]. *)
Definition reads_as (kind : string) (e : Event) : Prop :=
  upper (py_str (type e)) = kind.

End Normalize.

(* ------------------------------------------------------------------ *)
(** * Facts about the decimal arithmetic *)

Section DecimalFacts.

Import Dec.

Lemma ndigits_fuel_le (fuel : nat) :
  forall a n, 0 <= a < 2 ^ Z.of_nat fuel * 10 -> 1 <= n ->
    (ndigits_fuel fuel a <= n <-> a < 10 ^ n).
Proof.
  induction fuel as [|f IH]; intros a n Ha Hn.
  - cbn [ndigits_fuel]. change (2 ^ Z.of_nat 0) with 1 in Ha.
    assert (10 ^ 1 <= 10 ^ n) by (apply Z.pow_le_mono_r; lia).
    change (10 ^ 1) with 10 in *. lia.
  - cbn [ndigits_fuel]. destruct (Z.ltb_spec a 10) as [Hlt|Hge].
    + assert (10 ^ 1 <= 10 ^ n) by (apply Z.pow_le_mono_r; lia).
      change (10 ^ 1) with 10 in *. lia.
    + assert (Hpow : 2 ^ Z.of_nat (S f) = 2 * 2 ^ Z.of_nat f).
      { rewrite Nat2Z.inj_succ, Z.pow_succ_r by lia. reflexivity. }
      assert (Hp : 0 < 2 ^ Z.of_nat f) by (apply Z.pow_pos_nonneg; lia).
      assert (Hdiv : 0 <= a / 10 < 2 ^ Z.of_nat f * 10).
      { split; [apply Z.div_pos; lia|].
        apply Z.div_lt_upper_bound; lia. }
      destruct (Z.eq_dec n 1) as [->|Hn1].
      * change (10 ^ 1) with 10.
        assert (1 <= ndigits_fuel f (a / 10)).
        { destruct f; cbn [ndigits_fuel]; [lia|].
          destruct (a / 10 <? 10); [lia|].
          assert (forall g b, 1 <= ndigits_fuel g b) as Hpos.
          { induction g; intros; cbn [ndigits_fuel]; [lia|].
            destruct (b <? 10); [lia|]. specialize (IHg (b / 10)). lia. }
          specialize (Hpos f (a / 10 / 10)). lia. }
        lia.
      * specialize (IH (a / 10) (n - 1) Hdiv ltac:(lia)).
        replace (10 ^ n) with (10 * 10 ^ (n - 1))
          by (rewrite <- Z.pow_succ_r by lia; f_equal; lia).
        assert (a / 10 < 10 ^ (n - 1) <-> a < 10 * 10 ^ (n - 1)).
        { pose proof (Z.div_mod a 10 ltac:(lia)).
          pose proof (Z.mod_pos_bound a 10 ltac:(lia)). lia. }
        lia.
Qed.

Lemma ndigits_le (a n : Z) :
  0 <= a -> 1 <= n -> (ndigits a <= n <-> a < 10 ^ n).
Proof.
  intros Ha Hn. unfold ndigits. apply ndigits_fuel_le; [|exact Hn].
  split; [exact Ha|].
  destruct (Z.eq_dec a 0) as [->|Hnz]; [cbn; lia|].
  rewrite Z2Nat.id by apply Z.log2_nonneg.
  pose proof (Z.log2_spec a ltac:(lia)) as [_ Hup].
  rewrite Z.pow_succ_r in Hup by apply Z.log2_nonneg. lia.
Qed.

Lemma fix_fits (d : Decimal) : fits d -> fix_ctx d = d.
Proof.
  unfold fits, fix_ctx. intro H.
  apply (ndigits_le (Z.abs (coef d)) prec) in H; [|lia|unfold prec; lia].
  apply Z.leb_le in H. rewrite H. reflexivity.
Qed.

Lemma pow10_pos (z : Z) : (0 < (10 # 1) ^ z)%Q.
Proof. apply Qpower_0_lt. reflexivity. Qed.

Lemma pow10_inject (n : Z) : 0 <= n -> ((10 # 1) ^ n == inject_Z (10 ^ n))%Q.
Proof. intro H. rewrite Zpower_Qpower by exact H. reflexivity. Qed.

Lemma pow10_plus (n m : Z) :
  ((10 # 1) ^ (n + m) == (10 # 1) ^ n * (10 # 1) ^ m)%Q.
Proof. apply Qpower_plus. discriminate. Qed.

(** Writing a decimal at a smaller exponent does not change its value. *)
Lemma to_Q_shift (c e e' : Z) :
  e <= e' ->
  (inject_Z (c * 10 ^ (e' - e)) * (10 # 1) ^ e == inject_Z c * (10 # 1) ^ e')%Q.
Proof.
  intro H. rewrite inject_Z_mult, <- pow10_inject by lia.
  rewrite <- Qmult_assoc, <- pow10_plus.
  replace (e' - e + e) with e' by lia. reflexivity.
Qed.

Lemma to_Q_add_exact (a b : Decimal) :
  (to_Q (add_exact a b) == to_Q a + to_Q b)%Q.
Proof.
  unfold to_Q, add_exact. cbn [coef dexp].
  rewrite inject_Z_plus, Qmult_plus_distr_l.
  rewrite !to_Q_shift by lia. reflexivity.
Qed.

Lemma to_Q_neg (a : Decimal) : (to_Q (neg a) == - to_Q a)%Q.
Proof. unfold to_Q, neg. cbn [coef dexp]. rewrite inject_Z_opp. ring. Qed.

Lemma to_Q_sub_exact (a b : Decimal) :
  (to_Q (sub_exact a b) == to_Q a - to_Q b)%Q.
Proof. unfold sub_exact. rewrite to_Q_add_exact, to_Q_neg. reflexivity. Qed.

(** Within the precision of the context the operators are exact. *)
Lemma to_Q_add (a b : Decimal) :
  fits (add_exact a b) -> (to_Q (add a b) == to_Q a + to_Q b)%Q.
Proof. intro H. unfold add. rewrite fix_fits by exact H. apply to_Q_add_exact. Qed.

Lemma to_Q_sub (a b : Decimal) :
  fits (sub_exact a b) -> (to_Q (sub a b) == to_Q a - to_Q b)%Q.
Proof. intro H. unfold sub. rewrite fix_fits by exact H. apply to_Q_sub_exact. Qed.

Lemma to_Q_abs (a : Decimal) : fits a -> (to_Q (abs a) == Qabs (to_Q a))%Q.
Proof.
  intro H. unfold abs. rewrite fix_fits.
  - unfold to_Q. cbn [coef dexp]. rewrite Qabs_Qmult.
    rewrite (Qabs_pos ((10 # 1) ^ dexp a)) by (apply Qlt_le_weak, pow10_pos).
    destruct a as [c e]. cbn [coef dexp]. destruct c; reflexivity.
  - unfold fits in *. cbn [coef]. rewrite Z.abs_eq by lia. exact H.
Qed.

(** The exact comparison of decimals is the comparison of their values. *)
Lemma gtb_spec (a b : Decimal) : gtb a b = true <-> (to_Q b < to_Q a)%Q.
Proof.
  unfold gtb, compare.
  set (e := Z.min (dexp a) (dexp b)).
  assert (Ha : (to_Q a == inject_Z (coef a * 10 ^ (dexp a - e)) * (10 # 1) ^ e)%Q)
    by (unfold to_Q; rewrite to_Q_shift by lia; reflexivity).
  assert (Hb : (to_Q b == inject_Z (coef b * 10 ^ (dexp b - e)) * (10 # 1) ^ e)%Q)
    by (unfold to_Q; rewrite to_Q_shift by lia; reflexivity).
  rewrite Ha, Hb, Qmult_lt_r by apply pow10_pos.
  rewrite <- Zlt_Qlt.
  destruct (Z.compare_spec (coef a * 10 ^ (dexp a - e)) (coef b * 10 ^ (dexp b - e)));
    split; intro; try discriminate; try reflexivity; lia.
Qed.

Lemma Qfloor_unique (x : Q) (n : Z) :
  (inject_Z n <= x)%Q -> (x < inject_Z (n + 1))%Q -> Qfloor x = n.
Proof.
  intros Hlo Hhi.
  pose proof (Qfloor_le x) as H1. pose proof (Qlt_floor x) as H2.
  assert (Qfloor x < n + 1).
  { rewrite Zlt_Qlt. eapply Qle_lt_trans; eassumption. }
  assert (n < Qfloor x + 1).
  { rewrite Zlt_Qlt. eapply Qle_lt_trans; eassumption. }
  lia.
Qed.

Lemma Qfloor_plus_half (z : Z) : Qfloor (inject_Z z + (1 # 2)) = z.
Proof.
  apply Qfloor_unique.
  - rewrite <- (Qplus_0_r (inject_Z z)) at 1.
    apply Qplus_le_r. discriminate.
  - rewrite inject_Z_plus. apply Qplus_lt_r. reflexivity.
Qed.

(** Dropping [k] digits with a half added first: the quotient, plus one
    when the remainder is at least half of [10^k]. *)
Lemma div_half_up (a P : Z) :
  0 <= a -> 0 < P ->
  (2 * a + P) / (2 * P) = a / P + (if P <=? 2 * (a mod P) then 1 else 0).
Proof.
  intros Ha HP.
  pose proof (Z.div_mod a P ltac:(lia)) as Hdm.
  pose proof (Z.mod_pos_bound a P HP) as Hr.
  symmetry. apply Z.div_unique_pos with
    (r := if P <=? 2 * (a mod P) then 2 * (a mod P) - P else 2 * (a mod P) + P);
    destruct (Z.leb_spec P (2 * (a mod P))); nia.
Qed.

Lemma Qle_bool_to_Q (c e : Z) :
  Qle_bool 0 (inject_Z c * (10 # 1) ^ e) = (0 <=? c).
Proof.
  pose proof (pow10_pos e) as Hp.
  destruct (Z.leb_spec 0 c) as [H|H].
  - apply Qle_bool_iff. apply Qmult_le_0_compat.
    + change 0%Q with (inject_Z 0). rewrite <- Zle_Qle. exact H.
    + apply Qlt_le_weak. exact Hp.
  - destruct (Qle_bool 0 (inject_Z c * (10 # 1) ^ e)) eqn:E; [|reflexivity].
    apply Qle_bool_iff in E. exfalso.
    assert (Hneg : (inject_Z c * (10 # 1) ^ e < 0 * (10 # 1) ^ e)%Q).
    { apply Qmult_lt_r; [exact Hp|].
      change 0%Q with (inject_Z 0). rewrite <- Zlt_Qlt. exact H. }
    rewrite Qmult_0_l in Hneg.
    exact (Qlt_irrefl 0 (Qle_lt_trans _ _ _ E Hneg)).
Qed.

Lemma rescale_dexp (d : Decimal) (e : Z) : dexp (rescale_half_up d e) = e.
Proof.
  unfold rescale_half_up.
  destruct (coef d =? 0); [reflexivity|].
  destruct (e <=? dexp d); reflexivity.
Qed.

(** [_rescale] with [ROUND_HALF_UP] is the rounding of the specification. *)
Lemma rescale_half_up_spec (d : Decimal) (dps : Z) :
  (to_Q (rescale_half_up d (- dps)) == roundHalfAwayFromZero (to_Q d) dps)%Q.
Proof.
  destruct d as [c e]. unfold roundHalfAwayFromZero, to_Q.
  rewrite rescale_dexp. cbn [coef dexp].
  rewrite Qle_bool_to_Q.
  assert (Habs : (Qabs (inject_Z c * (10 # 1) ^ e) * (10 # 1) ^ dps
                  == inject_Z (Z.abs c) * (10 # 1) ^ (e + dps))%Q).
  { rewrite Qabs_Qmult, (Qabs_pos ((10 # 1) ^ e))
      by (apply Qlt_le_weak, pow10_pos).
    rewrite pow10_plus, Qmult_assoc.
    destruct c; reflexivity. }
  apply Qmult_comp; [|reflexivity].
  assert (Hn : Qfloor (Qabs (inject_Z c * (10 # 1) ^ e) * (10 # 1) ^ dps + (1 # 2))
               = Z.abs (coef (rescale_half_up (mkDec c e) (- dps)))).
  { rewrite Habs. clear Habs. unfold rescale_half_up. cbn [coef dexp].
    destruct (Z.eqb_spec c 0) as [->|Hc].
    { cbn [coef Z.abs]. rewrite Qmult_0_l. reflexivity. }
    destruct (Z.leb_spec (- dps) e) as [Hle|Hlt]; cbn [coef].
    - replace (e - - dps) with (e + dps) by lia.
      rewrite pow10_inject, <- inject_Z_mult by lia.
      rewrite Qfloor_plus_half, Z.abs_mul.
      rewrite (Z.abs_eq (10 ^ (e + dps))) by (apply Z.pow_nonneg; lia).
      reflexivity.
    - set (k := - dps - e).
      assert (HP : 0 < 10 ^ k) by (apply Z.pow_pos_nonneg; lia).
      assert (Hq : (inject_Z (Z.abs c) * (10 # 1) ^ (e + dps) + (1 # 2)
                    == inject_Z (2 * Z.abs c + 10 ^ k) / inject_Z (2 * 10 ^ k))%Q).
      { replace (e + dps) with (- k) by lia.
        rewrite Qpower_opp, pow10_inject by lia.
        rewrite inject_Z_plus, !inject_Z_mult.
        assert (~ inject_Z (10 ^ k) == 0)%Q.
        { intro H0. apply (Qlt_irrefl 0). rewrite <- H0 at 2.
          change 0%Q with (inject_Z 0). rewrite <- Zlt_Qlt. exact HP. }
        field. exact H. }
      rewrite Hq, <- Zdiv_Qdiv, div_half_up by lia.
      rewrite Z.abs_mul. fold k.
      set (q' := if 10 ^ k <=? 2 * (Z.abs c mod 10 ^ k)
                 then Z.abs c / 10 ^ k + 1 else Z.abs c / 10 ^ k).
      assert (0 <= q').
      { pose proof (Z.div_pos (Z.abs c) (10 ^ k) ltac:(lia) HP).
        unfold q'. destruct (10 ^ k <=? 2 * (Z.abs c mod 10 ^ k)); lia. }
      rewrite (Z.abs_eq q') by assumption.
      replace (Z.abs (Z.sgn c)) with 1 by lia.
      unfold q'. destruct (10 ^ k <=? 2 * (Z.abs c mod 10 ^ k)); lia. }
  rewrite !Hn.
  assert (Hs : forall r, coef (rescale_half_up (mkDec c e) (- dps)) = r ->
               (0 <= c -> 0 <= r) /\ (c < 0 -> r <= 0)).
  { intros r <-. unfold rescale_half_up. cbn [coef dexp].
    destruct (Z.eqb_spec c 0); [cbn; lia|].
    destruct (Z.leb_spec (- dps) e); cbn [coef].
    - assert (0 < 10 ^ (e - - dps)) by (apply Z.pow_pos_nonneg; lia). nia.
    - set (k := - dps - e).
      assert (HP : 0 < 10 ^ k) by (apply Z.pow_pos_nonneg; lia).
      pose proof (Z.div_pos (Z.abs c) (10 ^ k) ltac:(lia) HP).
      destruct (10 ^ k <=? 2 * (Z.abs c mod 10 ^ k)); nia. }
  destruct (Hs _ eq_refl) as [Hpos Hneg].
  destruct (Z.leb_spec 0 c).
  - rewrite Z.abs_eq by auto. reflexivity.
  - rewrite <- inject_Z_opp, Z.abs_neq by (apply Hneg; lia).
    rewrite Z.opp_involutive. reflexivity.
Qed.

(** What a successful [quantize] returns. *)
Lemma quantize_ok (d r : Decimal) (dps : Z) :
  quantize d dps = Ok r -> r = rescale_half_up d (- dps) /\ fits r.
Proof.
  unfold quantize, rescale_half_up, fits.
  destruct (Z.eqb_spec (coef d) 0) as [H0|H0].
  - intros [= <-]. split; [reflexivity|]. cbn [coef Z.abs].
    apply Z.pow_pos_nonneg; unfold prec; lia.
  - destruct (prec <? adjusted d - - dps + 1); [discriminate|].
    fold (rescale_half_up d (- dps)).
    assert (Hr : rescale_half_up d (- dps) =
      (if - dps <=? dexp d
       then mkDec (coef d * 10 ^ (dexp d - - dps)) (- dps)
       else mkDec (Z.sgn (coef d) *
              (if 10 ^ (- dps - dexp d) <=? 2 * (Z.abs (coef d) mod 10 ^ (- dps - dexp d))
               then Z.abs (coef d) / 10 ^ (- dps - dexp d) + 1
               else Z.abs (coef d) / 10 ^ (- dps - dexp d))) (- dps))).
    { unfold rescale_half_up. destruct (Z.eqb_spec (coef d) 0); [lia|reflexivity]. }
    rewrite <- Hr.
    destruct (Z.ltb_spec prec (ndigits (Z.abs (coef (rescale_half_up d (- dps))))))
      as [|Hle]; [discriminate|].
    intros [= <-]. split; [reflexivity|].
    apply ndigits_le in Hle; [exact Hle|lia|unfold prec; lia].
Qed.

Lemma quantize_dexp (d r : Decimal) (dps : Z) :
  quantize d dps = Ok r -> dexp r = - dps.
Proof.
  intro H. apply quantize_ok in H as [-> _]. apply rescale_dexp.
Qed.

(** A successful [quantize] rounds half away from zero to [dps] places. *)
Lemma quantize_spec (d r : Decimal) (dps : Z) :
  quantize d dps = Ok r ->
  (to_Q r == roundHalfAwayFromZero (to_Q d) dps)%Q.
Proof.
  intro H. apply quantize_ok in H as [-> _]. apply rescale_half_up_spec.
Qed.

End DecimalFacts.

(* ------------------------------------------------------------------ *)
(** * Facts about tables *)

Section ListFacts.

Lemma bind_ok {A B : Type} (r : Result A) (k : A -> Result B) (b : B) :
  bind r k = Ok b -> exists a, r = Ok a /\ k a = Ok b.
Proof. destruct r as [a|e]; cbn; [eauto|discriminate]. Qed.

Lemma mapM_ok {A B : Type} (f : A -> Result B) (l : list A) (l' : list B) :
  mapM f l = Ok l' -> Forall2 (fun a b => f a = Ok b) l l'.
Proof.
  revert l'. induction l as [|a l IH]; intros l' H; cbn in H.
  - injection H as <-. constructor.
  - apply bind_ok in H as (b & Hb & H).
    apply bind_ok in H as (bs & Hbs & H).
    injection H as <-. constructor; auto.
Qed.

Lemma Forall2_In_r {A B : Type} (P : A -> B -> Prop) (l : list A) (l' : list B) (b : B) :
  Forall2 P l l' -> In b l' -> exists a, In a l /\ P a b.
Proof.
  induction 1 as [|x y l l' Hxy _ IH]; intros Hin; [contradiction|].
  destruct Hin as [->|Hin]; [exists x; cbn; auto|].
  destruct (IH Hin) as (a & Ha & HP). exists a. cbn. auto.
Qed.

Context {R : Type} (cmp : R -> R -> comparison).

Lemma insert_perm (x : R) (l : list R) : Permutation (insert cmp x l) (x :: l).
Proof.
  induction l as [|y l IH]; cbn; [reflexivity|].
  destruct (leb_by cmp x y); [reflexivity|].
  rewrite IH. apply perm_swap.
Qed.

Lemma sort_values_perm (l : list R) : Permutation (sort_values cmp l) l.
Proof.
  induction l as [|x l IH]; cbn; [reflexivity|].
  rewrite insert_perm. constructor. exact IH.
Qed.

Lemma sort_values_In (l : list R) (x : R) : In x (sort_values cmp l) <-> In x l.
Proof.
  split; apply Permutation_in;
    [apply sort_values_perm | symmetry; apply sort_values_perm].
Qed.

(** With a comparison that never says [Gt] both ways, the result of the
    sort is in order. *)
Hypothesis cmp_total : forall a b, cmp a b = Gt -> cmp b a <> Gt.

Lemma insert_sorted (x : R) (l : list R) :
  Sorted (fun a b => leb_by cmp a b = true) l ->
  Sorted (fun a b => leb_by cmp a b = true) (insert cmp x l).
Proof.
  induction 1 as [|y l Hs IH Hhd]; cbn.
  - repeat constructor.
  - destruct (leb_by cmp x y) eqn:E.
    + constructor; [constructor; assumption|]. constructor. exact E.
    + constructor; [exact IH|].
      assert (Hyx : leb_by cmp y x = true).
      { unfold leb_by in *. destruct (cmp x y) eqn:Exy; try discriminate.
        specialize (cmp_total _ _ Exy).
        destruct (cmp y x); [reflexivity|reflexivity|congruence]. }
      destruct Hhd as [|z l Hyz]; cbn.
      * constructor. exact Hyx.
      * destruct (leb_by cmp x z); constructor; assumption.
Qed.

Lemma sort_values_sorted (l : list R) :
  Sorted (fun a b => leb_by cmp a b = true) (sort_values cmp l).
Proof.
  induction l as [|x l IH]; cbn; [constructor|].
  apply insert_sorted. exact IH.
Qed.

End ListFacts.

Section ShiftFacts.

Context {R K V : Type} (key_eqb : K -> K -> bool).
Context (key : R -> option K) (val : R -> option V).

Lemma group_shift_from_length (rows before : list R) :
  List.length (group_shift_from key_eqb key val before rows) = List.length rows.
Proof.
  revert before. induction rows as [|r rows IH]; intro bef; cbn; [reflexivity|].
  rewrite IH. reflexivity.
Qed.

(** Position by position: the row after [pre] is paired with the value
    of the nearest earlier row of its group. *)
Lemma map2_group_shift {C : Type} (f : R -> option V -> C) (rows before : list R)
    (out1 : list C) (c : C) (out2 : list C) :
  Compute.map2 f rows (group_shift_from key_eqb key val before rows) = out1 ++ c :: out2 ->
  exists pre r post,
    rows = pre ++ r :: post /\
    List.length pre = List.length out1 /\
    out1 = Compute.map2 f pre (group_shift_from key_eqb key val before pre) /\
    c = f r (shifted key_eqb key val r (rev pre ++ before)).
Proof.
  revert before out1. induction rows as [|x rows IH]; intros bef out1 H.
  - cbn in H. destruct out1; discriminate.
  - cbn in H. destruct out1 as [|c1 out1].
    + cbn in H. injection H as Hc _.
      exists [], x, rows. cbn. repeat split; auto.
    + cbn in H. injection H as Hc1 H.
      destruct (IH _ _ H) as (pre & r & post & -> & Hlen & Hout & Hc).
      exists (x :: pre), r, post. cbn.
      repeat split.
      * f_equal. exact Hlen.
      * f_equal; [auto|exact Hout].
      * rewrite <- app_assoc. exact Hc.
Qed.

Lemma find_rev_last (p : R -> bool) (pre : list R) (x : R) :
  find p (rev pre) = Some x <->
  exists pre1 pre2, pre = pre1 ++ x :: pre2 /\ p x = true /\
                    forall y, In y pre2 -> p y = false.
Proof.
  induction pre as [|a pre IH] using rev_ind.
  - cbn. split; [discriminate|].
    intros (pre1 & pre2 & H & _). destruct pre1; discriminate.
  - rewrite rev_app_distr. cbn [rev app find].
    destruct (p a) eqn:Ea.
    + split.
      * intros [= <-]. exists pre, []. repeat split; auto. intros y [].
      * intros (pre1 & pre2 & H & Hx & Hno).
        destruct pre2 as [|b pre2' _] using rev_ind.
        -- apply app_inj_tail in H as [_ ->]. reflexivity.
        -- rewrite app_comm_cons, app_assoc in H.
           apply app_inj_tail in H as [_ <-].
           rewrite Hno in Ea; [discriminate|].
           apply in_or_app. right. left. reflexivity.
    + rewrite IH. split.
      * intros (pre1 & pre2 & -> & Hx & Hno).
        exists pre1, (pre2 ++ [a]). rewrite <- app_assoc. repeat split; auto.
        intros y Hy. apply in_app_or in Hy as [Hy|[<-|[]]]; auto.
      * intros (pre1 & pre2 & H & Hx & Hno).
        destruct pre2 as [|b pre2' _] using rev_ind.
        -- apply app_inj_tail in H as [_ ->]. congruence.
        -- rewrite app_comm_cons, app_assoc in H.
           apply app_inj_tail in H as [-> <-].
           exists pre1, pre2'. repeat split; auto.
           intros y Hy. apply Hno. apply in_or_app. left. exact Hy.
Qed.

Lemma map2_length {A B C : Type} (f : A -> B -> C) (l : list A) (l' : list B) :
  List.length l' = List.length l -> List.length (Compute.map2 f l l') = List.length l.
Proof.
  revert l'. induction l as [|a l IH]; intros [|b l'] H; cbn in *;
    try discriminate; auto.
Qed.

(** The entry of a mask at the position after [pre]. *)
Lemma map2_group_shift_at {C : Type} (f : R -> option V -> C) (d : C)
    (pre : list R) (r : R) (post bef : list R) :
  nth (List.length pre)
      (Compute.map2 f (pre ++ r :: post)
         (group_shift_from key_eqb key val bef (pre ++ r :: post))) d
  = f r (shifted key_eqb key val r (rev pre ++ bef)).
Proof.
  revert bef. induction pre as [|x pre IH]; intro bef'; cbn.
  - reflexivity.
  - rewrite IH, <- app_assoc. reflexivity.
Qed.

(** [shift(1)] gives a row the value of the nearest earlier row of its
    group. *)
Lemma shifted_some (r : R) (pre : list R) (v : V) :
  shifted key_eqb key val r (rev pre) = Some v <->
  exists k pre1 p pre2,
    key r = Some k /\ pre = pre1 ++ p :: pre2 /\
    grouped_with key_eqb key k p = true /\
    (forall y, In y pre2 -> grouped_with key_eqb key k y = false) /\
    val p = Some v.
Proof.
  unfold shifted, previous_in_group. split.
  - destruct (key r) as [k|]; [|discriminate].
    destruct (find (grouped_with key_eqb key k) (rev pre)) as [p|] eqn:E; [|discriminate].
    intro Hv. apply find_rev_last in E as (pre1 & pre2 & -> & Hp & Hno).
    exists k, pre1, p, pre2. auto.
  - intros (k & pre1 & p & pre2 & -> & -> & Hp & Hno & Hv).
    assert (E : find (grouped_with key_eqb key k) (rev (pre1 ++ p :: pre2)) = Some p)
      by (apply find_rev_last; exists pre1, pre2; auto).
    rewrite E. exact Hv.
Qed.

Lemma select_map2_In {B : Type} (f : R -> B -> bool) (l : list R) (l' : list B) (x : R) :
  In x (Anomalies.select (Compute.map2 f l l') l) -> exists b, f x b = true.
Proof.
  revert l'. induction l as [|a l IH]; intros [|b l'] H; cbn in H; try contradiction.
  destruct (f a b) eqn:E.
  - destruct H as [<-|H]; [exists b; exact E|eauto].
  - eauto.
Qed.

End ShiftFacts.

(* ------------------------------------------------------------------ *)
(** * Facts about the ledger builder *)

#[global] Instance roundHalfAwayFromZero_wd :
  Proper (Qeq ==> eq ==> Qeq) roundHalfAwayFromZero.
Proof.
  intros x y Hxy p q <-. unfold roundHalfAwayFromZero.
  assert (Hb : Qle_bool 0 x = Qle_bool 0 y).
  { destruct (Qle_bool 0 x) eqn:Ex, (Qle_bool 0 y) eqn:Ey; try reflexivity.
    - apply Qle_bool_iff in Ex. rewrite Hxy in Ex.
      apply Qle_bool_iff in Ex. congruence.
    - apply Qle_bool_iff in Ey. rewrite <- Hxy in Ey.
      apply Qle_bool_iff in Ey. congruence. }
  rewrite Hb.
  assert (Hf : Qfloor (Qabs x * (10 # 1) ^ p + (1 # 2))
               = Qfloor (Qabs y * (10 # 1) ^ p + (1 # 2))).
  { apply Qfloor_comp. rewrite Hxy. reflexivity. }
  rewrite Hf. reflexivity.
Qed.

Section LedgerFacts.

Import Compute.

Lemma to_Q_or_zero (x : option Decimal) :
  (Dec.to_Q (or_zero x) == value_or_zero x)%Q.
Proof.
  destruct x as [d|]; cbn; [|reflexivity].
  unfold Dec.truthy. destruct (Z.eqb_spec (coef d) 0) as [H|H]; cbn; [|reflexivity].
  unfold Dec.to_Q, Dec.zero. rewrite H. cbn [coef dexp].
  change (inject_Z 0) with 0%Q. rewrite !Qmult_0_l. reflexivity.
Qed.

Lemma fits_within_precision (d : Decimal) :
  Dec.fits d <-> within_precision (Dec.to_Q d) (- dexp d).
Proof.
  unfold Dec.fits, within_precision, Dec.to_Q.
  assert (H : (Qabs (inject_Z (coef d) * (10 # 1) ^ dexp d) * (10 # 1) ^ (- dexp d)
               == inject_Z (Z.abs (coef d)))%Q).
  { rewrite Qabs_Qmult, (Qabs_pos ((10 # 1) ^ dexp d))
      by (apply Qlt_le_weak, pow10_pos).
    rewrite <- Qmult_assoc, <- pow10_plus, Z.add_opp_diag_r.
    rewrite Qmult_1_r. destruct (coef d); reflexivity. }
  rewrite H, pow10_inject by (unfold Dec.prec; lia).
  rewrite <- Zlt_Qlt. reflexivity.
Qed.

Lemma quantize_opt_ok (x y : option Decimal) (places : Z) :
  quantize_opt x places = Ok y ->
  match x, y with
  | Some d, Some q => Dec.quantize d places = Ok q
  | None, None => True
  | _, _ => False
  end.
Proof.
  destruct x as [d|]; cbn.
  - destruct (Dec.quantize d places); cbn; [|discriminate].
    intros [= <-]. reflexivity.
  - intros [= <-]. exact I.
Qed.

(** What one pass of the row loop leaves in its lists. *)
Lemma compute_row_ok (cfg : Config) (ev : Event) (c : Computed) :
  compute_row cfg ev = Ok c ->
  exists new_bal_q,
    c_event c = ev /\
    quantize_opt (expected_balance ev) (dps cfg ev) = Ok (c_expected c) /\
    quantize_opt (newBalance ev) (dps cfg ev) = Ok new_bal_q /\
    quantize_opt (option_map (fun _ => or_zero (oldBalance ev)) (oldBalance ev))
      (dps cfg ev) = Ok (c_oldBalanceDec c) /\
    c_mismatch c = mismatch_of cfg (c_expected c) new_bal_q /\
    c_newBalanceFilled c = filled (c_expected c) new_bal_q.
Proof.
  unfold compute_row, to_dec. intro H.
  apply bind_ok in H as (e & He & H).
  apply bind_ok in H as (n & Hn & H).
  apply bind_ok in H as (o & Ho & H).
  apply bind_ok in H as (s & _ & H).
  injection H as <-. cbn. exists n. repeat split; assumption.
Qed.

Lemma map2_In {A B C : Type} (f : A -> B -> C) (l : list A) (l' : list B) (c : C) :
  In c (map2 f l l') -> exists a b, In a l /\ c = f a b.
Proof.
  revert l'. induction l as [|a l IH]; intros [|b l'] H; cbn in H; try contradiction.
  destruct H as [<-|H]; [exists a, b; cbn; auto|].
  destruct (IH _ H) as (a' & b' & Ha & Hc). exists a', b'. cbn. auto.
Qed.

(** The rows of a ledger come out of the row loop, sorted and then
    paired with the filled balance of the row before them. *)
Lemma build_ledger_ok (cfg : Config) (events : list Event) (fr : Frame LedgerEntry) :
  build_ledger cfg events = Ok fr ->
  rows fr = [] \/
  exists computed,
    mapM (compute_row cfg) (filter is_balance_sync events) = Ok computed /\
    rows fr =
      map2 (finish_row cfg) (sort_values compare_rows computed)
        (group_shift String.eqb (fun r => userId (c_event r)) c_newBalanceFilled
           (sort_values compare_rows computed)).
Proof.
  unfold build_ledger. destruct events as [|ev events].
  { cbn. intros [= <-]. left. reflexivity. }
  cbn [DataFrame empty columns rows event_columns].
  destruct (filter is_balance_sync (ev :: events)) as [|t tx] eqn:Etx.
  { intros [= <-]. left. reflexivity. }
  intro H. apply bind_ok in H as (computed & Hc & H).
  injection H as <-. right. exists computed. split; [exact Hc|reflexivity].
Qed.

Lemma build_ledger_entry (cfg : Config) (events : list Event)
    (fr : Frame LedgerEntry) (e : LedgerEntry) :
  build_ledger cfg events = Ok fr -> In e (rows fr) ->
  exists c prev,
    compute_row cfg (event e) = Ok c /\ e = finish_row cfg c prev /\
    In (event e) events.
Proof.
  intros H Hin. apply build_ledger_ok in H as [H|(computed & Hc & H)].
  { rewrite H in Hin. contradiction. }
  rewrite H in Hin. apply map2_In in Hin as (c & prev & Hin & ->).
  apply sort_values_In in Hin.
  apply mapM_ok in Hc.
  destruct (Forall2_In_r _ _ _ _ Hc Hin) as (ev & Hev & Hrow).
  exists c, prev. cbn [event finish_row].
  pose proof (compute_row_ok _ _ _ Hrow) as (_ & -> & _).
  apply filter_In in Hev as [Hev _]. auto.
Qed.

End LedgerFacts.

(* ------------------------------------------------------------------ *)
(** * The ledger builder: expected balance and balance mismatch *)

Section ExpectedBalance.

Import Compute.




End ExpectedBalance.

Section BalanceMismatch.

Import Compute.

#[global] Instance within_precision_wd :
  Proper (Qeq ==> eq ==> iff) within_precision.
Proof.
  intros x y Hxy p q <-. unfold within_precision. rewrite Hxy. reflexivity.
Qed.

(** The comparison [abs(a - b) > tolerance] on two quantized decimals is
    the comparison of the exact difference when that difference fits. *)
Lemma gtb_abs_sub (a b tol : Decimal) :
  within_precision (Dec.to_Q a - Dec.to_Q b) (- Z.min (dexp a) (dexp b)) ->
  (Dec.gtb (Dec.abs (Dec.sub a b)) tol = true <->
   (Dec.to_Q tol < Qabs (Dec.to_Q a - Dec.to_Q b))%Q).
Proof.
  intro Hp.
  assert (Hfit : Dec.fits (Dec.sub_exact a b)).
  { apply fits_within_precision. rewrite to_Q_sub_exact. exact Hp. }
  rewrite gtb_spec. unfold Dec.sub. rewrite (fix_fits _ Hfit).
  rewrite to_Q_abs by exact Hfit. rewrite to_Q_sub_exact. reflexivity.
Qed.

(** C2, as amended.  For every entry of a ledger: [balanceMismatch] is
    false when the rounded expected balance or the reported new balance
    is unknown; and when the difference of the two rounded values needs
    no more than 28 digits, [balanceMismatch] is true exactly when both
    are known and the absolute difference is strictly greater than the
    tolerance, so a difference equal to the tolerance is no mismatch. *)
Theorem balance_mismatch_iff (cfg : Config) (events : list Event)
    (fr : Frame LedgerEntry) (e : LedgerEntry) :
  build_ledger cfg events = Ok fr -> In e (rows fr) ->
  (expected_value e = None \/ rounded_actual cfg e = None ->
   balanceMismatch e = false) /\
  ((forall x a, expected_value e = Some x -> rounded_actual cfg e = Some a ->
                within_precision (x - a) (dps cfg (event e))) ->
   (balanceMismatch e = true <->
    exists x a, expected_value e = Some x /\ rounded_actual cfg e = Some a /\
                (Dec.to_Q (tolerance cfg) < Qabs (x - a))%Q) /\
   (forall x a, expected_value e = Some x -> rounded_actual cfg e = Some a ->
                (Qabs (x - a) == Dec.to_Q (tolerance cfg))%Q ->
                balanceMismatch e = false)).
Proof.
  intros Hb Hin.
  destruct (build_ledger_entry _ _ _ _ Hb Hin) as (c & prev & Hrow & He & _).
  apply compute_row_ok in Hrow as (n & _ & Hexp & Hnew & _ & Hmis & _).
  assert (Hm : balanceMismatch e = mismatch_of cfg (expectedNewBalance e) n)
    by (rewrite He; exact Hmis).
  assert (Hx : quantize_opt (expected_balance (event e)) (dps cfg (event e))
               = Ok (expectedNewBalance e)) by (rewrite He at 3; exact Hexp).
  clear Hexp Hmis He c prev.
  apply quantize_opt_ok in Hnew, Hx.
  unfold expected_value, rounded_actual, mismatch_of in *.
  destruct (expectedNewBalance e) as [xd|];
    [|split; [intros _; exact Hm|intros _; split;
        [rewrite Hm; split; [discriminate|intros (x & a & H & _); discriminate]
        |intros x a H; discriminate]]].
  destruct (newBalance (event e)) as [ad|]; destruct n as [nd|]; try contradiction;
    [|split; [intros _; exact Hm|intros _; split;
        [rewrite Hm; split; [discriminate|intros (x & a & _ & H & _); discriminate]
        |intros x a _ H; discriminate]]].
  cbn [option_map] in *.
  destruct (expected_balance (event e)) as [ed|]; [|contradiction].
  pose proof (quantize_dexp _ _ _ Hx) as Hxe.
  pose proof (quantize_dexp _ _ _ Hnew) as Hne.
  pose proof (quantize_spec _ _ _ Hnew) as Hnq.
  split; [intros [H|H]; discriminate|].
  intro Hp. specialize (Hp _ _ eq_refl eq_refl).
  assert (Hiff : Dec.gtb (Dec.abs (Dec.sub xd nd)) (tolerance cfg) = true <->
                 (Dec.to_Q (tolerance cfg) < Qabs (Dec.to_Q xd - Dec.to_Q nd))%Q).
  { apply gtb_abs_sub. rewrite Hxe, Hne, Z.min_id, Z.opp_involutive, Hnq. exact Hp. }
  rewrite Hm. split.
  - rewrite Hiff. split.
    + intro H. eexists _, _. repeat split. rewrite <- Hnq. exact H.
    + intros (x & a & [= <-] & [= <-] & H). rewrite Hnq. exact H.
  - intros x a [= <-] [= <-] Htie.
    apply not_true_is_false. intro E.
    apply Hiff in E. rewrite Hnq, Htie in E.
    exfalso. exact (Qlt_irrefl _ E).
Qed.

Lemma balance_mismatch_iff_witness :
  build_ledger default_config [Samples.credit_100]
    = Ok (mkFrame ledger_columns [Samples.entry_100]) /\
  In Samples.entry_100 [Samples.entry_100] /\
  (forall x a, expected_value Samples.entry_100 = Some x ->
               rounded_actual default_config Samples.entry_100 = Some a ->
               within_precision (x - a) (dps default_config (event Samples.entry_100))) /\
  (balanceMismatch Samples.entry_100 = true <->
   exists x a, expected_value Samples.entry_100 = Some x /\
               rounded_actual default_config Samples.entry_100 = Some a /\
               (Dec.to_Q (tolerance default_config) < Qabs (x - a))%Q).
Proof.
  assert (Hb : build_ledger default_config [Samples.credit_100]
               = Ok (mkFrame ledger_columns [Samples.entry_100]))
    by (vm_compute; reflexivity).
  assert (Hin : In Samples.entry_100
                  (rows (mkFrame ledger_columns [Samples.entry_100])))
    by (left; reflexivity).
  assert (Hp : forall x a, expected_value Samples.entry_100 = Some x ->
               rounded_actual default_config Samples.entry_100 = Some a ->
               within_precision (x - a) (dps default_config (event Samples.entry_100))).
  { intros x a [= <-] [= <-]. vm_compute. reflexivity. }
  split; [exact Hb|]. split; [exact Hin|]. split; [exact Hp|].
  destruct (balance_mismatch_iff _ _ _ _ Hb Hin) as [_ H].
  destruct (H Hp) as [Hiff _]. exact Hiff.
Defined.

(** C2 fails as worded when the difference has 29 digits: with
    expected 50000000000000000000000000.01 and actual
    -50000000000000000000000000.00 the code rounds the difference to
    1e+26, which is not above a tolerance of 1e+26, while the exact
    difference is. *)
Lemma balance_mismatch_counterexample :
  ~ balance_mismatch_as_stated Samples.huge_tolerance [Samples.credit_huge].
Proof.
  intro H.
  specialize (H (mkFrame ledger_columns [Samples.entry_huge]) Samples.entry_huge).
  destruct H as [_ H]; [vm_compute; reflexivity|left; reflexivity|].
  assert (Hm : balanceMismatch Samples.entry_huge = true).
  { apply H. eexists _, _. split; [reflexivity|]. split; [reflexivity|].
    vm_compute. reflexivity. }
  discriminate Hm.
Qed.

End BalanceMismatch.

(* ------------------------------------------------------------------ *)
(** * The ledger builder: continuity *)

Section Continuity.

Import Compute.

Lemma cont_break_spec (cfg : Config) (ob pf : option Decimal)
    (obq pfq : option Q) (pl1 pl2 : Z) :
  denotes ob obq pl1 -> denotes pf pfq pl2 ->
  (obq = None \/ pfq = None -> cont_break cfg ob pf = false) /\
  ((forall x y, obq = Some x -> pfq = Some y ->
                within_precision (x - y) (Z.max pl1 pl2)) ->
   (cont_break cfg ob pf = true <->
    exists x y, obq = Some x /\ pfq = Some y /\
                (Dec.to_Q (tolerance cfg) < Qabs (x - y))%Q)).
Proof.
  unfold denotes, cont_break, to_dec.
  destruct ob as [a|], obq as [x|]; try contradiction;
  destruct pf as [b|], pfq as [y|]; try contradiction; intros Ha Hb;
    try (split; [reflexivity|intros _; split;
           [discriminate|intros (? & ? & H1 & H2 & _); discriminate]]).
  destruct Ha as [Ha Hae], Hb as [Hb Hbe].
  split; [intros [H|H]; discriminate|].
  intro Hp. specialize (Hp _ _ eq_refl eq_refl).
  assert (Hiff : Dec.gtb (Dec.abs (Dec.sub a b)) (tolerance cfg) = true <->
                 (Dec.to_Q (tolerance cfg) < Qabs (Dec.to_Q a - Dec.to_Q b))%Q).
  { apply gtb_abs_sub. rewrite Hae, Hbe, Ha, Hb.
    replace (- Z.min (- pl1) (- pl2)) with (Z.max pl1 pl2) by lia. exact Hp. }
  rewrite Hiff. split.
  - intro H. exists x, y. repeat split. rewrite <- Ha, <- Hb. exact H.
  - intros (x' & y' & [= <-] & [= <-] & H). rewrite Ha, Hb. exact H.
Qed.

Lemma computed_old_denotes (cfg : Config) (c : Computed) (prev : option Decimal) :
  compute_row cfg (c_event c) = Ok c ->
  denotes (c_oldBalanceDec c) (rounded_old cfg (finish_row cfg c prev))
    (dps cfg (c_event c)).
Proof.
  intro H. apply compute_row_ok in H as (n & _ & _ & _ & Hold & _).
  apply quantize_opt_ok in Hold.
  unfold denotes, rounded_old. cbn [event finish_row].
  destruct (oldBalance (c_event c)) as [od|]; cbn [option_map] in *;
    destruct (c_oldBalanceDec c) as [q|]; try contradiction; [|exact I].
  split; [|eapply quantize_dexp; exact Hold].
  rewrite (quantize_spec _ _ _ Hold).
  apply roundHalfAwayFromZero_wd; [|reflexivity].
  apply (to_Q_or_zero (Some od)).
Qed.

Lemma computed_filled_denotes (cfg : Config) (c : Computed) (prev : option Decimal) :
  compute_row cfg (c_event c) = Ok c ->
  denotes (c_newBalanceFilled c) (filled_new cfg (finish_row cfg c prev))
    (dps cfg (c_event c)).
Proof.
  intro H. apply compute_row_ok in H as (n & _ & Hexp & Hnew & _ & _ & Hfill).
  apply quantize_opt_ok in Hexp, Hnew.
  unfold denotes, filled_new, rounded_actual, expected_value.
  cbn [event finish_row expectedNewBalance]. rewrite Hfill. unfold filled.
  destruct (newBalance (c_event c)) as [nd|]; cbn [option_map];
    destruct n as [nq|]; try contradiction.
  - split; [eapply quantize_spec|eapply quantize_dexp]; exact Hnew.
  - destruct (expected_balance (c_event c)) as [ed|];
      destruct (c_expected c) as [xq|]; try contradiction; cbn [option_map]; [|exact I].
    split; [reflexivity|eapply quantize_dexp; exact Hexp].
Qed.

Lemma map2_finish_Forall2 (cfg : Config) (l : list Computed) (l' : list (option Decimal)) :
  List.length l' = List.length l ->
  Forall2 (fun p c => exists prev, p = finish_row cfg c prev) (map2 (finish_row cfg) l l') l.
Proof.
  revert l'. induction l as [|c l IH]; intros [|b l'] H; cbn in *; try discriminate.
  - constructor.
  - constructor; [exists b; reflexivity|]. apply IH. lia.
Qed.

Lemma find_all_false {A : Type} (f : A -> bool) (l : list A) :
  (forall y, In y l -> f y = false) -> find f l = None.
Proof.
  induction l as [|a l IH]; cbn; intro H; [reflexivity|].
  rewrite (H a) by auto. apply IH. auto.
Qed.

Lemma compare_cell_antisym {A : Type} (cmp : A -> A -> comparison) :
  (forall x y, cmp x y = CompOpp (cmp y x)) ->
  forall a b, compare_cell cmp a b = CompOpp (compare_cell cmp b a).
Proof. intros H [x|] [y|]; cbn; auto. Qed.

Lemma lex_antisym (c1 c2 d1 d2 : comparison) :
  c1 = CompOpp d1 -> c2 = CompOpp d2 -> lex c1 c2 = CompOpp (lex d1 d2).
Proof. intros -> ->. destruct d1; reflexivity. Qed.

Lemma compare_events_antisym (a b : Event) :
  compare_events a b = CompOpp (compare_events b a).
Proof.
  unfold compare_events.
  repeat apply lex_antisym; apply compare_cell_antisym;
    try apply String.compare_antisym.
  intros x y. rewrite Z.compare_antisym. reflexivity.
Qed.

Lemma compare_rows_total (a b : Computed) :
  compare_rows a b = Gt -> compare_rows b a <> Gt.
Proof.
  unfold compare_rows. rewrite (compare_events_antisym (c_event b)).
  intros ->. discriminate.
Qed.

Lemma map2_finish_sorted (cfg : Config) (l : list Computed) (l' : list (option Decimal)) :
  List.length l' = List.length l ->
  Sorted (fun a b => leb_by compare_rows a b = true) l ->
  Sorted in_ledger_order (map2 (finish_row cfg) l l').
Proof.
  intros Hlen Hs. revert l' Hlen.
  induction Hs as [|c l Hs IH Hhd]; intros [|b l'] Hlen; cbn in *;
    try discriminate; try constructor.
  - apply IH. lia.
  - destruct Hhd as [|c' l Hcc']; destruct l' as [|b' l']; cbn in *;
      try discriminate; constructor.
    exact Hcc'.
Qed.

(** The rows before and at a position of the ledger, with the rows of
    the row loop they come from. *)
Lemma build_ledger_position (cfg : Config) (events : list Event)
    (fr : Frame LedgerEntry) (pre : list LedgerEntry) (e : LedgerEntry)
    (post : list LedgerEntry) :
  build_ledger cfg events = Ok fr -> rows fr = pre ++ e :: post ->
  exists cpre c,
    Forall2 (fun p cp => exists prev, p = finish_row cfg cp prev) pre cpre /\
    (forall x, In x (c :: cpre) -> compute_row cfg (c_event x) = Ok x) /\
    e = finish_row cfg c
          (shifted String.eqb (fun r => userId (c_event r)) c_newBalanceFilled
             c (rev cpre)).
Proof.
  intros Hb Hrows. apply build_ledger_ok in Hb as [H|(computed & Hc & H)].
  { rewrite H in Hrows. destruct pre; discriminate. }
  rewrite Hrows in H. symmetry in H. unfold group_shift in H.
  apply map2_group_shift in H as (cpre & c & cpost & Hs & _ & -> & ->).
  exists cpre, c. rewrite app_nil_r. repeat split.
  - apply map2_finish_Forall2. apply group_shift_from_length.
  - intros x Hx.
    assert (Hin : In x (sort_values compare_rows computed)).
    { rewrite Hs. apply in_or_app. destruct Hx as [<-|Hx]; [right; left|left]; auto. }
    apply sort_values_In in Hin. apply mapM_ok in Hc.
    destruct (Forall2_In_r _ _ _ _ Hc Hin) as (ev & _ & Hrow).
    pose proof (compute_row_ok _ _ _ Hrow) as (_ & -> & _). exact Hrow.
Qed.

Lemma build_ledger_sorted (cfg : Config) (events : list Event) (fr : Frame LedgerEntry) :
  build_ledger cfg events = Ok fr -> Sorted in_ledger_order (rows fr).
Proof.
  intro Hb. apply build_ledger_ok in Hb as [->|(computed & _ & ->)]; [constructor|].
  apply map2_finish_sorted; [apply group_shift_from_length|].
  apply sort_values_sorted. apply compare_rows_total.
Qed.

(** C3, as amended.  The rows of a ledger are in the order of
    (userId, timestamp, id, messageId).  At every position: an entry
    with no earlier entry of its user, or with no user at all, has
    [continuityBreak] false; for an entry [e] whose nearest earlier entry
    of the same user is [p], [continuityBreak] is false when the rounded
    old balance of [e] or the filled new balance of [p] is unknown, and,
    when their difference needs no more than 28 digits, it is true exactly
    when both are known and their absolute difference exceeds the
    tolerance. *)
Theorem continuity_break_chain (cfg : Config) (events : list Event)
    (fr : Frame LedgerEntry) (pre : list LedgerEntry) (e : LedgerEntry)
    (post : list LedgerEntry) :
  build_ledger cfg events = Ok fr -> rows fr = pre ++ e :: post ->
  Sorted in_ledger_order (rows fr) /\
  ((forall p, In p pre -> userId (event p) <> userId (event e)) ->
   continuityBreak e = false) /\
  (userId (event e) = None -> continuityBreak e = false) /\
  (forall pre1 p pre2 u,
     pre = pre1 ++ p :: pre2 ->
     userId (event e) = Some u -> userId (event p) = Some u ->
     (forall y, In y pre2 -> userId (event y) <> Some u) ->
     (rounded_old cfg e = None \/ filled_new cfg p = None ->
      continuityBreak e = false) /\
     ((forall ob pf, rounded_old cfg e = Some ob -> filled_new cfg p = Some pf ->
         within_precision (ob - pf)
           (Z.max (dps cfg (event e)) (dps cfg (event p)))) ->
      (continuityBreak e = true <->
       exists ob pf, rounded_old cfg e = Some ob /\ filled_new cfg p = Some pf /\
                     (Dec.to_Q (tolerance cfg) < Qabs (ob - pf))%Q))).
Proof.
  intros Hb Hrows.
  split; [eapply build_ledger_sorted; exact Hb|].
  destruct (build_ledger_position _ _ _ _ _ _ Hb Hrows)
    as (cpre & c & Hpre & Hrow & He).
  set (prev := shifted String.eqb (fun r => userId (c_event r))
                 c_newBalanceFilled c (rev cpre)) in *.
  assert (Hcb : continuityBreak e = cont_break cfg (c_oldBalanceDec c) prev)
    by (rewrite He; reflexivity).
  assert (Hev : event e = c_event c) by (rewrite He; reflexivity).
  assert (Hnone : prev = None -> continuityBreak e = false).
  { intro Hn. rewrite Hcb, Hn. unfold cont_break, to_dec.
    destruct (c_oldBalanceDec c); reflexivity. }
  split; [|split].
  - intro Hfirst. apply Hnone. unfold prev, shifted, previous_in_group.
    destruct (userId (c_event c)) as [u|] eqn:Eu; [|reflexivity].
    rewrite find_all_false; [reflexivity|].
    intros y Hy. apply in_rev in Hy. unfold grouped_with.
    destruct (userId (c_event y)) as [u'|] eqn:Eu'; [|reflexivity].
    apply String.eqb_neq. intros ->.
    destruct (Forall2_In_r _ _ _ _ Hpre Hy) as (p & Hp & prev' & ->).
    apply (Hfirst _ Hp). rewrite Hev. cbn [event finish_row]. congruence.
  - intro Hu. apply Hnone. unfold prev, shifted, previous_in_group.
    rewrite <- Hev, Hu. reflexivity.
  - intros pre1 p pre2 u -> Hue Hup Hno.
    apply Forall2_app_inv_l in Hpre as (c1 & c2' & _ & Hp2 & ->).
    inversion Hp2 as [|p' cp pre2' c2 [prevp Hp] Hpre2]; subst p' pre2' c2'.
    assert (Hprev : prev = c_newBalanceFilled cp).
    { unfold prev, shifted, previous_in_group. rewrite <- Hev, Hue.
      assert (Hfind : find (grouped_with String.eqb (fun r => userId (c_event r)) u)
                        (rev (c1 ++ cp :: c2)) = Some cp).
      { apply find_rev_last. exists c1, c2. unfold grouped_with. repeat split.
        - rewrite Hp in Hup. cbn [event finish_row] in Hup. rewrite Hup.
          apply String.eqb_refl.
        - intros y Hy.
          destruct (Forall2_In_r _ _ _ _ Hpre2 Hy) as (q & Hq & prevq & ->).
          specialize (Hno _ Hq). cbn [event finish_row] in Hno.
          destruct (userId (c_event y)) as [u'|]; [|reflexivity].
          apply String.eqb_neq. congruence. }
      rewrite Hfind. reflexivity. }
    pose proof (computed_old_denotes cfg c prev (Hrow c (or_introl eq_refl))) as Hold.
    rewrite <- He in Hold.
    assert (Hcp : compute_row cfg (c_event cp) = Ok cp).
    { apply Hrow. right. apply in_or_app. right. left. reflexivity. }
    pose proof (computed_filled_denotes cfg cp prevp Hcp) as Hfill.
    rewrite <- Hp, <- Hprev in Hfill.
    rewrite Hcb.
    replace (dps cfg (event e)) with (dps cfg (c_event c)) by (rewrite Hev; reflexivity).
    replace (dps cfg (event p)) with (dps cfg (c_event cp)) by (rewrite Hp; reflexivity).
    exact (cont_break_spec cfg _ _ _ _ _ _ Hold Hfill).
Qed.

Lemma continuity_break_chain_witness :
  build_ledger default_config [Samples.debit_20; Samples.credit_100]
    = Ok (mkFrame ledger_columns [Samples.entry_100; Samples.entry_20]) /\
  [Samples.entry_100; Samples.entry_20] = [Samples.entry_100] ++ Samples.entry_20 :: [] /\
  Sorted in_ledger_order [Samples.entry_100; Samples.entry_20] /\
  continuityBreak Samples.entry_100 = false /\
  (continuityBreak Samples.entry_20 = true <->
   exists ob pf, rounded_old default_config Samples.entry_20 = Some ob /\
                 filled_new default_config Samples.entry_100 = Some pf /\
                 (Dec.to_Q (tolerance default_config) < Qabs (ob - pf))%Q).
Proof.
  assert (Hb : build_ledger default_config [Samples.debit_20; Samples.credit_100]
               = Ok (mkFrame ledger_columns [Samples.entry_100; Samples.entry_20]))
    by (vm_compute; reflexivity).
  assert (H1 : rows (mkFrame ledger_columns [Samples.entry_100; Samples.entry_20])
               = [] ++ Samples.entry_100 :: [Samples.entry_20]) by reflexivity.
  assert (H2 : rows (mkFrame ledger_columns [Samples.entry_100; Samples.entry_20])
               = [Samples.entry_100] ++ Samples.entry_20 :: []) by reflexivity.
  destruct (continuity_break_chain _ _ _ _ _ _ Hb H1) as (Hs & Hfirst & _).
  destruct (continuity_break_chain _ _ _ _ _ _ Hb H2) as (_ & _ & _ & Hlater).
  pose proof (Hlater [] Samples.entry_100 [] "u1"%string eq_refl eq_refl eq_refl
                (fun y (F : In y []) => match F with end)) as [_ Hiff].
  split; [exact Hb|]. split; [reflexivity|]. split; [exact Hs|].
  split; [apply Hfirst; intros p []|].
  apply Hiff. intros ob pf [= <-] [= <-]. vm_compute. reflexivity.
Defined.

(** C3 fails as worded when the two balances have different numbers of
    places and their difference has 29 digits: after a filled balance of
    0.0001, an old balance of -1000000000000000000000000.00 differs from
    it by more than a tolerance of 1e+24, but the code rounds the
    difference to 1e+24 and reports no break. *)
Lemma continuity_counterexample :
  ~ continuity_as_stated Samples.tolerance_1e24
      [Samples.debit_minus_1e24; Samples.small_bhd].
Proof.
  intro H.
  destruct (H (mkFrame ledger_columns [Samples.entry_small_bhd; Samples.entry_minus_1e24])
              [Samples.entry_small_bhd] Samples.entry_minus_1e24 [])
    as [_ Hlater]; [vm_compute; reflexivity|reflexivity|].
  pose proof (Hlater [] Samples.entry_small_bhd [] "u1"%string eq_refl eq_refl eq_refl
                (fun y (F : In y []) => match F with end)) as [_ Hbreak].
  assert (Hcb : continuityBreak Samples.entry_minus_1e24 = true).
  { apply Hbreak. eexists _, _. split; [reflexivity|]. split; [reflexivity|].
    vm_compute. reflexivity. }
  discriminate Hcb.
Qed.

End Continuity.

(* ------------------------------------------------------------------ *)
(** * The anomaly detector: what a run collects *)

Section DetectorFacts.

Import Compute Anomalies.
Context {conv : Float64Conv}.

Lemma require_ok (cols : list string) (c : string) :
  existsb (String.eqb c) cols = true -> require cols c = Ok tt.
Proof. unfold require. intros ->. reflexivity. Qed.

Lemma require_all_ok (cols cs : list string) :
  forallb (fun c => existsb (String.eqb c) cols) cs = true ->
  require_all cols cs = Ok tt.
Proof.
  induction cs as [|c cs IH]; cbn; [reflexivity|].
  intro H. apply andb_prop in H as [Hc Hcs].
  rewrite (require_ok _ _ Hc). cbn. auto.
Qed.

Lemma emitting_ok {A : Type} (cols : list string) (flagged : list A) (cs : list string) :
  forallb (fun c => existsb (String.eqb c) cols) cs = true ->
  emitting cols flagged cs = Ok tt.
Proof. intro H. destruct flagged; cbn; [reflexivity|]. apply require_all_ok, H. Qed.

(** What the passes return is what they collected. *)
Lemma passes_ok (cfg : Config) (cols : list string) (df : list LedgerEntry)
    (l : list AnomalyRecord) :
  passes cfg cols df = Ok l -> l = collected cfg cols df.
Proof.
  unfold passes. intro H.
  repeat (apply bind_ok in H as (? & _ & H)).
  injection H as <-. reflexivity.
Qed.

Lemma has_base_column (cols : list string) (c : string) :
  forallb (fun c => existsb (String.eqb c) cols) base_columns = true ->
  In c base_columns -> existsb (String.eqb c) cols = true.
Proof. intros H Hc. rewrite forallb_forall in H. auto. Qed.

(** With the base columns, and [expectedNewBalance] beside
    [balanceMismatch], no pass raises. *)
Lemma passes_total (cfg : Config) (cols : list string) (df : list LedgerEntry) :
  forallb (fun c => existsb (String.eqb c) cols) base_columns = true ->
  (existsb (String.eqb "balanceMismatch") cols = true ->
   existsb (String.eqb "expectedNewBalance") cols = true) ->
  passes cfg cols df = Ok (collected cfg cols df).
Proof.
  intros Hbase Hexp.
  assert (Hrec : forallb (fun c => existsb (String.eqb c) cols) record_columns = true).
  { apply forallb_forall. intros c Hc. apply has_base_column; [exact Hbase|].
    cbn in Hc |- *. intuition. }
  assert (Hone : forall c, In c base_columns -> require cols c = Ok tt).
  { intros c Hc. apply require_ok, has_base_column; assumption. }
  unfold passes.
  rewrite (Hone "action"%string) by (cbn; intuition). cbn [bind].
  rewrite (emitting_ok _ _ _ Hrec). cbn [bind].
  rewrite (Hone "type"%string) by (cbn; intuition). cbn [bind].
  rewrite (Hone "amount"%string) by (cbn; intuition).
  assert (Hk : match group_keys [] df with [] => Ok tt | _ :: _ => Ok tt end = Ok tt)
    by (destruct (group_keys [] df); reflexivity).
  rewrite Hk. cbn [bind].
  rewrite !(emitting_ok _ _ _ Hrec). cbn [bind].
  rewrite (Hone "source"%string) by (cbn; intuition). cbn [bind].
  rewrite (Hone "currency"%string) by (cbn; intuition).
  assert (Hm : emitting cols
                 (if existsb (String.eqb "balanceMismatch") cols
                  then balance_mismatches df else [])
                 (record_columns ++ ["expectedNewBalance"%string]) = Ok tt).
  { destruct (existsb (String.eqb "balanceMismatch") cols) eqn:E; [|reflexivity].
    apply emitting_ok. rewrite forallb_app, Hrec. cbn [forallb andb].
    rewrite (Hexp eq_refl). reflexivity. }
  rewrite Hm. cbn [bind]. reflexivity.
Qed.

(** The rows of a result are the collected records, reordered. *)
Lemma detect_anomalies_ok (cfg : Config) (ledger : Frame LedgerEntry)
    (out : Frame AnomalyRecord) :
  detect_anomalies cfg (Some ledger) = Ok out -> empty ledger = false ->
  columns out = anomaly_columns /\
  Permutation (rows out)
    (collected cfg (columns ledger) (sort_values compare_entries (rows ledger))).
Proof.
  unfold detect_anomalies. intros H He. rewrite He in H.
  apply bind_ok in H as (? & _ & H).
  apply bind_ok in H as (l & Hl & H).
  apply passes_ok in Hl. rewrite <- Hl.
  destruct l as [|r l]; injection H as <-; cbn [columns rows empty_anomalies].
  - split; reflexivity.
  - split; [reflexivity|]. apply (sort_values_perm compare_anomalies (r :: l)).
Qed.

Lemma detect_anomalies_total (cfg : Config) (ledger : Frame LedgerEntry) :
  empty ledger = false ->
  forallb (has_column ledger) base_columns = true ->
  (has_column ledger "balanceMismatch" = true ->
   has_column ledger "expectedNewBalance" = true) ->
  exists out, detect_anomalies cfg (Some ledger) = Ok out.
Proof.
  intros He Hbase Hexp. unfold detect_anomalies. rewrite He.
  rewrite require_all_ok.
  - cbn [bind]. rewrite passes_total by assumption. cbn [bind].
    destruct (collected cfg (columns ledger) _); eauto.
  - apply forallb_forall. intros c Hc. apply has_base_column; [exact Hbase|].
    cbn in Hc |- *. intuition.
Qed.

(** The kind each pass writes in its records. *)
Lemma record_kind (kind : string) (d : LedgerEntry -> Details)
    (l : list LedgerEntry) (rec : AnomalyRecord) :
  In rec (map (fun r => record kind (d r) r) l) -> anomalyType rec = kind.
Proof. intro H. apply in_map_iff in H as (r & <- & _). reflexivity. Qed.

Lemma missing_kind (ho hn : bool) (df : list LedgerEntry) (rec : AnomalyRecord) :
  In rec (missing_fields ho hn df) -> anomalyType rec = "MissingField"%string.
Proof.
  unfold missing_fields. rewrite !in_app_iff, !in_map_iff.
  intros [(r & <- & _)|[(r & <- & _)|(r & <- & _)]]; reflexivity.
Qed.

Lemma mad_kind (cfg : Config) (df : list LedgerEntry) (rec : AnomalyRecord) :
  In rec (mad_spikes cfg df) -> anomalyType rec = "MADSpike"%string.
Proof.
  unfold mad_spikes. rewrite in_flat_map. intros (k & _ & H).
  apply in_map_iff in H as (r & <- & _). reflexivity.
Qed.

(** The records of one kind come from the pass of that kind. *)
Lemma collected_kinds (cfg : Config) (cols : list string) (df : list LedgerEntry)
    (rec : AnomalyRecord) :
  In rec (collected cfg cols df) ->
  let k := anomalyType rec in
  (k = "MADSpike"%string -> In rec (mad_spikes cfg df)) /\
  (k = "DuplicateTxId"%string -> In rec (duplicate_ids df)) /\
  (k = "RapidManualDeduction"%string -> In rec (rapid_deductions cfg df)) /\
  (k = "ContinuityBreak"%string ->
   existsb (String.eqb "continuityBreak") cols = true /\ In rec (continuity_breaks df)) /\
  (k = "BalanceMismatch"%string ->
   existsb (String.eqb "balanceMismatch") cols = true /\ In rec (balance_mismatches df)) /\
  (k = "Burst"%string -> In rec (bursts df)).
Proof.
  unfold collected. rewrite !in_app_iff.
  intros [H|[H|[H|[H|[H|[H|[H|[H|H]]]]]]]]; cbn zeta.
  - apply (record_kind _ (fun _ => _)) in H. rewrite H.
    repeat split; discriminate.
  - pose proof (mad_kind _ _ _ H) as Hk. rewrite Hk.
    repeat split; try discriminate; auto.
  - pose proof (record_kind _ (fun _ => _) _ _ H) as Hk. rewrite Hk.
    repeat split; try discriminate; auto.
  - apply missing_kind in H. rewrite H. repeat split; discriminate.
  - pose proof (record_kind _ _ _ _ H) as Hk. rewrite Hk.
    repeat split; try discriminate; auto.
  - destruct (existsb (String.eqb "continuityBreak") cols); [|contradiction].
    pose proof (record_kind _ (fun _ => _) _ _ H) as Hk. rewrite Hk.
    repeat split; try discriminate; auto.
  - destruct (existsb (String.eqb "balanceMismatch") cols); [|contradiction].
    pose proof (record_kind _ _ _ _ H) as Hk. rewrite Hk.
    repeat split; try discriminate; auto.
  - pose proof (record_kind _ (fun _ => _) _ _ H) as Hk. rewrite Hk.
    repeat split; try discriminate; auto.
  - apply (record_kind _ (fun _ => _)) in H. rewrite H.
    repeat split; discriminate.
Qed.

End DetectorFacts.

(* ------------------------------------------------------------------ *)
(** * Empty input, and frames without the flag columns *)

Section EmptyAndMissing.

Import Compute Anomalies.
Context {conv : Float64Conv}.

(** C5, as amended.  On an empty list of events [build_ledger] returns
    the frame of no events as it is, a table with no rows and no columns;
    on that table, as on any empty or absent one, [detect_anomalies]
    returns a table with no rows and the eleven anomaly columns.  Neither
    raises. *)
Theorem empty_run (cfg : Compute.Config) (acfg : Anomalies.Config) :
  build_ledger cfg [] = Ok (mkFrame [] []) /\
  detect_anomalies acfg (Some (mkFrame [] [])) = Ok (mkFrame anomaly_columns []) /\
  detect_anomalies acfg None = Ok (mkFrame anomaly_columns []) /\
  (forall ledger, empty ledger = true ->
     detect_anomalies acfg (Some ledger) = Ok (mkFrame anomaly_columns [])).
Proof.
  repeat split.
  intros ledger He. unfold detect_anomalies. rewrite He. reflexivity.
Qed.

(** C9.  On a ledger with rows that has the base columns but not
    [continuityBreak] or not [balanceMismatch], [detect_anomalies] does
    not raise: the pass of the missing column appends nothing, and the
    result holds the records of all the other passes. *)
Theorem missing_flag_column_skipped (cfg : Anomalies.Config) (ledger : Frame LedgerEntry) :
  empty ledger = false ->
  forallb (has_column ledger) base_columns = true ->
  (has_column ledger "balanceMismatch" = true ->
   has_column ledger "expectedNewBalance" = true) ->
  let df := sort_values compare_entries (rows ledger) in
  exists out,
    detect_anomalies cfg (Some ledger) = Ok out /\
    Permutation (rows out)
      (invalid_actions df ++ mad_spikes cfg df ++ duplicate_ids df ++
       missing_fields true true df ++ rapid_deductions cfg df ++
       (if has_column ledger "continuityBreak" then continuity_breaks df else []) ++
       (if has_column ledger "balanceMismatch" then balance_mismatches df else []) ++
       bursts df ++ currency_mismatches df) /\
    (has_column ledger "continuityBreak" = false ->
     forall r, In r (rows out) -> anomalyType r <> "ContinuityBreak"%string) /\
    (has_column ledger "balanceMismatch" = false ->
     forall r, In r (rows out) -> anomalyType r <> "BalanceMismatch"%string).
Proof.
  intros He Hbase Hexp df.
  destruct (detect_anomalies_total cfg ledger He Hbase Hexp) as (out & Hout).
  exists out. split; [exact Hout|].
  destruct (detect_anomalies_ok _ _ _ Hout He) as (_ & Hperm). fold df in Hperm.
  assert (Hold : existsb (String.eqb "oldBalance") (columns ledger) = true)
    by (apply has_base_column; [exact Hbase|cbn; intuition]).
  assert (Hnew : existsb (String.eqb "newBalance") (columns ledger) = true)
    by (apply has_base_column; [exact Hbase|cbn; intuition]).
  unfold collected in Hperm. rewrite Hold, Hnew in Hperm.
  split; [exact Hperm|].
  split; intros Hno r Hr Hk;
    apply (Permutation_in _ Hperm) in Hr;
    assert (Hc : In r (collected cfg (columns ledger) df))
      by (unfold collected; rewrite Hold, Hnew; exact Hr);
    apply collected_kinds in Hc;
    destruct Hc as (_ & _ & _ & Hcont & Hmis & _).
  - destruct (Hcont Hk) as [Hhas _]. unfold has_column in Hno. congruence.
  - destruct (Hmis Hk) as [Hhas _]. unfold has_column in Hno. congruence.
Qed.

End EmptyAndMissing.

(** C5 fails as worded for the ledger: the table [build_ledger] returns
    for no events has no columns. *)
Lemma empty_run_counterexample :
  ~ empty_run_as_stated Compute.default_config Samples.detector_config.
Proof.
  intros (ledger & anomalies & Hb & _ & Hc & _).
  cbn in Hb. injection Hb as <-. discriminate Hc.
Qed.

Lemma empty_run_witness :
  empty (mkFrame Compute.event_columns ([] : list Compute.LedgerEntry)) = true /\
  Anomalies.detect_anomalies Samples.detector_config
    (Some (mkFrame Compute.event_columns [])) = Ok (mkFrame Anomalies.anomaly_columns []).
Proof.
  assert (He : empty (mkFrame Compute.event_columns ([] : list Compute.LedgerEntry)) = true)
    by reflexivity.
  split; [exact He|].
  destruct (empty_run Compute.default_config Samples.detector_config) as (_ & _ & _ & H).
  exact (H _ He).
Defined.

Lemma missing_flag_column_skipped_witness :
  empty Samples.ledger_without_flags = false /\
  forallb (has_column Samples.ledger_without_flags) Anomalies.base_columns = true /\
  (has_column Samples.ledger_without_flags "balanceMismatch" = true ->
   has_column Samples.ledger_without_flags "expectedNewBalance" = true) /\
  exists out,
    Anomalies.detect_anomalies Samples.detector_config
      (Some Samples.ledger_without_flags) = Ok out /\
    (forall r, In r (rows out) ->
       Anomalies.anomalyType r <> "ContinuityBreak"%string) /\
    (forall r, In r (rows out) ->
       Anomalies.anomalyType r <> "BalanceMismatch"%string).
Proof.
  assert (He : empty Samples.ledger_without_flags = false) by reflexivity.
  assert (Hbase : forallb (has_column Samples.ledger_without_flags)
                    Anomalies.base_columns = true) by reflexivity.
  assert (Hexp : has_column Samples.ledger_without_flags "balanceMismatch" = true ->
                 has_column Samples.ledger_without_flags "expectedNewBalance" = true)
    by (intro H; discriminate H).
  split; [exact He|]. split; [exact Hbase|]. split; [exact Hexp|].
  destruct (missing_flag_column_skipped Samples.detector_config
              Samples.ledger_without_flags He Hbase Hexp)
    as (out & Hout & _ & Hcont & Hmis).
  exists out. split; [exact Hout|].
  split; [apply Hcont|apply Hmis]; reflexivity.
Defined.

(* ------------------------------------------------------------------ *)
(** * The anomaly detector: gaps in time *)

Section TimeGaps.

Import Compute Anomalies.
Context {conv : Float64Conv}.

(** No float is at least NaN. *)
Lemma leb_nan_l (w : float) : PrimFloat.leb PrimFloat.nan w = false.
Proof. rewrite FloatAxioms.leb_spec. reflexivity. Qed.

Lemma burst_row_timestamp (r : LedgerEntry) (prev : option Z) :
  burst_row r prev = true -> timestamp (event r) <> None.
Proof.
  unfold burst_row, gap_seconds. intros H Hts. rewrite Hts in H.
  discriminate H.
Qed.

Lemma rapid_row_timestamp (cfg : Config) (r : LedgerEntry) (prev : option Z) :
  rapid_row cfg r prev = true -> timestamp (event r) <> None.
Proof.
  unfold rapid_row, gap_seconds. intros H Hts. rewrite Hts in H.
  rewrite leb_nan_l, andb_false_r in H. discriminate H.
Qed.

(** C10.  A row whose timestamp is unknown has [False] in the mask of
    the Burst pass and in the mask of the RapidManualDeduction pass,
    whatever rows come before it; and no Burst or RapidManualDeduction
    record of a result has an unknown timestamp. *)
Theorem unknown_timestamp_not_flagged (cfg : Config) :
  (forall pre r post,
     timestamp (event r) = None ->
     nth (List.length pre) (gap_mask (pre ++ r :: post)) false = false /\
     nth (List.length pre) (rapid_mask cfg (pre ++ r :: post)) false = false) /\
  (forall ledger out rec,
     detect_anomalies cfg ledger = Ok out ->
     In rec (rows out) -> a_timestamp rec = None ->
     anomalyType rec <> "Burst"%string /\
     anomalyType rec <> "RapidManualDeduction"%string).
Proof.
  split.
  - intros pre r post Hts. unfold gap_mask, rapid_mask, group_shift.
    rewrite !map2_group_shift_at. split; apply not_true_is_false; intro H.
    + exact (burst_row_timestamp _ _ H Hts).
    + exact (rapid_row_timestamp _ _ _ H Hts).
  - intros [ledger|] out rec Hout Hin Hts;
      [|injection Hout as <-; contradiction].
    destruct (empty ledger) eqn:He.
    { unfold detect_anomalies in Hout. rewrite He in Hout.
      injection Hout as <-. contradiction. }
    destruct (detect_anomalies_ok _ _ _ Hout He) as (_ & Hperm).
    apply (Permutation_in _ Hperm) in Hin. apply collected_kinds in Hin.
    destruct Hin as (_ & _ & Hrapid & _ & _ & Hburst).
    split; intro Hk.
    + specialize (Hburst Hk). unfold bursts in Hburst.
      apply in_map_iff in Hburst as (r & <- & Hr).
      apply select_map2_In in Hr as (b & Hb).
      exact (burst_row_timestamp _ _ Hb Hts).
    + specialize (Hrapid Hk). unfold rapid_deductions in Hrapid.
      apply in_map_iff in Hrapid as (r & <- & Hr).
      apply select_map2_In in Hr as (b & Hb).
      exact (rapid_row_timestamp _ _ _ Hb Hts).
Qed.

End TimeGaps.

(* ------------------------------------------------------------------ *)
(** * The anomaly detector: rapid manual deductions *)

Section RapidManual.

Import Compute Anomalies.
Context {conv : Float64Conv}.




End RapidManual.

(* ------------------------------------------------------------------ *)
(** * The anomaly detector: duplicate transaction ids *)

Section Duplicates.

Import Compute Anomalies.
Context {conv : Float64Conv}.

Lemma select_map {A : Type} (f : A -> bool) (l : list A) :
  select (map f l) l = filter f l.
Proof.
  induction l as [|a l IH]; cbn; [reflexivity|].
  rewrite IH. reflexivity.
Qed.

Lemma filter_length_perm {A : Type} (f : A -> bool) (l l' : list A) :
  Permutation l l' -> List.length (filter f l) = List.length (filter f l').
Proof.
  induction 1 as [|x l l' _ IH|x y l|l l' l'' _ IH1 _ IH2]; cbn.
  - reflexivity.
  - destruct (f x); cbn; congruence.
  - destruct (f x), (f y); reflexivity.
  - congruence.
Qed.

Lemma filter_length_In {A : Type} (f : A -> bool) (l : list A) (a : A) :
  In a l -> f a = true -> (1 <= List.length (filter f l))%nat.
Proof.
  intros Hin Hf.
  assert (H : In a (filter f l)) by (apply filter_In; auto).
  destruct (filter f l); [contradiction|cbn; lia].
Qed.

(** Two rows at different positions that pass a test make the filter at
    least two long. *)
Lemma filter_length_two {A : Type} (f : A -> bool) (l : list A)
    (i j : nat) (a b : A) :
  nth_error l i = Some a -> nth_error l j = Some b -> i <> j ->
  f a = true -> f b = true -> (2 <= List.length (filter f l))%nat.
Proof.
  revert i j. induction l as [|x l IH]; intros i j Hi Hj Hne Ha Hb.
  - destruct i; discriminate.
  - destruct i as [|i], j as [|j]; cbn in Hi, Hj; [congruence| | |].
    + injection Hi as ->. cbn. rewrite Ha. cbn.
      apply nth_error_In in Hj.
      pose proof (filter_length_In f l b Hj Hb). lia.
    + injection Hj as ->. cbn. rewrite Hb. cbn.
      apply nth_error_In in Hi.
      pose proof (filter_length_In f l a Hi Ha). lia.
    + assert (Hij : i <> j) by congruence.
      pose proof (IH i j Hi Hj Hij Ha Hb). cbn.
      destruct (f x); cbn; lia.
Qed.

Lemma opt_eqb_refl (a : option string) : opt_eqb String.eqb a a = true.
Proof. destruct a; cbn; [apply String.eqb_refl|reflexivity]. Qed.

Lemma same_tx_of_keys (a b : LedgerEntry) :
  userId (event a) = userId (event b) -> id (event a) = id (event b) ->
  same_tx a b = true.
Proof. unfold same_tx. intros -> ->. rewrite !opt_eqb_refl. reflexivity. Qed.

Lemma duplicate_ids_In (df : list LedgerEntry) (r : LedgerEntry) :
  In r df -> (2 <= List.length (filter (same_tx r) df))%nat ->
  In (record "DuplicateTxId" DuplicateTransactionId r) (duplicate_ids df).
Proof.
  intros Hin Hlen. unfold duplicate_ids, dup_id_mask. rewrite select_map.
  apply in_map. apply filter_In. split; [exact Hin|].
  apply Nat.leb_le. exact Hlen.
Qed.

(** C7.  When two rows at different positions of a ledger have the same
    (userId, id), the result has a DuplicateTxId record for the one and
    for the other. *)
Theorem duplicate_tx_ids_all_flagged (cfg : Config) (ledger : Frame LedgerEntry)
    (out : Frame AnomalyRecord) (i j : nat) (r1 r2 : LedgerEntry) :
  detect_anomalies cfg (Some ledger) = Ok out -> empty ledger = false ->
  nth_error (rows ledger) i = Some r1 -> nth_error (rows ledger) j = Some r2 ->
  i <> j ->
  userId (event r1) = userId (event r2) -> id (event r1) = id (event r2) ->
  In (record "DuplicateTxId" DuplicateTransactionId r1) (rows out) /\
  In (record "DuplicateTxId" DuplicateTransactionId r2) (rows out).
Proof.
  intros Hout He Hi Hj Hne Hu Hid.
  destruct (detect_anomalies_ok _ _ _ Hout He) as (_ & Hperm).
  set (df := sort_values compare_entries (rows ledger)) in *.
  assert (Hdf : Permutation df (rows ledger)) by apply sort_values_perm.
  assert (Hflag : forall r, In r (rows ledger) ->
            (2 <= List.length (filter (same_tx r) (rows ledger)))%nat ->
            In (record "DuplicateTxId" DuplicateTransactionId r) (rows out)).
  { intros r Hr Hlen.
    apply (Permutation_in _ (Permutation_sym Hperm)).
    unfold collected. rewrite !in_app_iff. right. right. left.
    apply duplicate_ids_In.
    - apply (Permutation_in _ (Permutation_sym Hdf)). exact Hr.
    - rewrite (filter_length_perm _ _ _ Hdf). exact Hlen. }
  split; apply Hflag.
  - eapply nth_error_In; exact Hi.
  - apply (filter_length_two _ _ i j r1 r2); auto using same_tx_of_keys.
  - eapply nth_error_In; exact Hj.
  - apply (filter_length_two _ _ i j r1 r2); auto using same_tx_of_keys.
Qed.

End Duplicates.

(* ------------------------------------------------------------------ *)
(** * The anomaly detector: MAD spikes *)

Section MadSpikes.

Import Compute Anomalies.
Context {conv : Float64Conv}.

Lemma user_type_eqb_eq (a b : string * string) :
  user_type_eqb a b = true <-> a = b.
Proof.
  destruct a as [a1 a2], b as [b1 b2]. unfold user_type_eqb. cbn.
  rewrite andb_true_iff, !String.eqb_eq. split; [intros [-> ->]|intros [= -> ->]]; auto.
Qed.

Lemma in_group_iff (k : string * string) (r : LedgerEntry) :
  in_group k r = true <-> user_type_key r = Some k.
Proof.
  unfold in_group. destruct (user_type_key r) as [k'|]; [|split; discriminate].
  rewrite user_type_eqb_eq. split; congruence.
Qed.




End MadSpikes.

(* ------------------------------------------------------------------ *)
(** * The detector on the sample ledgers *)

Section DetectorSamples.

Import Compute Anomalies.


Lemma duplicate_tx_ids_all_flagged_witness :
  exists out,
    detect_anomalies Samples.detector_config (Some Samples.twice_ledger) = Ok out /\
    empty Samples.twice_ledger = false /\
    nth_error (rows Samples.twice_ledger) 0 = Some (Samples.plain Samples.twice_1) /\
    nth_error (rows Samples.twice_ledger) 1 = Some (Samples.plain Samples.twice_2) /\
    In (record "DuplicateTxId" DuplicateTransactionId (Samples.plain Samples.twice_1))
       (rows out) /\
    In (record "DuplicateTxId" DuplicateTransactionId (Samples.plain Samples.twice_2))
       (rows out).
Proof.
  destruct (detect_anomalies Samples.detector_config (Some Samples.twice_ledger))
    as [out|err] eqn:Hout; [|vm_compute in Hout; discriminate Hout].
  exists out. split; [reflexivity|]. split; [reflexivity|].
  split; [reflexivity|]. split; [reflexivity|].
  apply (duplicate_tx_ids_all_flagged Samples.detector_config Samples.twice_ledger
           out 0 1 _ _ Hout); try reflexivity.
  discriminate.
Defined.


Lemma unknown_timestamp_not_flagged_witness :
  timestamp (event (Samples.plain Samples.twice_2)) = None /\
  nth 1 (gap_mask [Samples.plain Samples.twice_1; Samples.plain Samples.twice_2]) false
    = false /\
  nth 1 (rapid_mask Samples.detector_config
           [Samples.plain Samples.twice_1; Samples.plain Samples.twice_2]) false
    = false /\
  exists out,
    detect_anomalies Samples.detector_config (Some Samples.twice_ledger) = Ok out /\
    In (record "DuplicateTxId" DuplicateTransactionId (Samples.plain Samples.twice_2))
       (rows out) /\
    anomalyType (record "DuplicateTxId" DuplicateTransactionId
                   (Samples.plain Samples.twice_2)) <> "Burst"%string.
Proof.
  destruct (unknown_timestamp_not_flagged Samples.detector_config) as (Hmask & Hrec).
  destruct (Hmask [Samples.plain Samples.twice_1] (Samples.plain Samples.twice_2) []
              eq_refl) as (Hgap & Hrapid).
  split; [reflexivity|]. split; [exact Hgap|]. split; [exact Hrapid|].
  destruct (detect_anomalies Samples.detector_config (Some Samples.twice_ledger))
    as [out|err] eqn:Ho; [|vm_compute in Ho; discriminate Ho].
  exists out. split; [reflexivity|].
  assert (Hin : In (record "DuplicateTxId" DuplicateTransactionId
                      (Samples.plain Samples.twice_2)) (rows out)).
  { vm_compute in Ho. injection Ho as <-. vm_compute. right. left. reflexivity. }
  split; [exact Hin|].
  apply (Hrec _ _ _ Ho Hin eq_refl).
Defined.

End DetectorSamples.

(* ------------------------------------------------------------------ *)
(** * More facts about the decimal arithmetic and the row loop *)

Section MoreDecimalFacts.

Import Dec.

Lemma negative_spec (d : Decimal) : negative d = true <-> (to_Q d < 0)%Q.
Proof.
  unfold negative, to_Q.
  pose proof (Qle_bool_to_Q (coef d) (dexp d)) as H.
  rewrite Z.ltb_lt. split.
  - intro Hc. apply Qnot_le_lt. intro Hle. apply Qle_bool_iff in Hle.
    rewrite H in Hle. apply Z.leb_le in Hle. lia.
  - intro Hlt. destruct (Z.ltb_spec (coef d) 0) as [|Hge]; [assumption|].
    exfalso. apply Z.leb_le in Hge. rewrite <- H in Hge.
    apply Qle_bool_iff in Hge. exact (Qlt_irrefl _ (Qle_lt_trans _ _ _ Hge Hlt)).
Qed.







End MoreDecimalFacts.

Section MoreLedgerFacts.

Import Compute.



Lemma bind_raise {A B : Type} (r : Result A) (k : A -> Result B) (e : Error) :
  bind r k = Raise e -> r = Raise e \/ exists a, r = Ok a /\ k a = Raise e.
Proof. destruct r as [a|e']; cbn; [eauto|intros [= <-]; auto]. Qed.


(** The overdraft columns and the suggested adjustment of a row. *)
Lemma compute_row_flags (cfg : Config) (ev : Event) (c : Computed) :
  compute_row cfg ev = Ok c ->
  exists new_bal_q,
    quantize_opt (expected_balance ev) (dps cfg ev) = Ok (c_expected c) /\
    quantize_opt (newBalance ev) (dps cfg ev) = Ok new_bal_q /\
    c_mismatch c = mismatch_of cfg (c_expected c) new_bal_q /\
    c_overdraftReason c = overdraft_reason (c_expected c) new_bal_q /\
    c_overdraft c = (match c_overdraftReason c with Some _ => true | None => false end) /\
    match c_expected c, new_bal_q with
    | Some x, Some n =>
        if c_mismatch c
        then Dec.quantize (Dec.sub x n) (dps cfg ev) = Ok (c_suggested c)
        else c_suggested c = Dec.zero
    | _, _ => c_suggested c = Dec.zero
    end.
Proof.
  unfold compute_row, to_dec. intro H.
  apply bind_ok in H as (x & Hx & H).
  apply bind_ok in H as (n & Hn & H).
  apply bind_ok in H as (o & Ho & H).
  apply bind_ok in H as (s & Hs & H).
  injection H as <-. cbn. exists n. repeat split; try assumption.
  destruct x as [x|], n as [n|]; try (injection Hs as <-; reflexivity).
  destruct (mismatch_of cfg (Some x) (Some n)); [exact Hs|].
  injection Hs as <-. reflexivity.
Qed.

Lemma map2_finish_events (cfg : Config) (l : list Computed) (l' : list (option Decimal)) :
  List.length l' = List.length l ->
  map event (map2 (finish_row cfg) l l') = map c_event l.
Proof.
  revert l'. induction l as [|c l IH]; intros [|b l'] H; cbn in *; try discriminate.
  - reflexivity.
  - f_equal. apply IH. lia.
Qed.

Lemma mapM_events (cfg : Config) (l : list Event) (l' : list Computed) :
  mapM (compute_row cfg) l = Ok l' -> map c_event l' = l.
Proof.
  intro H. apply mapM_ok in H.
  induction H as [|ev c l l' Hc _ IH]; cbn; [reflexivity|].
  apply compute_row_ok in Hc as (_ & -> & _). f_equal. exact IH.
Qed.

End MoreLedgerFacts.

(* ------------------------------------------------------------------ *)
(** * The ledger builder: rows, overdrafts, adjustments and errors *)

Section LedgerRows.

Import Compute.

(** X1.  A ledger that [build_ledger] returns has one entry for each
    BALANCE_SYNC event of the input and none for any other event: the
    events of its rows are the BALANCE_SYNC events, reordered, so no
    transaction is lost, repeated or made up (compute.py, lines 44-47,
    164-175). *)
Theorem ledger_entries_are_the_sync_events (cfg : Config) (events : list Event)
    (fr : Frame LedgerEntry) :
  build_ledger cfg events = Ok fr ->
  Permutation (map event (rows fr)) (filter is_balance_sync events) /\
  List.length (rows fr) = List.length (filter is_balance_sync events).
Proof.
  intro Hb.
  assert (Hp : Permutation (map event (rows fr)) (filter is_balance_sync events)).
  { unfold build_ledger in Hb. destruct events as [|ev events].
    { cbn in Hb. injection Hb as <-. constructor. }
    cbn [DataFrame empty columns rows event_columns] in Hb.
    destruct (filter is_balance_sync (ev :: events)) as [|t tx] eqn:Etx.
    { injection Hb as <-. constructor. }
    apply bind_ok in Hb as (computed & Hc & Hb). injection Hb as <-.
    cbn [rows]. rewrite map2_finish_events by apply group_shift_from_length.
    rewrite <- (mapM_events _ _ _ Hc).
    apply Permutation_map. apply sort_values_perm. }
  split; [exact Hp|].
  rewrite <- (Permutation_length Hp). symmetry. apply length_map.
Qed.

(** X2.  For every entry of a ledger: [overdraft] is true exactly when
    the rounded expected balance or the rounded reported balance is
    known and below zero; [overdraftReason] is the combined text when
    both are, [actual<0] when only the reported one is, [expected<0] when
    only the expected one is, and it is unknown exactly when [overdraft]
    is false (compute.py, lines 133-146).  A balance that rounds to zero
    is no overdraft. *)
Theorem overdraft_flag_and_reason (cfg : Config) (events : list Event)
    (fr : Frame LedgerEntry) (e : LedgerEntry) :
  build_ledger cfg events = Ok fr -> In e (rows fr) ->
  let expected_neg := negative_value (expected_value e) in
  let actual_neg := negative_value (rounded_actual cfg e) in
  (overdraft e = true <-> expected_neg \/ actual_neg) /\
  (overdraftReason e = Some "expected balance < 0, actual balance < 0"%string <->
   expected_neg /\ actual_neg) /\
  (overdraftReason e = Some "actual<0"%string <-> actual_neg /\ ~ expected_neg) /\
  (overdraftReason e = Some "expected<0"%string <-> expected_neg /\ ~ actual_neg) /\
  (overdraftReason e = None <-> overdraft e = false).
Proof.
  intros Hb Hin expected_neg actual_neg.
  destruct (build_ledger_entry _ _ _ _ Hb Hin) as (c & prev & Hrow & He & _).
  apply compute_row_flags in Hrow as (n & _ & Hnew & _ & Hreason & Hflag & _).
  assert (Hr : overdraftReason e = overdraft_reason (expectedNewBalance e) n)
    by (rewrite He; exact Hreason).
  assert (Ho : overdraft e = match overdraftReason e with Some _ => true | None => false end)
    by (rewrite He; exact Hflag).
  clear Hreason Hflag He c prev.
  apply quantize_opt_ok in Hnew.
  set (en := match expectedNewBalance e with Some x => Dec.negative x | None => false end).
  set (an := match n with Some a => Dec.negative a | None => false end).
  assert (Hen : en = true <-> expected_neg).
  { unfold en, expected_neg, negative_value, expected_value.
    destruct (expectedNewBalance e) as [x|]; cbn [option_map].
    - rewrite negative_spec. split.
      + intro H. exists (Dec.to_Q x). auto.
      + intros (y & [= <-] & H). exact H.
    - split; [discriminate|intros (y & H & _); discriminate]. }
  assert (Han : an = true <-> actual_neg).
  { unfold an, actual_neg, negative_value, rounded_actual.
    destruct (newBalance (event e)) as [d|], n as [a|]; try contradiction;
      cbn [option_map].
    - rewrite negative_spec, (quantize_spec _ _ _ Hnew). split.
      + intro H. eexists. split; [reflexivity|exact H].
      + intros (y & [= <-] & H). exact H.
    - split; [discriminate|intros (y & H & _); discriminate]. }
  assert (Hcase : overdraftReason e =
            if en && an then Some "expected balance < 0, actual balance < 0"%string
            else if an then Some "actual<0"%string
            else if en then Some "expected<0"%string else None)
    by (rewrite Hr; reflexivity).
  rewrite Ho, Hcase, <- Hen, <- Han.
  destruct en, an; cbn; repeat split; intros; try discriminate; try reflexivity;
    try tauto; try (intuition discriminate).
Qed.



End LedgerRows.

(* ------------------------------------------------------------------ *)
(** * The ledger builder: inputs it accepts *)

Section ModestFacts.

Import Dec.







End ModestFacts.

Section Totality.

Import Compute.





End Totality.

(* ------------------------------------------------------------------ *)
(** * The anomaly detector: the table it returns and the columns it reads *)

Section MoreDetectorFacts.

Import Compute Anomalies.
Context {conv : Float64Conv}.

Lemma require_inv (cols : list string) (c : string) (u : unit) :
  require cols c = Ok u -> existsb (String.eqb c) cols = true.
Proof. unfold require. destruct (existsb _ cols); [reflexivity|discriminate]. Qed.

Lemma require_raise (cols : list string) (c : string) (e : Error) :
  require cols c = Raise e -> e = KeyError c /\ existsb (String.eqb c) cols = false.
Proof.
  unfold require. destruct (existsb _ cols); [discriminate|].
  intros [= <-]. auto.
Qed.

Lemma require_all_raise (cols cs : list string) (e : Error) :
  require_all cols cs = Raise e ->
  exists c, e = KeyError c /\ existsb (String.eqb c) cols = false.
Proof.
  induction cs as [|c cs IH]; cbn; [discriminate|].
  destruct (require cols c) as [u|e'] eqn:E; cbn.
  - exact IH.
  - intros [= <-]. apply require_raise in E. eauto.
Qed.

Lemma emitting_raise {A : Type} (cols : list string) (flagged : list A)
    (cs : list string) (e : Error) :
  emitting cols flagged cs = Raise e ->
  exists c, e = KeyError c /\ existsb (String.eqb c) cols = false.
Proof. destruct flagged; cbn; [discriminate|apply require_all_raise]. Qed.

(** A pass that raises names a column the frame does not have. *)
Lemma passes_raise (cfg : Config) (cols : list string) (df : list LedgerEntry)
    (e : Error) :
  passes cfg cols df = Raise e ->
  exists c, e = KeyError c /\ existsb (String.eqb c) cols = false.
Proof.
  unfold passes. intro H.
  repeat match type of H with
  | bind (require _ _) _ = Raise _ =>
      apply bind_raise in H as [H|(? & _ & H)];
        [apply require_raise in H; destruct H; eauto|]
  | bind (emitting _ _ _) _ = Raise _ =>
      apply bind_raise in H as [H|(? & _ & H)];
        [apply emitting_raise in H; exact H|]
  | bind (match ?l with [] => _ | _ => _ end) _ = Raise _ =>
      apply bind_raise in H as [H|(? & _ & H)];
        [destruct l; [discriminate|apply require_raise in H; destruct H; eauto]|]
  end.
  discriminate.
Qed.


(** The columns a run that returns has read. *)
Lemma passes_reads (cfg : Config) (cols : list string) (df : list LedgerEntry)
    (l : list AnomalyRecord) :
  passes cfg cols df = Ok l ->
  forallb (fun c => existsb (String.eqb c) cols)
    ["action"; "type"; "source"; "amount"; "currency"]%string = true.
Proof.
  unfold passes. intro H.
  apply bind_ok in H as (? & Haction & H). apply require_inv in Haction.
  apply bind_ok in H as (? & _ & H).
  apply bind_ok in H as (? & Htype & H). apply require_inv in Htype.
  apply bind_ok in H as (? & _ & H).
  apply bind_ok in H as (? & _ & H).
  apply bind_ok in H as (? & _ & H).
  apply bind_ok in H as (? & Hsource & H). apply require_inv in Hsource.
  apply bind_ok in H as (? & Hamount & H). apply require_inv in Hamount.
  apply bind_ok in H as (? & _ & H).
  apply bind_ok in H as (? & _ & H).
  apply bind_ok in H as (? & _ & H).
  apply bind_ok in H as (? & _ & H).
  apply bind_ok in H as (? & Hcurrency & H). apply require_inv in Hcurrency.
  cbn [forallb]. rewrite Haction, Htype, Hsource, Hamount, Hcurrency. reflexivity.
Qed.

Lemma select_In {A : Type} (mask : list bool) (l : list A) (x : A) :
  In x (select mask l) -> In x l.
Proof.
  revert mask. induction l as [|a l IH]; intros [|b mask] H; cbn in H; try contradiction.
  destruct b; [destruct H as [->|H]|]; cbn; eauto.
Qed.

Lemma record_copies (kind : string) (d : Details) (r : LedgerEntry) :
  copies (record kind d r) r.
Proof. repeat split. Qed.

Lemma spikes_of_group_In (cfg : Config) (grp : list LedgerEntry) (r : LedgerEntry) :
  In r (spikes_of_group cfg grp) -> In r grp.
Proof.
  unfold spikes_of_group. destruct (no_signal (group_mad grp)); [contradiction|].
  intro H. apply filter_In in H. tauto.
Qed.

(** Every collected record is of one of the nine kinds and repeats a
    row of the frame. *)
Lemma collected_from (cfg : Config) (cols : list string) (df : list LedgerEntry)
    (rec : AnomalyRecord) :
  In rec (collected cfg cols df) ->
  In (anomalyType rec) anomaly_kinds /\ exists r, In r df /\ copies rec r.
Proof.
  assert (Hmap : forall kind (d : LedgerEntry -> Details) l,
            In kind anomaly_kinds -> (forall r, In r l -> In r df) ->
            In rec (map (fun r => record kind (d r) r) l) ->
            In (anomalyType rec) anomaly_kinds /\ exists r, In r df /\ copies rec r).
  { intros kind d l Hk Hl H. apply in_map_iff in H as (r & <- & Hr).
    split; [exact Hk|]. exists r. split; [auto|apply record_copies]. }
  assert (Hfil : forall f r, In r (filter f df) -> In r df)
    by (intros f r H; apply filter_In in H; tauto).
  unfold collected. rewrite !in_app_iff.
  intros [H|[H|[H|[H|[H|[H|[H|[H|H]]]]]]]].
  - apply (Hmap _ (fun _ => _) _) in H; [exact H|cbn; tauto|apply Hfil].
  - unfold mad_spikes in H. apply in_flat_map in H as (k & _ & H).
    apply in_map_iff in H as (r & <- & Hr). split; [cbn; tauto|].
    exists r. split; [|apply record_copies].
    apply spikes_of_group_In in Hr. eapply Hfil. exact Hr.
  - apply (Hmap _ (fun _ => _) _) in H; [exact H|cbn; tauto|apply select_In].
  - split; [rewrite (missing_kind _ _ _ _ H); cbn; tauto|].
    unfold missing_fields in H. rewrite !in_app_iff, !in_map_iff in H.
    destruct H as [(r & <- & Hr)|[(r & <- & Hr)|(r & <- & Hr)]];
      exists r; (split; [eapply Hfil; exact Hr|repeat split]).
  - apply (Hmap _ _ _) in H; [exact H|cbn; tauto|apply select_In].
  - destruct (existsb (String.eqb "continuityBreak") cols); [|contradiction].
    apply (Hmap _ (fun _ => _) _) in H; [exact H|cbn; tauto|apply Hfil].
  - destruct (existsb (String.eqb "balanceMismatch") cols); [|contradiction].
    apply (Hmap _ _ _) in H; [exact H|cbn; tauto|apply Hfil].
  - apply (Hmap _ (fun _ => _) _) in H; [exact H|cbn; tauto|apply select_In].
  - apply (Hmap _ (fun _ => _) _) in H; [exact H|cbn; tauto|apply Hfil].
Qed.

(** The records of the three remaining kinds come from their passes. *)
Lemma collected_more_kinds (cfg : Config) (cols : list string) (df : list LedgerEntry)
    (rec : AnomalyRecord) :
  In rec (collected cfg cols df) ->
  let k := anomalyType rec in
  (k = "InvalidAction"%string -> In rec (invalid_actions df)) /\
  (k = "MissingField"%string ->
   In rec (missing_fields (existsb (String.eqb "oldBalance") cols)
             (existsb (String.eqb "newBalance") cols) df)) /\
  (k = "CurrencyMismatch"%string -> In rec (currency_mismatches df)).
Proof.
  unfold collected. rewrite !in_app_iff.
  intros [H|[H|[H|[H|[H|[H|[H|[H|H]]]]]]]]; cbn zeta.
  - pose proof (record_kind _ (fun _ => _) _ _ H) as Hk. rewrite Hk.
    repeat split; try discriminate; auto.
  - pose proof (mad_kind _ _ _ H) as Hk. rewrite Hk. repeat split; discriminate.
  - pose proof (record_kind _ (fun _ => _) _ _ H) as Hk. rewrite Hk.
    repeat split; discriminate.
  - pose proof (missing_kind _ _ _ _ H) as Hk. rewrite Hk.
    repeat split; try discriminate; auto.
  - pose proof (record_kind _ _ _ _ H) as Hk. rewrite Hk. repeat split; discriminate.
  - destruct (existsb (String.eqb "continuityBreak") cols); [|contradiction].
    pose proof (record_kind _ (fun _ => _) _ _ H) as Hk. rewrite Hk.
    repeat split; discriminate.
  - destruct (existsb (String.eqb "balanceMismatch") cols); [|contradiction].
    pose proof (record_kind _ _ _ _ H) as Hk. rewrite Hk. repeat split; discriminate.
  - pose proof (record_kind _ (fun _ => _) _ _ H) as Hk. rewrite Hk.
    repeat split; discriminate.
  - pose proof (record_kind _ (fun _ => _) _ _ H) as Hk. rewrite Hk.
    repeat split; try discriminate; auto.
Qed.

Lemma compare_anomalies_total (a b : AnomalyRecord) :
  compare_anomalies a b = Gt -> compare_anomalies b a <> Gt.
Proof.
  unfold compare_anomalies.
  rewrite (compare_cell_antisym Z.compare
             (fun x y => Z.compare_antisym y x) (a_timestamp b)).
  intros ->. discriminate.
Qed.

Lemma leb_by_timestamp_order (a b : AnomalyRecord) :
  leb_by compare_anomalies a b = true -> timestamp_order a b.
Proof.
  unfold leb_by, compare_anomalies, timestamp_order, compare_cell.
  destruct (a_timestamp a) as [x|], (a_timestamp b) as [y|]; try discriminate; auto.
  destruct (Z.compare_spec x y); try discriminate; lia.
Qed.

Lemma Sorted_impl {A : Type} (P Q : A -> A -> Prop) (l : list A) :
  (forall a b, P a b -> Q a b) -> Sorted P l -> Sorted Q l.
Proof.
  intros H. induction 1 as [|a l _ IH Hhd]; constructor; [exact IH|].
  destruct Hhd; constructor; auto.
Qed.

(** What a run returns on a frame that is not empty. *)
Lemma detect_anomalies_rows (cfg : Config) (ledger : Frame LedgerEntry)
    (out : Frame AnomalyRecord) :
  detect_anomalies cfg (Some ledger) = Ok out -> empty ledger = false ->
  rows out = sort_values compare_anomalies
               (collected cfg (columns ledger) (sort_values compare_entries (rows ledger))).
Proof.
  unfold detect_anomalies. intros H He. rewrite He in H.
  apply bind_ok in H as (? & _ & H).
  apply bind_ok in H as (l & Hl & H).
  apply passes_ok in Hl. rewrite <- Hl.
  destruct l as [|r l]; injection H as <-; reflexivity.
Qed.

End MoreDetectorFacts.

Section DetectorShape.

Import Compute Anomalies.
Context {conv : Float64Conv}.

(** X6.  Whatever [detect_anomalies] returns has the eleven anomaly
    columns, rows in ascending order of timestamp with the unknown
    timestamps last, and in every row one of the nine kinds together with
    the timestamp, userId, id, type, source, action and amount of a row of
    the ledger (anomalies.py, lines 48-52, 60-246). *)
Theorem anomaly_table_shape (cfg : Config) (ledger : option (Frame LedgerEntry))
    (out : Frame AnomalyRecord) :
  detect_anomalies cfg ledger = Ok out ->
  columns out = anomaly_columns /\
  Sorted timestamp_order (rows out) /\
  forall rec, In rec (rows out) ->
    In (anomalyType rec) anomaly_kinds /\
    exists l r, ledger = Some l /\ In r (rows l) /\ copies rec r.
Proof.
  intro H. destruct ledger as [ledger|];
    [|injection H as <-; repeat split; [constructor|contradiction|contradiction]].
  destruct (empty ledger) eqn:He.
  { unfold detect_anomalies in H. rewrite He in H. injection H as <-.
    repeat split; [constructor|contradiction|contradiction]. }
  destruct (detect_anomalies_ok _ _ _ H He) as (Hcols & Hperm).
  pose proof (detect_anomalies_rows _ _ _ H He) as Hrows.
  split; [exact Hcols|]. split.
  - rewrite Hrows. eapply Sorted_impl; [exact leb_by_timestamp_order|].
    apply sort_values_sorted. exact compare_anomalies_total.
  - intros rec Hin. apply (Permutation_in _ Hperm) in Hin.
    apply collected_from in Hin as (Hk & r & Hr & Hc).
    split; [exact Hk|]. exists ledger, r. split; [reflexivity|].
    split; [|exact Hc]. apply sort_values_In in Hr. exact Hr.
Qed.

(** X7.  On a ledger that is not empty: when [detect_anomalies]
    returns, the ledger has the columns timestamp, userId, id, action,
    type, source, amount and currency; when it raises, the error is a
    [KeyError] that names a column the ledger does not have; and without
    the timestamp column it raises [KeyError] for [timestamp]
    (anomalies.py, lines 55-58, 63, 80, 126, 144, 222). *)
Theorem detector_reads_its_columns (cfg : Config) (ledger : Frame LedgerEntry) :
  empty ledger = false ->
  (forall out, detect_anomalies cfg (Some ledger) = Ok out ->
     forallb (has_column ledger) always_read_columns = true) /\
  (forall e, detect_anomalies cfg (Some ledger) = Raise e ->
     exists c, e = KeyError c /\ has_column ledger c = false) /\
  (has_column ledger "timestamp" = false ->
   detect_anomalies cfg (Some ledger) = Raise (KeyError "timestamp")).
Proof.
  intro He. unfold detect_anomalies. rewrite He. split; [|split].
  - intros out H.
    apply bind_ok in H as (? & Hfirst & H).
    apply bind_ok in H as (l & Hl & _).
    apply passes_reads in Hl. cbn [forallb] in Hl.
    cbn [require_all] in Hfirst.
    apply bind_ok in Hfirst as (? & Hts & Hfirst). apply require_inv in Hts.
    apply bind_ok in Hfirst as (? & Hu & Hfirst). apply require_inv in Hu.
    apply bind_ok in Hfirst as (? & Hid & _). apply require_inv in Hid.
    unfold always_read_columns, has_column. cbn [forallb].
    rewrite Hts, Hu, Hid. exact Hl.
  - intros e H. unfold has_column.
    apply bind_raise in H as [H|(? & _ & H)]; [apply require_all_raise in H; exact H|].
    apply bind_raise in H as [H|(l & _ & H)]; [apply passes_raise in H; exact H|].
    destruct l; discriminate.
  - unfold has_column, require_all, require. intros ->. reflexivity.
Qed.

End DetectorShape.

(* ------------------------------------------------------------------ *)
(** * The anomaly detector: the remaining passes *)

Section TextFacts.

Lemma prefix_spec (pat s : string) :
  String.prefix pat s = true <-> exists post, s = (pat ++ post)%string.
Proof.
  revert s. induction pat as [|c pat IH]; intro s.
  - destruct s; cbn; (split; [intros _; eexists; reflexivity|reflexivity]).
  - destruct s as [|c' s]; cbn; [split; [discriminate|intros (post & H); discriminate]|].
    destruct (Ascii.ascii_dec c c') as [<-|Hne].
    + rewrite IH. split; intros (post & H); exists post; congruence.
    + split; [discriminate|]. intros (post & H). congruence.
Qed.

(** [contains] finds the pattern exactly when the text has it between
    some beginning and some end. *)
Lemma contains_spec (pat s : string) :
  Anomalies.contains pat s = true <-> exists pre post, s = (pre ++ pat ++ post)%string.
Proof.
  induction s as [|c s IH]; cbn [Anomalies.contains].
  - rewrite orb_false_r, prefix_spec. split.
    + intros (post & H). exists EmptyString, post. exact H.
    + intros ([|c pre] & post & H); [exists post; exact H|discriminate].
  - rewrite orb_true_iff, prefix_spec, IH. split.
    + intros [(post & H)|(pre & post & H)].
      * exists EmptyString, post. exact H.
      * exists (String c pre), post. cbn. congruence.
    + intros ([|c' pre] & post & H).
      * left. exists post. exact H.
      * right. exists pre, post. cbn in H. congruence.
Qed.

Lemma contains_ci_spec (pat s : string) :
  Anomalies.contains_ci pat s = true <-> mentions pat s.
Proof. unfold Anomalies.contains_ci, mentions. apply contains_spec. Qed.

End TextFacts.

Section MorePasses.

Import Compute Anomalies.
Context {conv : Float64Conv}.

Lemma opt_eqb_eq (a b : option string) : opt_eqb String.eqb a b = true <-> a = b.
Proof.
  destruct a as [x|], b as [y|]; cbn; try (split; (discriminate || reflexivity)).
  rewrite String.eqb_eq. split; congruence.
Qed.

Lemma same_tx_spec (a b : LedgerEntry) :
  same_tx a b = true <->
  userId (event a) = userId (event b) /\ id (event a) = id (event b).
Proof. unfold same_tx. rewrite andb_true_iff, !opt_eqb_eq. reflexivity. Qed.

(** Next to a row that passes a test, a filter of length two has a row
    at another position. *)
Lemma filter_other_position {A : Type} (f : A -> bool) (l : list A) (i : nat) (a : A) :
  nth_error l i = Some a -> f a = true -> (2 <= List.length (filter f l))%nat ->
  exists j b, j <> i /\ nth_error l j = Some b /\ f b = true.
Proof.
  revert i. induction l as [|x l IH]; intros i Hi Ha Hlen; [destruct i; discriminate|].
  destruct i as [|i]; cbn in Hi.
  - injection Hi as ->. cbn in Hlen. rewrite Ha in Hlen. cbn in Hlen.
    destruct (filter f l) as [|b rest] eqn:E; [cbn in Hlen; lia|].
    assert (Hb : In b (filter f l)) by (rewrite E; left; reflexivity).
    apply filter_In in Hb as [Hin Hfb].
    apply In_nth_error in Hin as (j & Hj).
    exists (S j), b. repeat split; auto.
  - destruct (f x) eqn:Ex.
    + exists 0%nat, x. repeat split; auto.
    + cbn in Hlen. rewrite Ex in Hlen.
      destruct (IH i Hi Ha Hlen) as (j & b & Hne & Hj & Hb).
      exists (S j), b. repeat split; auto.
Qed.

Lemma distinct_In (l : list string) (x : string) : In x (distinct l) <-> In x l.
Proof.
  induction l as [|a l IH]; cbn; [reflexivity|].
  rewrite filter_In, IH, negb_true_iff, String.eqb_neq.
  destruct (string_dec a x); intuition.
Qed.

(** [nunique() > 1]: two different values occur. *)
Lemma distinct_two (l : list string) :
  (2 <= List.length (distinct l))%nat <->
  exists x y, In x l /\ In y l /\ x <> y.
Proof.
  split.
  - destruct l as [|a l]; cbn; [lia|].
    destruct (filter _ (distinct l)) as [|b rest] eqn:E; cbn; [lia|]. intros _.
    assert (Hb : In b (filter (fun y => negb (String.eqb a y)) (distinct l)))
      by (rewrite E; left; reflexivity).
    apply filter_In in Hb as [Hin Hne]. apply (proj1 (distinct_In _ _)) in Hin.
    apply negb_true_iff, String.eqb_neq in Hne.
    exists a, b. cbn. auto.
  - intros (x & y & Hx & Hy & Hne).
    apply (proj2 (distinct_In _ _)) in Hx, Hy.
    destruct (distinct l) as [|a [|b rest]]; cbn in *; try lia; try contradiction.
    destruct Hx as [<-|[]], Hy as [<-|[]]. congruence.
Qed.

Lemma currencies_of_In (u c : string) (df : list LedgerEntry) :
  In c (currencies_of u df) <->
  exists r, In r df /\ userId (event r) = Some u /\ currency (event r) = Some c.
Proof.
  unfold currencies_of. rewrite distinct_In, in_flat_map. split.
  - intros (r & Hr & H). exists r. split; [exact Hr|].
    destruct (userId (event r)) as [u'|]; [|contradiction].
    destruct (currency (event r)) as [c'|]; [|contradiction].
    destruct (String.eqb_spec u u'); [|contradiction].
    destruct H as [<-|[]]. subst. auto.
  - intros (r & Hr & Hu & Hc). exists r. split; [exact Hr|].
    rewrite Hu, Hc, String.eqb_refl. left. reflexivity.
Qed.

(** A user with more than one currency. *)
Lemma mixed_user_spec (df : list LedgerEntry) (r : LedgerEntry) :
  mixed_user df r = true <->
  exists u r1 r2 c1 c2,
    userId (event r) = Some u /\
    In r1 df /\ userId (event r1) = Some u /\ currency (event r1) = Some c1 /\
    In r2 df /\ userId (event r2) = Some u /\ currency (event r2) = Some c2 /\
    c1 <> c2.
Proof.
  unfold mixed_user. destruct (userId (event r)) as [u|].
  - rewrite Nat.leb_le. unfold currencies_of. rewrite distinct_two. split.
    + intros (c1 & c2 & H1 & H2 & Hne).
      apply (proj2 (distinct_In _ _)) in H1, H2. fold (currencies_of u df) in H1, H2.
      apply currencies_of_In in H1 as (r1 & Hr1 & Hu1 & Hc1).
      apply currencies_of_In in H2 as (r2 & Hr2 & Hu2 & Hc2).
      exists u, r1, r2, c1, c2. auto 10.
    + intros (u' & r1 & r2 & c1 & c2 & [= <-] & Hr1 & Hu1 & Hc1 & Hr2 & Hu2 & Hc2 & Hne).
      exists c1, c2. repeat split; [| |exact Hne];
        apply (proj1 (distinct_In _ _)); fold (currencies_of u df);
        apply currencies_of_In; eauto.
  - split; [discriminate|]. intros (u & ? & ? & ? & ? & H & _). discriminate.
Qed.

(** A flagged row of a mask over shifted values, with the rows before
    it. *)
Lemma select_shift_In {K V : Type} (key_eqb : K -> K -> bool)
    (key : LedgerEntry -> option K) (val : LedgerEntry -> option V)
    (f : LedgerEntry -> option V -> bool) (l bef : list LedgerEntry) (x : LedgerEntry) :
  In x (select (map2 f l (group_shift_from key_eqb key val bef l)) l) ->
  exists pre, f x (shifted key_eqb key val x pre) = true.
Proof.
  revert bef. induction l as [|a l IH]; intros bef H; cbn in H; [contradiction|].
  destruct (f a (shifted key_eqb key val a bef)) eqn:E.
  - destruct H as [<-|H]; [exists bef; exact E|eauto].
  - eauto.
Qed.

Lemma shifted_key {K V : Type} (key_eqb : K -> K -> bool)
    (key : LedgerEntry -> option K) (val : LedgerEntry -> option V)
    (x : LedgerEntry) (pre : list LedgerEntry) :
  key x = None -> shifted key_eqb key val x pre = None.
Proof. unfold shifted, previous_in_group. intros ->. reflexivity. Qed.

Lemma is_nan_ltb (x y : float) :
  PrimFloat.is_nan x = true -> PrimFloat.ltb x y = false.
Proof.
  unfold PrimFloat.is_nan. rewrite FloatAxioms.eqb_spec, FloatAxioms.ltb_spec.
  unfold SpecFloat.SFeqb, SpecFloat.SFltb.
  destruct (FloatOps.Prim2SF x) as [s|s| |s m e]; cbn [SpecFloat.SFcompare].
  - discriminate.
  - destruct s; discriminate.
  - reflexivity.
  - change IntDef.Z.compare with Z.compare.
    change PosDef.Pos.compare_cont with Pos.compare_cont.
    rewrite Z.compare_refl, Pos.compare_cont_refl. destruct s; discriminate.
Qed.

(** What one entry of [gap_mask] tests. *)
Lemma burst_row_spec (r : LedgerEntry) (prev : option Z) :
  burst_row r prev = true <->
  exists tp tr, prev = Some tp /\ timestamp (event r) = Some tr /\
    PrimFloat.ltb (total_seconds (tr - tp)) PrimFloat.one = true.
Proof.
  unfold burst_row, gap_seconds. split.
  - intro H. apply andb_prop in H as [_ H].
    destruct (timestamp (event r)) as [tr|]; [|discriminate].
    destruct prev as [tp|]; [|discriminate].
    exists tp, tr. auto.
  - intros (tp & tr & -> & -> & H). rewrite H, andb_true_r.
    destruct (PrimFloat.is_nan (total_seconds (tr - tp))) eqn:E; [|reflexivity].
    rewrite (is_nan_ltb _ _ E) in H. discriminate.
Qed.

End MorePasses.

Section PassFacts.

Import Compute Anomalies.
Context {conv : Float64Conv}.

(** The rows of a result are the collected records. *)
Lemma detect_anomalies_In (cfg : Config) (ledger : Frame LedgerEntry)
    (out : Frame AnomalyRecord) (rec : AnomalyRecord) :
  detect_anomalies cfg (Some ledger) = Ok out -> empty ledger = false ->
  (In rec (rows out) <->
   In rec (collected cfg (columns ledger) (sort_values compare_entries (rows ledger)))).
Proof.
  intros H He. destruct (detect_anomalies_ok _ _ _ H He) as (_ & Hperm).
  split; apply Permutation_in; [exact Hperm|symmetry; exact Hperm].
Qed.

Lemma grouped_with_user (u : string) (p : LedgerEntry) :
  grouped_with String.eqb (fun r => userId (event r)) u p = true <->
  userId (event p) = Some u.
Proof.
  unfold grouped_with. destruct (userId (event p)) as [u'|]; [|split; discriminate].
  rewrite String.eqb_eq. split; congruence.
Qed.

Lemma grouped_with_user_false (u : string) (p : LedgerEntry) :
  grouped_with String.eqb (fun r => userId (event r)) u p = false <->
  userId (event p) <> Some u.
Proof.
  rewrite <- grouped_with_user. destruct (grouped_with _ _ u p); split; congruence.
Qed.


End PassFacts.

Section OtherPasses.

Import Compute Anomalies.
Context {conv : Float64Conv}.

(** X8.  The InvalidAction records of a result are the records of the
    ledger rows whose action is known and has INVALID or INVAILID
    somewhere in it, in any mix of upper and lower case; a row without an
    action gives none (anomalies.py, lines 63-77). *)
Theorem invalid_action_iff (cfg : Config) (ledger : Frame LedgerEntry)
    (out : Frame AnomalyRecord) (rec : AnomalyRecord) :
  detect_anomalies cfg (Some ledger) = Ok out -> empty ledger = false ->
  (In rec (rows out) /\ anomalyType rec = "InvalidAction"%string <->
   exists r a,
     In r (rows ledger) /\ action (event r) = Some a /\
     (mentions "INVALID" a \/ mentions "INVAILID" a) /\
     rec = record "InvalidAction" ActionContainsInvalid r).
Proof.
  intros H He. rewrite (detect_anomalies_In _ _ _ _ H He). split.
  - intros [Hin Hk]. apply collected_more_kinds in Hin as (Hinv & _).
    specialize (Hinv Hk). unfold invalid_actions in Hinv.
    apply in_map_iff in Hinv as (r & <- & Hr).
    apply filter_In in Hr as [Hr Ha]. apply sort_values_In in Hr.
    destruct (action (event r)) as [a|] eqn:Ea; [|discriminate Ha].
    exists r, a. cbn [py_str] in Ha. apply orb_prop in Ha.
    rewrite !contains_ci_spec in Ha. auto.
  - intros (r & a & Hr & Ha & Hm & ->). split; [|reflexivity].
    unfold collected. apply in_or_app. left.
    unfold invalid_actions. apply in_map. apply filter_In.
    split; [apply sort_values_In; exact Hr|].
    rewrite Ha. cbn [py_str]. apply orb_true_iff.
    rewrite !contains_ci_spec. exact Hm.
Qed.

(** X9.  The MissingField records of a result are, for every ledger
    row and each of its type, source and action that is unknown or made
    of white space only, one record naming that column: a row with two
    such cells gives two records.  Such a record reads [oldBalance] and
    [newBalance] with [row.get], so a column the ledger lacks shows as
    unknown (anomalies.py, lines 124-141). *)
Theorem missing_field_iff (cfg : Config) (ledger : Frame LedgerEntry)
    (out : Frame AnomalyRecord) (rec : AnomalyRecord) :
  detect_anomalies cfg (Some ledger) = Ok out -> empty ledger = false ->
  (In rec (rows out) /\ anomalyType rec = "MissingField"%string <->
   exists r col cell,
     In r (rows ledger) /\
     In (col, cell) [("type", type (event r)); ("source", source (event r));
                     ("action", action (event r))]%string /\
     blank cell = true /\
     rec = missing_record (has_column ledger "oldBalance")
             (has_column ledger "newBalance") col r).
Proof.
  intros H He. rewrite (detect_anomalies_In _ _ _ _ H He). unfold has_column. split.
  - intros [Hin Hk]. apply collected_more_kinds in Hin as (_ & Hmis & _).
    specialize (Hmis Hk). unfold missing_fields in Hmis.
    rewrite !in_app_iff, !in_map_iff in Hmis.
    destruct Hmis as [(r & <- & Hr)|[(r & <- & Hr)|(r & <- & Hr)]];
      apply filter_In in Hr as [Hr Hb]; apply sort_values_In in Hr;
      exists r; eexists _, _; (split; [exact Hr|]);
      (split; [|split; [exact Hb|reflexivity]]); cbn; auto.
  - intros (r & col & cell & Hr & Hc & Hb & ->). split; [|reflexivity].
    apply (sort_values_In compare_entries) in Hr.
    unfold collected. rewrite !in_app_iff. right. right. right. left.
    unfold missing_fields. rewrite !in_app_iff.
    destruct Hc as [[= <- <-]|[[= <- <-]|[[= <- <-]|[]]]];
      [left|right; left|right; right]; apply in_map; apply filter_In; auto.
Qed.

(** X10.  The CurrencyMismatch records of a result are the records of
    all the rows of every user who has two rows with different known
    currencies; the rows of a user with one currency, and the rows
    without a user, give none (anomalies.py, lines 221-237). *)
Theorem currency_mismatch_iff (cfg : Config) (ledger : Frame LedgerEntry)
    (out : Frame AnomalyRecord) (rec : AnomalyRecord) :
  detect_anomalies cfg (Some ledger) = Ok out -> empty ledger = false ->
  (In rec (rows out) /\ anomalyType rec = "CurrencyMismatch"%string <->
   exists r u r1 r2 c1 c2,
     In r (rows ledger) /\ rec = record "CurrencyMismatch" MultipleCurrencies r /\
     userId (event r) = Some u /\
     In r1 (rows ledger) /\ userId (event r1) = Some u /\ currency (event r1) = Some c1 /\
     In r2 (rows ledger) /\ userId (event r2) = Some u /\ currency (event r2) = Some c2 /\
     c1 <> c2).
Proof.
  intros H He. rewrite (detect_anomalies_In _ _ _ _ H He). split.
  - intros [Hin Hk]. apply collected_more_kinds in Hin as (_ & _ & Hcur).
    specialize (Hcur Hk). unfold currency_mismatches in Hcur.
    apply in_map_iff in Hcur as (r & <- & Hr).
    apply filter_In in Hr as [Hr Hm]. apply sort_values_In in Hr.
    apply mixed_user_spec in Hm
      as (u & r1 & r2 & c1 & c2 & Hu & Hr1 & Hu1 & Hc1 & Hr2 & Hu2 & Hc2 & Hne).
    apply sort_values_In in Hr1, Hr2.
    exists r, u, r1, r2, c1, c2. auto 12.
  - intros (r & u & r1 & r2 & c1 & c2 & Hr & -> & Hu & Hr1 & Hu1 & Hc1 & Hr2 & Hu2 & Hc2 & Hne).
    split; [|reflexivity].
    apply (sort_values_In compare_entries) in Hr, Hr1, Hr2.
    unfold collected. rewrite !in_app_iff. do 8 right.
    unfold currency_mismatches. apply in_map. apply filter_In. split; [exact Hr|].
    apply mixed_user_spec. exists u, r1, r2, c1, c2. auto 12.
Qed.

(** X11.  In a frame, the row after the rows [pre] is flagged by the
    Burst pass exactly when the nearest earlier row of the same user has
    a timestamp, the row has one too, and the seconds between them are
    less than one; the first row of a user is never flagged.  The Burst
    records of a result are the records of the rows so flagged in the
    frame sorted by (userId, timestamp, id) (anomalies.py, lines
    202-219). *)
Theorem burst_iff (cfg : Config) :
  (forall pre r post,
     nth (List.length pre) (gap_mask (pre ++ r :: post)) false = true <->
     exists u pre1 p pre2 tp tr,
       userId (event r) = Some u /\ pre = pre1 ++ p :: pre2 /\
       userId (event p) = Some u /\
       (forall y, In y pre2 -> userId (event y) <> Some u) /\
       timestamp (event p) = Some tp /\ timestamp (event r) = Some tr /\
       PrimFloat.ltb (total_seconds (tr - tp)) PrimFloat.one = true) /\
  (forall ledger out rec,
     detect_anomalies cfg (Some ledger) = Ok out -> empty ledger = false ->
     (In rec (rows out) /\ anomalyType rec = "Burst"%string <->
      In rec (bursts (sort_values compare_entries (rows ledger))))).
Proof.
  split.
  - intros pre r post. unfold gap_mask, group_shift.
    rewrite map2_group_shift_at, app_nil_r, burst_row_spec. split.
    + intros (tp & tr & Hprev & Htr & Hg).
      apply shifted_some in Hprev as (u & pre1 & p & pre2 & Hu & Hpre & Hp & Hno & Hv).
      exists u, pre1, p, pre2, tp, tr.
      apply grouped_with_user in Hp.
      repeat split; try assumption.
      intros y Hy. apply grouped_with_user_false. auto.
    + intros (u & pre1 & p & pre2 & tp & tr & Hu & Hpre & Hp & Hno & Hv & Htr & Hg).
      exists tp, tr. repeat split; try assumption.
      apply shifted_some. exists u, pre1, p, pre2.
      repeat split; try assumption.
      * apply grouped_with_user. exact Hp.
      * intros y Hy. apply grouped_with_user_false. auto.
  - intros ledger out rec H He. rewrite (detect_anomalies_In _ _ _ _ H He). split.
    + intros [Hin Hk]. apply collected_kinds in Hin. apply Hin. exact Hk.
    + intro Hin. split.
      * unfold collected. rewrite !in_app_iff. auto 10.
      * unfold bursts in Hin. apply in_map_iff in Hin as (r & <- & _). reflexivity.
Qed.

(** X12.  A DuplicateTxId record of a result is the record of a ledger
    row that shares its (userId, id) with a row at another position of
    the ledger, two unknown cells counting as equal: a transaction id used
    once is never reported (anomalies.py, lines 107-122). *)
Theorem duplicate_tx_id_has_a_partner (cfg : Config) (ledger : Frame LedgerEntry)
    (out : Frame AnomalyRecord) (rec : AnomalyRecord) :
  detect_anomalies cfg (Some ledger) = Ok out -> empty ledger = false ->
  In rec (rows out) -> anomalyType rec = "DuplicateTxId"%string ->
  exists i j r1 r2,
    i <> j /\
    nth_error (rows ledger) i = Some r1 /\ nth_error (rows ledger) j = Some r2 /\
    userId (event r1) = userId (event r2) /\ id (event r1) = id (event r2) /\
    rec = record "DuplicateTxId" DuplicateTransactionId r1.
Proof.
  intros H He Hin Hk. apply (detect_anomalies_In _ _ _ _ H He) in Hin.
  apply collected_kinds in Hin as (_ & Hdup & _). specialize (Hdup Hk).
  unfold duplicate_ids, dup_id_mask in Hdup. rewrite select_map in Hdup.
  apply in_map_iff in Hdup as (r1 & <- & Hr).
  apply filter_In in Hr as [Hr Hlen]. apply Nat.leb_le in Hlen.
  apply sort_values_In in Hr.
  rewrite (filter_length_perm _ _ _ (sort_values_perm compare_entries (rows ledger)))
    in Hlen.
  apply In_nth_error in Hr as (i & Hi).
  assert (Hself : same_tx r1 r1 = true) by (apply same_tx_spec; auto).
  destruct (filter_other_position _ _ _ _ Hi Hself Hlen) as (j & r2 & Hne & Hj & Hs).
  apply same_tx_spec in Hs as [Hu Hid].
  exists i, j, r1, r2. auto 10.
Qed.

(** X13.  A record of a result whose userId is unknown is never a
    MADSpike, a RapidManualDeduction, a Burst or a CurrencyMismatch: the
    passes that group by user leave out the rows without one
    (anomalies.py, lines 80, 144, 203, 222-224). *)
Theorem rows_without_user_skip_the_grouped_passes (cfg : Config)
    (ledger : option (Frame LedgerEntry)) (out : Frame AnomalyRecord)
    (rec : AnomalyRecord) :
  detect_anomalies cfg ledger = Ok out -> In rec (rows out) ->
  a_userId rec = None ->
  ~ In (anomalyType rec)
      ["MADSpike"; "RapidManualDeduction"; "Burst"; "CurrencyMismatch"]%string.
Proof.
  intros H Hin Hu.
  destruct ledger as [ledger|]; [|injection H as <-; contradiction].
  destruct (empty ledger) eqn:He.
  { unfold detect_anomalies in H. rewrite He in H. injection H as <-. contradiction. }
  apply (detect_anomalies_In _ _ _ _ H He) in Hin.
  pose proof (collected_kinds _ _ _ _ Hin) as (Hmad & _ & Hrapid & _ & _ & Hburst).
  pose proof (collected_more_kinds _ _ _ _ Hin) as (_ & _ & Hcur).
  cbn zeta in *. intros [Hk|[Hk|[Hk|[Hk|[]]]]]; symmetry in Hk.
  - specialize (Hmad Hk). unfold mad_spikes in Hmad.
    apply in_flat_map in Hmad as (k & _ & Hr). apply in_map_iff in Hr as (r & <- & Hr).
    apply spikes_of_group_In in Hr. apply filter_In in Hr as [_ Hg].
    apply in_group_iff in Hg. unfold user_type_key in Hg. cbn in Hu.
    rewrite Hu in Hg. discriminate.
  - specialize (Hrapid Hk). unfold rapid_deductions, rapid_mask, group_shift in Hrapid.
    apply in_map_iff in Hrapid as (r & <- & Hr).
    apply select_shift_In in Hr as (pre & Hr).
    rewrite shifted_key in Hr.
    + unfold rapid_row in Hr. rewrite andb_false_r in Hr. discriminate.
    + unfold rapid_key. cbn in Hu. rewrite Hu. reflexivity.
  - specialize (Hburst Hk). unfold bursts, gap_mask, group_shift in Hburst.
    apply in_map_iff in Hburst as (r & <- & Hr).
    apply select_shift_In in Hr as (pre & Hr).
    rewrite shifted_key in Hr by exact Hu.
    apply burst_row_spec in Hr as (? & ? & Hr & _). discriminate.
  - specialize (Hcur Hk). unfold currency_mismatches in Hcur.
    apply in_map_iff in Hcur as (r & <- & Hr). apply filter_In in Hr as [_ Hm].
    unfold mixed_user in Hm. cbn in Hu. rewrite Hu in Hm. discriminate.
Qed.

End OtherPasses.

Section Relay.

Import Compute Anomalies.
Context {conv : Float64Conv}.


End Relay.

(* ------------------------------------------------------------------ *)
(** * The further properties on the sample events *)

Section LedgerWitnesses.

Import Compute.

Lemma ledger_entries_are_the_sync_events_witness :
  build_ledger default_config [MoreSamples.skipped; Samples.credit_100]
    = Ok (mkFrame ledger_columns [Samples.entry_100]) /\
  Permutation (map event [Samples.entry_100])
    (filter is_balance_sync [MoreSamples.skipped; Samples.credit_100]).
Proof.
  assert (Hb : build_ledger default_config [MoreSamples.skipped; Samples.credit_100]
               = Ok (mkFrame ledger_columns [Samples.entry_100]))
    by (vm_compute; reflexivity).
  split; [exact Hb|].
  exact (proj1 (ledger_entries_are_the_sync_events _ _ _ Hb)).
Defined.

Lemma overdraft_flag_and_reason_witness :
  build_ledger default_config [MoreSamples.debit_overdrawn]
    = Ok (mkFrame ledger_columns [MoreSamples.entry_overdrawn]) /\
  In MoreSamples.entry_overdrawn [MoreSamples.entry_overdrawn] /\
  negative_value (expected_value MoreSamples.entry_overdrawn) /\
  negative_value (rounded_actual default_config MoreSamples.entry_overdrawn).
Proof.
  assert (Hb : build_ledger default_config [MoreSamples.debit_overdrawn]
               = Ok (mkFrame ledger_columns [MoreSamples.entry_overdrawn]))
    by (vm_compute; reflexivity).
  assert (Hin : In MoreSamples.entry_overdrawn
                  (rows (mkFrame ledger_columns [MoreSamples.entry_overdrawn])))
    by (left; reflexivity).
  split; [exact Hb|]. split; [exact Hin|].
  destruct (overdraft_flag_and_reason _ _ _ _ Hb Hin) as (_ & Hboth & _).
  apply Hboth. reflexivity.
Defined.




End LedgerWitnesses.

Section DetectorWitnesses.

Import Compute Anomalies.

Lemma anomaly_table_shape_witness :
  exists out,
    detect_anomalies Samples.detector_config (Some Samples.twice_ledger) = Ok out /\
    columns out = anomaly_columns /\
    Sorted timestamp_order (rows out) /\
    rows out <> [].
Proof.
  destruct (detect_anomalies Samples.detector_config (Some Samples.twice_ledger))
    as [out|err] eqn:Hout; [|vm_compute in Hout; discriminate Hout].
  exists out. split; [reflexivity|].
  destruct (anomaly_table_shape _ _ _ Hout) as (Hcols & Hsorted & _).
  split; [exact Hcols|]. split; [exact Hsorted|].
  vm_compute in Hout. injection Hout as <-. discriminate.
Defined.

Lemma detector_reads_its_columns_witness :
  empty MoreSamples.untimed_ledger = false /\
  has_column MoreSamples.untimed_ledger "timestamp" = false /\
  detect_anomalies Samples.detector_config (Some MoreSamples.untimed_ledger)
    = Raise (KeyError "timestamp").
Proof.
  assert (He : empty MoreSamples.untimed_ledger = false) by reflexivity.
  split; [exact He|]. split; [reflexivity|].
  destruct (detector_reads_its_columns Samples.detector_config
              MoreSamples.untimed_ledger He) as (_ & _ & Hts).
  apply Hts. reflexivity.
Defined.

Lemma invalid_action_iff_witness :
  exists out,
    detect_anomalies Samples.detector_config (Some MoreSamples.invalid_ledger) = Ok out /\
    empty MoreSamples.invalid_ledger = false /\
    In (record "InvalidAction" ActionContainsInvalid MoreSamples.invalid_row) (rows out).
Proof.
  destruct (detect_anomalies Samples.detector_config (Some MoreSamples.invalid_ledger))
    as [out|err] eqn:Hout; [|vm_compute in Hout; discriminate Hout].
  exists out. split; [reflexivity|]. split; [reflexivity|].
  apply (invalid_action_iff _ _ _ _ Hout eq_refl).
  exists MoreSamples.invalid_row, "invalid_refund"%string.
  split; [left; reflexivity|]. split; [reflexivity|]. split; [|reflexivity].
  left. exists EmptyString, "_REFUND"%string. reflexivity.
Defined.

Lemma missing_field_iff_witness :
  exists out,
    detect_anomalies Samples.detector_config (Some MoreSamples.blank_ledger) = Ok out /\
    empty MoreSamples.blank_ledger = false /\
    In (missing_record true true "type" MoreSamples.blank_row) (rows out) /\
    In (missing_record true true "source" MoreSamples.blank_row) (rows out).
Proof.
  destruct (detect_anomalies Samples.detector_config (Some MoreSamples.blank_ledger))
    as [out|err] eqn:Hout; [|vm_compute in Hout; discriminate Hout].
  exists out. split; [reflexivity|]. split; [reflexivity|].
  split; apply (missing_field_iff _ _ _ _ Hout eq_refl).
  - exists MoreSamples.blank_row, "type"%string, None.
    split; [left; reflexivity|]. split; [left; reflexivity|]. split; reflexivity.
  - exists MoreSamples.blank_row, "source"%string, (Some "  "%string).
    split; [left; reflexivity|]. split; [right; left; reflexivity|]. split; reflexivity.
Defined.

Lemma currency_mismatch_iff_witness :
  exists out,
    detect_anomalies Samples.detector_config (Some MoreSamples.mixed_ledger) = Ok out /\
    empty MoreSamples.mixed_ledger = false /\
    In (record "CurrencyMismatch" MultipleCurrencies MoreSamples.sar_row) (rows out) /\
    In (record "CurrencyMismatch" MultipleCurrencies MoreSamples.bhd_row) (rows out).
Proof.
  destruct (detect_anomalies Samples.detector_config (Some MoreSamples.mixed_ledger))
    as [out|err] eqn:Hout; [|vm_compute in Hout; discriminate Hout].
  exists out. split; [reflexivity|]. split; [reflexivity|].
  split; apply (currency_mismatch_iff _ _ _ _ Hout eq_refl).
  - exists MoreSamples.sar_row, "u1"%string, MoreSamples.sar_row, MoreSamples.bhd_row,
      "SAR"%string, "BHD"%string.
    repeat split; try reflexivity; try discriminate; cbn; auto.
  - exists MoreSamples.bhd_row, "u1"%string, MoreSamples.sar_row, MoreSamples.bhd_row,
      "SAR"%string, "BHD"%string.
    repeat split; try reflexivity; try discriminate; cbn; auto.
Defined.

Lemma burst_iff_witness :
  nth 1 (gap_mask [MoreSamples.sar_row; MoreSamples.bhd_row]) false = true /\
  exists out,
    detect_anomalies Samples.detector_config (Some MoreSamples.mixed_ledger) = Ok out /\
    empty MoreSamples.mixed_ledger = false /\
    In (record "Burst" TransactionsWithinOneSecond MoreSamples.bhd_row) (rows out).
Proof.
  destruct (burst_iff Samples.detector_config) as (Hmask & Hrec).
  split.
  - apply (Hmask [MoreSamples.sar_row] MoreSamples.bhd_row []).
    exists "u1"%string, [], MoreSamples.sar_row, [], 0, 500000000.
    split; [reflexivity|]. split; [reflexivity|]. split; [reflexivity|].
    split; [intros y []|]. split; [reflexivity|]. split; [reflexivity|].
    vm_compute. reflexivity.
  - destruct (detect_anomalies Samples.detector_config (Some MoreSamples.mixed_ledger))
      as [out|err] eqn:Hout; [|vm_compute in Hout; discriminate Hout].
    exists out. split; [reflexivity|]. split; [reflexivity|].
    apply (Hrec _ _ _ Hout eq_refl). vm_compute. left. reflexivity.
Defined.

Lemma duplicate_tx_id_has_a_partner_witness :
  exists out rec,
    detect_anomalies Samples.detector_config (Some Samples.twice_ledger) = Ok out /\
    empty Samples.twice_ledger = false /\
    In rec (rows out) /\ anomalyType rec = "DuplicateTxId"%string /\
    exists i j r1 r2,
      i <> j /\
      nth_error (rows Samples.twice_ledger) i = Some r1 /\
      nth_error (rows Samples.twice_ledger) j = Some r2 /\
      userId (event r1) = userId (event r2) /\ id (event r1) = id (event r2) /\
      rec = record "DuplicateTxId" DuplicateTransactionId r1.
Proof.
  destruct (detect_anomalies Samples.detector_config (Some Samples.twice_ledger))
    as [out|err] eqn:Hout; [|vm_compute in Hout; discriminate Hout].
  exists out, (record "DuplicateTxId" DuplicateTransactionId (Samples.plain Samples.twice_1)).
  assert (Hin : In (record "DuplicateTxId" DuplicateTransactionId
                      (Samples.plain Samples.twice_1)) (rows out)).
  { vm_compute in Hout. injection Hout as <-. vm_compute. left. reflexivity. }
  split; [reflexivity|]. split; [reflexivity|]. split; [exact Hin|].
  split; [reflexivity|].
  exact (duplicate_tx_id_has_a_partner _ _ _ _ Hout eq_refl Hin eq_refl).
Defined.

Lemma rows_without_user_skip_the_grouped_passes_witness :
  exists out,
    detect_anomalies Samples.detector_config (Some MoreSamples.blank_ledger) = Ok out /\
    In (missing_record true true "type" MoreSamples.blank_row) (rows out) /\
    a_userId (missing_record true true "type" MoreSamples.blank_row) = None /\
    ~ In (anomalyType (missing_record true true "type" MoreSamples.blank_row))
        ["MADSpike"; "RapidManualDeduction"; "Burst"; "CurrencyMismatch"]%string.
Proof.
  destruct (detect_anomalies Samples.detector_config (Some MoreSamples.blank_ledger))
    as [out|err] eqn:Hout; [|vm_compute in Hout; discriminate Hout].
  exists out. split; [reflexivity|].
  assert (Hin : In (missing_record true true "type" MoreSamples.blank_row) (rows out)).
  { vm_compute in Hout. injection Hout as <-. vm_compute. left. reflexivity. }
  split; [exact Hin|]. split; [reflexivity|].
  exact (rows_without_user_skip_the_grouped_passes _ _ _ _ Hout Hin eq_refl).
Defined.


End DetectorWitnesses.

(* ------------------------------------------------------------------ *)
(** * Decimal places, the reconciliation table and the presets *)

Section CurrencyDecimals.

Import Compute.

Lemma upper_ascii_idem (c : ascii) : upper_ascii (upper_ascii c) = upper_ascii c.
Proof. destruct c as [[] [] [] [] [] [] [] []]; reflexivity. Qed.

Lemma upper_idem (s : string) : upper (upper s) = upper s.
Proof.
  induction s as [|c s IH]; cbn; [reflexivity|].
  rewrite upper_ascii_idem, IH. reflexivity.
Qed.

(** A key that is not in upper case is never the one [upper] looks up. *)
Lemma dict_get_skips {V : Type} (d1 d2 : list (string * V)) (k : string) (v : V)
    (cur : string) (default : V) :
  upper k <> k ->
  dict_get (d1 ++ (k, v) :: d2) (upper cur) default = dict_get (d1 ++ d2) (upper cur) default.
Proof.
  intro Hk. induction d1 as [|[k' v'] d1 IH]; cbn.
  - destruct (String.eqb_spec (upper cur) k) as [E|_]; [|reflexivity].
    exfalso. apply Hk. rewrite <- E. apply upper_idem.
  - rewrite IH. reflexivity.
Qed.

(** X15.  The decimal places of a currency do not depend on the case it
    is written in; without a mapping, and with an empty one likewise, SAR
    has three places, BHD four and any other currency the default
    number; and an entry of the mapping whose key is not in upper case is
    never used (compute.py, lines 39 and 56-58). *)
Theorem decimals_of_currency (cfg : Config) (cur : string) :
  get_decimals cfg (upper cur) = get_decimals cfg cur /\
  (currency_decimals cfg = None \/ currency_decimals cfg = Some [] ->
   get_decimals cfg cur =
     if String.eqb (upper cur) "SAR" then 3
     else if String.eqb (upper cur) "BHD" then 4 else decimals cfg) /\
  (forall d1 k v d2,
     currency_decimals cfg = Some (d1 ++ (k, v) :: d2) -> upper k <> k ->
     get_decimals cfg cur = dict_get (d1 ++ d2) (upper cur) (decimals cfg)).
Proof.
  unfold get_decimals. split; [|split].
  - rewrite upper_idem. reflexivity.
  - unfold effective_currency_decimals. intros [->| ->]; reflexivity.
  - intros d1 k v d2 Hd Hk. unfold effective_currency_decimals. rewrite Hd.
    destruct (d1 ++ (k, v) :: d2) eqn:E; [destruct d1; discriminate|].
    rewrite <- E. apply dict_get_skips. exact Hk.
Qed.

End CurrencyDecimals.

Section ReconciliationFacts.

Import Compute Reconciliation.

Lemma existsb_eqb_In (c : string) (l : list string) :
  existsb (String.eqb c) l = true <-> In c l.
Proof.
  rewrite existsb_exists. split.
  - intros (x & Hx & E). apply String.eqb_eq in E. congruence.
  - intro H. exists c. split; [exact H|apply String.eqb_refl].
Qed.

Lemma has_column_filter (ledger : Frame LedgerEntry) (cs : list string)
    (rs : list LedgerEntry) (c : string) :
  In c cs ->
  has_column (mkFrame (filter (has_column ledger) cs) rs) c = has_column ledger c.
Proof.
  intro Hc. unfold has_column at 1. cbn [columns].
  destruct (has_column ledger c) eqn:E.
  - apply existsb_eqb_In. apply filter_In. auto.
  - apply not_true_is_false. intro H. apply existsb_eqb_In in H.
    apply filter_In in H as [_ H]. congruence.
Qed.

Lemma filter_has_column_twice (ledger : Frame LedgerEntry) (cs : list string)
    (rs : list LedgerEntry) :
  filter (has_column (mkFrame (filter (has_column ledger) cs) rs)) cs
  = filter (has_column ledger) cs.
Proof. apply filter_ext_in. intros c Hc. apply has_column_filter. exact Hc. Qed.

(** X16.  The reconciliation table never changes the rows and never has
    a column the ledger lacks.  An empty ledger comes back as it is, with
    all its columns; of a ledger with rows the table has exactly the
    listed columns that the ledger has.  Building the table of a table
    changes nothing (compute.py, lines 193-218). *)
Theorem reconciliation_is_a_projection (ledger : Frame LedgerEntry) :
  rows (build_reconciliation ledger) = rows ledger /\
  (forall c, In c (columns (build_reconciliation ledger)) -> In c (columns ledger)) /\
  (empty ledger = true -> build_reconciliation ledger = ledger) /\
  (empty ledger = false ->
   forall c, In c (columns (build_reconciliation ledger)) <->
             In c cols /\ In c (columns ledger)) /\
  build_reconciliation (build_reconciliation ledger) = build_reconciliation ledger.
Proof.
  unfold build_reconciliation.
  destruct (empty ledger) eqn:He.
  - rewrite He. repeat split; auto; discriminate.
  - cbn [rows columns].
    assert (Hin : forall c, In c (filter (has_column ledger) cols) <->
                            In c cols /\ In c (columns ledger)).
    { intro c. rewrite filter_In. unfold has_column. rewrite existsb_eqb_In. reflexivity. }
    split; [reflexivity|]. split; [intros c Hc; apply Hin in Hc; tauto|].
    split; [discriminate|]. split; [intros _; exact Hin|].
    destruct (empty (mkFrame (filter (has_column ledger) cols) (rows ledger)));
      [reflexivity|].
    cbn [rows]. rewrite filter_has_column_twice. reflexivity.
Qed.


End ReconciliationFacts.

Section ReportFacts.

Import Compute Report.

(** X18.  A preset named [accounting], in any mix of upper and lower
    case, gives the list of columns of the reconciliation table, and one
    named [full] gives no list, whatever files there are: a file of such
    a name is never read.  So with the preset [accounting] the Ledger
    sheet of a ledger that is not empty is its reconciliation table, and
    with [full] or without a preset it is the ledger (report.py, lines
    86-90 and 209-231; compute.py, lines 199-217). *)
Theorem accounting_preset_is_the_reconciliation (load_list : string -> option (list string))
    (s : string) (ledger : Frame LedgerEntry) :
  (lower s = "accounting"%string ->
   _load_column_preset load_list (Some (Name s)) = Some Reconciliation.cols /\
   (empty ledger = false ->
    ledger_sheet (_load_column_preset load_list (Some (Name s))) ledger
    = Reconciliation.build_reconciliation ledger)) /\
  (lower s = "full"%string ->
   ledger_sheet (_load_column_preset load_list (Some (Name s))) ledger = ledger) /\
  ledger_sheet (_load_column_preset load_list None) ledger = ledger.
Proof.
  split; [|split].
  - intro Hs. unfold _load_column_preset. rewrite Hs.
    change (("accounting" =? "full")%string) with false.
    change (("accounting" =? "accounting")%string) with true. cbv iota.
    split; [reflexivity|].
    intro He. unfold ledger_sheet, Reconciliation.build_reconciliation.
    rewrite He. reflexivity.
  - intro Hs. unfold _load_column_preset. rewrite Hs. reflexivity.
  - reflexivity.
Qed.

End ReportFacts.

(* ------------------------------------------------------------------ *)
(** * The parser: quoted scalars and matching braces *)

Section ParserFacts.

Import Parser.

Lemma lstrip_spaces (ws t : string) :
  Anomalies.all_space ws = true -> lstrip (ws ++ t) = lstrip t.
Proof.
  induction ws as [|c ws IH]; cbn; [reflexivity|].
  intro H. apply andb_prop in H as [Hc Hws]. rewrite Hc. auto.
Qed.

Lemma rstrip_spaces_only (ws : string) :
  Anomalies.all_space ws = true -> rstrip ws = EmptyString.
Proof.
  induction ws as [|c ws IH]; cbn; [reflexivity|].
  intro H. apply andb_prop in H as [Hc Hws]. rewrite (IH Hws), Hc. reflexivity.
Qed.

(** Text that ends in a character other than white space loses only
    what follows it. *)
Lemma rstrip_after (t : string) (c : ascii) (ws : string) :
  Anomalies.is_space c = false -> Anomalies.all_space ws = true ->
  rstrip (t ++ String c ws) = (t ++ String c EmptyString)%string.
Proof.
  intros Hc Hws. induction t as [|a t IH]; cbn [append rstrip].
  - rewrite (rstrip_spaces_only _ Hws), Hc. reflexivity.
  - rewrite IH. destruct t; reflexivity.
Qed.

Lemma endswith_last (t : string) (q : ascii) :
  endswith q (t ++ String q EmptyString) = true.
Proof.
  induction t as [|a t IH]; cbn [append endswith]; [apply Ascii.eqb_refl|].
  destruct (t ++ String q EmptyString)%string eqn:E; [destruct t; discriminate|].
  exact IH.
Qed.

Lemma drop_last_last (t : string) (q : ascii) :
  drop_last (t ++ String q EmptyString) = t.
Proof.
  induction t as [|a t IH]; cbn [append drop_last]; [reflexivity|].
  destruct (t ++ String q EmptyString)%string eqn:E; [destruct t; discriminate|].
  rewrite IH. reflexivity.
Qed.

(** X19.  Text between two single quotes, or between two double quotes,
    comes back as it is, without the quotes and as text, whatever white
    space surrounds the quotes and whatever stands between them: it is
    not read as a number, a truth value or a null.  A quote that stands
    alone gives the empty text (parser.py, lines 29-33). *)
Theorem quoted_text_is_kept (int_of : string -> option Z)
    (float_of : string -> option PrimFloat.float) (q : ascii) (s ws1 ws2 : string) :
  q = single_quote \/ q = double_quote ->
  Anomalies.all_space ws1 = true -> Anomalies.all_space ws2 = true ->
  coerce_scalar int_of float_of (ws1 ++ String q (s ++ String q ws2)) = Text s /\
  coerce_scalar int_of float_of (ws1 ++ String q ws2) = Text EmptyString.
Proof.
  intros Hq H1 H2.
  assert (Hsp : Anomalies.is_space q = false) by (destruct Hq as [-> | ->]; reflexivity).
  assert (Hquoted : forall v,
            startswith q v = true -> endswith q v = true ->
            (startswith single_quote v && endswith single_quote v) ||
            (startswith double_quote v && endswith double_quote v) = true).
  { intros v Hs He. destruct Hq as [-> | ->]; rewrite Hs, He;
      [reflexivity|apply orb_true_r]. }
  split.
  - unfold coerce_scalar, strip. rewrite (lstrip_spaces _ _ H1).
    cbn [lstrip]. rewrite Hsp.
    change (String q (s ++ String q ws2)) with ((String q s) ++ String q ws2)%string.
    rewrite (rstrip_after _ _ _ Hsp H2).
    rewrite Hquoted.
    + cbn [append inner]. rewrite drop_last_last. reflexivity.
    + cbn. apply Ascii.eqb_refl.
    + apply endswith_last.
  - unfold coerce_scalar, strip. rewrite (lstrip_spaces _ _ H1).
    cbn [lstrip]. rewrite Hsp.
    change (String q ws2) with (EmptyString ++ String q ws2)%string.
    rewrite (rstrip_after _ _ _ Hsp H2). cbn [append].
    rewrite Hquoted; [reflexivity| |]; cbn; apply Ascii.eqb_refl.
Qed.

End ParserFacts.

Section BraceFacts.

Import BraceScan.

Lemma first_chars_S (n : nat) (c : ascii) (s : string) :
  first_chars (S n) (String c s) = String c (first_chars n s).
Proof. reflexivity. Qed.

Lemma first_chars_0 (s : string) : first_chars 0 s = EmptyString.
Proof. destruct s; reflexivity. Qed.

(** The scan stops at the first closing brace that brings the count to
    zero. *)
Lemma scan_spec (text : string) (brace : Z) (idx : nat) (n : nat) :
  scan text brace idx = Some n <->
  exists k, n = (idx + k)%nat /\ String.get k text = Some closing /\
    brace + balance (first_chars (S k) text) = 0 /\
    forall m, (m < k)%nat -> String.get m text = Some closing ->
      brace + balance (first_chars (S m) text) <> 0.
Proof.
  revert brace idx. induction text as [|ch rest IH]; intros brace idx.
  - cbn [scan]. split; [discriminate|]. intros (k & _ & H & _). destruct k; discriminate.
  - assert (Hstep : forall b',
              b' = brace + (if Ascii.eqb ch opening then 1
                            else if Ascii.eqb ch closing then -1 else 0) ->
              (Ascii.eqb ch closing = true -> b' <> 0) ->
              (scan rest b' (S idx) = Some n <->
               exists k, n = (idx + k)%nat /\ String.get k (String ch rest) = Some closing /\
                 brace + balance (first_chars (S k) (String ch rest)) = 0 /\
                 forall m, (m < k)%nat -> String.get m (String ch rest) = Some closing ->
                   brace + balance (first_chars (S m) (String ch rest)) <> 0)).
    { intros b' Hb' Hnz. rewrite IH. split.
      - intros (k & -> & Hget & Hbal & Hfirst). exists (S k).
        split; [lia|]. split; [exact Hget|].
        rewrite first_chars_S. cbn [balance]. split; [lia|].
        intros [|m] Hm Hgm.
        + cbn in Hgm. injection Hgm as Hch.
          rewrite first_chars_S, first_chars_0. cbn [balance].
          assert (Hc : Ascii.eqb ch closing = true) by (rewrite Hch; reflexivity).
          specialize (Hnz Hc). lia.
        + rewrite first_chars_S. cbn [balance].
          specialize (Hfirst m ltac:(lia) Hgm). lia.
      - intros (k & -> & Hget & Hbal & Hfirst). destruct k as [|k].
        + exfalso. cbn in Hget. injection Hget as Hch.
          assert (Hc : Ascii.eqb ch closing = true) by (rewrite Hch; reflexivity).
          specialize (Hnz Hc).
          rewrite first_chars_S, first_chars_0 in Hbal. cbn [balance] in Hbal. lia.
        + exists k. split; [lia|]. split; [exact Hget|].
          rewrite first_chars_S in Hbal. cbn [balance] in Hbal. split; [lia|].
          intros m Hm Hgm. specialize (Hfirst (S m) ltac:(lia) Hgm).
          rewrite first_chars_S in Hfirst. cbn [balance] in Hfirst. lia. }
    cbn [scan]. destruct (Ascii.eqb ch opening) eqn:Eo.
    + apply Hstep; [reflexivity|].
      intro Hc. apply Ascii.eqb_eq in Eo, Hc. rewrite Eo in Hc. discriminate.
    + destruct (Ascii.eqb ch closing) eqn:Ec.
      * destruct (Z.eqb_spec (brace - 1) 0) as [Hz|Hz].
        -- split.
           ++ intros [= <-]. exists 0%nat. split; [lia|].
              apply Ascii.eqb_eq in Ec. rewrite Ec. split; [reflexivity|].
              rewrite first_chars_S, first_chars_0. cbn [balance].
              change (Ascii.eqb closing opening) with false.
              change (Ascii.eqb closing closing) with true. cbv iota.
              split; [lia|]. intros m Hm. lia.
           ++ intros (k & -> & Hget & Hbal & Hfirst). destruct k as [|k]; [f_equal; lia|].
              exfalso. apply (Hfirst 0%nat ltac:(lia)).
              ** cbn. apply Ascii.eqb_eq in Ec. rewrite Ec. reflexivity.
              ** rewrite first_chars_S, first_chars_0. cbn [balance]. rewrite Eo, Ec. lia.
        -- apply Hstep; [lia|]. intros _. lia.
      * apply Hstep; [lia|]. discriminate.
Qed.

(** The first number with a property that can be decided. *)
Lemma least_witness (P : nat -> Prop) (k : nat) :
  (forall n, P n \/ ~ P n) -> P k ->
  exists k0, P k0 /\ forall m, (m < k0)%nat -> ~ P m.
Proof.
  intro Hdec. induction k as [k IH] using lt_wf_ind. intro Hk.
  assert (Hb : forall b, (exists m, (m < b)%nat /\ P m) \/ forall m, (m < b)%nat -> ~ P m).
  { induction b as [|b [Hex|Hall]].
    - right. intros m Hm. lia.
    - left. destruct Hex as (m & Hm & HP). exists m. split; [lia|exact HP].
    - destruct (Hdec b) as [HP|HP].
      + left. exists b. split; [lia|exact HP].
      + right. intros m Hm. destruct (Nat.eq_dec m b) as [->|]; [exact HP|].
        apply Hall. lia. }
  destruct (Hb k) as [(m & Hm & HP)|Hall].
  - exact (IH m Hm HP).
  - exists k. auto.
Qed.

Lemma balance_step (s : string) (j : nat) :
  balance (first_chars (S j) s) = balance (first_chars j s) + delta (String.get j s).
Proof.
  revert j. induction s as [|c s IH]; intro j.
  - destruct j; reflexivity.
  - destruct j as [|j].
    + rewrite first_chars_S, !first_chars_0. cbn [balance String.get delta]. lia.
    + rewrite !first_chars_S. cbn [balance String.get]. rewrite IH. lia.
Qed.

Lemma scan_none (text : string) (brace : Z) (idx : nat) :
  scan text brace idx = None <->
  forall k, String.get k text = Some closing ->
    brace + balance (first_chars (S k) text) <> 0.
Proof.
  split.
  - intros Hnone k Hget Hbal.
    destruct (least_witness
                (fun k => String.get k text = Some closing /\
                          brace + balance (first_chars (S k) text) = 0) k)
      as (k0 & (Hg0 & Hb0) & Hfirst).
    + intro n.
      destruct (String.get n text) as [c|]; [|right; intros [H _]; discriminate].
      destruct (Ascii.ascii_dec c closing) as [->|Hne];
        [|right; intros [H _]; congruence].
      destruct (Z.eq_dec (brace + balance (first_chars (S n) text)) 0);
        [left; auto|right; tauto].
    + auto.
    + assert (E : scan text brace idx = Some (idx + k0)%nat).
      { apply scan_spec. exists k0. repeat split; auto.
        intros m Hm Hgm Hbm. exact (Hfirst m Hm (conj Hgm Hbm)). }
      congruence.
  - intro H. destruct (scan text brace idx) as [n|] eqn:E; [|reflexivity].
    exfalso. apply scan_spec in E as (k & _ & Hget & Hbal & _).
    exact (H k Hget Hbal).
Qed.

(** X20.  Where [content] has an opening brace at [start], the scan of
    [parse_transaction_block] returns the index of the first closing
    brace after it before which the text in between is balanced; in that
    text no closing brace comes before its opening brace.  It returns
    nothing exactly when the text has no such closing brace.  Braces
    count wherever they stand, also between quotes (parser.py, lines
    71-89). *)
Theorem matching_brace_closes_balanced_text (content : string) (start : nat)
    (rest : string) :
  from start content = String opening rest ->
  (forall n, matching_brace content start = Some n ->
     exists k, n = (start + S k)%nat /\ String.get k rest = Some closing /\
       balance (first_chars k rest) = 0 /\
       (forall m, (m <= k)%nat -> 0 <= balance (first_chars m rest)) /\
       (forall m, (m < k)%nat -> String.get m rest = Some closing ->
          balance (first_chars m rest) <> 0)) /\
  (matching_brace content start = None <->
   forall k, String.get k rest = Some closing -> balance (first_chars k rest) <> 0).
Proof.
  intro Hstart. unfold matching_brace. rewrite Hstart.
  assert (Hopen : forall j, balance (first_chars (S j) (String opening rest))
                            = 1 + balance (first_chars j rest)).
  { intro j. rewrite first_chars_S. reflexivity. }
  assert (Hclose : forall j, String.get j rest = Some closing ->
            balance (first_chars (S j) rest) = balance (first_chars j rest) - 1).
  { intros j Hj. rewrite balance_step, Hj. reflexivity. }
  split.
  - intros n Hn. apply scan_spec in Hn as (k' & -> & Hget & Hbal & Hfirst).
    destruct k' as [|k]; [discriminate Hget|]. cbn [String.get] in Hget.
    exists k. rewrite Hopen, (Hclose _ Hget) in Hbal.
    assert (Hnot : forall m, (m < k)%nat -> String.get m rest = Some closing ->
              balance (first_chars m rest) <> 0).
    { intros m Hm Hgm. specialize (Hfirst (S m) ltac:(lia) Hgm).
      rewrite Hopen, (Hclose _ Hgm) in Hfirst. lia. }
    repeat split; try assumption; try lia.
    intros m Hm. induction m as [|m IHm]; [rewrite first_chars_0; reflexivity|].
    specialize (IHm ltac:(lia)). rewrite balance_step.
    destruct (String.get m rest) as [c|] eqn:Eg; cbn [delta]; [|lia].
    destruct (Ascii.eqb c opening); [lia|].
    destruct (Ascii.eqb c closing) eqn:Ec; [|lia].
    apply Ascii.eqb_eq in Ec. subst c.
    specialize (Hnot m ltac:(lia) Eg). lia.
  - rewrite scan_none. split.
    + intros H k Hget Hbal. apply (H (S k) Hget).
      rewrite Hopen, (Hclose _ Hget). lia.
    + intros H [|k] Hget; [discriminate Hget|]. cbn [String.get] in Hget.
      rewrite Hopen, (Hclose _ Hget). specialize (H k Hget). lia.
Qed.

End BraceFacts.

(* ------------------------------------------------------------------ *)
(** * These properties on sample inputs *)

Section ViewWitnesses.

Import Compute.

Lemma decimals_of_currency_witness :
  currency_decimals ViewSamples.lower_key_config
    = Some ([] ++ ("sar"%string, 5) :: [("SAR"%string, 1)])%list /\
  upper "sar" <> "sar"%string /\
  get_decimals ViewSamples.lower_key_config "sar" = 1 /\
  get_decimals default_config "bhd" = 4.
Proof.
  destruct (decimals_of_currency ViewSamples.lower_key_config "sar") as (_ & _ & Hskip).
  destruct (decimals_of_currency default_config "bhd") as (_ & Hdefault & _).
  split; [reflexivity|]. split; [discriminate|]. split.
  - rewrite (Hskip [] "sar"%string 5 [("SAR"%string, 1)] eq_refl); [reflexivity|discriminate].
  - rewrite Hdefault; [reflexivity|left; reflexivity].
Defined.

Lemma reconciliation_is_a_projection_witness :
  empty Samples.ledger_without_flags = false /\
  (In "vat"%string (columns Samples.ledger_without_flags) /\
   ~ In "vat"%string
       (columns (Reconciliation.build_reconciliation Samples.ledger_without_flags))) /\
  empty (mkFrame event_columns ([] : list LedgerEntry)) = true /\
  Reconciliation.build_reconciliation (mkFrame event_columns [])
    = mkFrame event_columns [].
Proof.
  destruct (reconciliation_is_a_projection Samples.ledger_without_flags)
    as (_ & _ & _ & Hcols & _).
  destruct (reconciliation_is_a_projection (mkFrame event_columns []))
    as (_ & _ & Hempty & _).
  split; [reflexivity|]. split; [split|].
  - cbn. tauto.
  - intro H. apply (Hcols eq_refl) in H as [H _]. cbn in H.
    repeat (destruct H as [H|H]; [discriminate H|]). exact H.
  - split; [reflexivity|]. apply Hempty. reflexivity.
Defined.


Lemma accounting_preset_is_the_reconciliation_witness :
  Report.lower "Accounting" = "accounting"%string /\
  Report._load_column_preset ViewSamples.every_file (Some (Report.Name "Accounting"))
    = Some Reconciliation.cols /\
  Report.ledger_sheet
    (Report._load_column_preset ViewSamples.every_file (Some (Report.Name "Accounting")))
    Samples.ledger_without_flags
  = Reconciliation.build_reconciliation Samples.ledger_without_flags.
Proof.
  destruct (accounting_preset_is_the_reconciliation ViewSamples.every_file
              "Accounting" Samples.ledger_without_flags) as (Hacc & _).
  destruct (Hacc eq_refl) as (Hlist & Hsheet).
  split; [reflexivity|]. split; [exact Hlist|]. apply Hsheet. reflexivity.
Defined.

Lemma quoted_text_is_kept_witness :
  Anomalies.all_space " "%string = true /\
  Parser.coerce_scalar (fun _ => Some 123) (fun _ => None) " '00123' " = Parser.Text "00123".
Proof.
  split; [reflexivity|].
  exact (proj1 (quoted_text_is_kept (fun _ => Some 123) (fun _ => None)
                  Parser.single_quote "00123" " " " "
                  (or_introl eq_refl) eq_refl eq_refl)).
Defined.

End ViewWitnesses.

Section BraceWitness.

Import BraceScan.

Lemma matching_brace_closes_balanced_text_witness :
  from 13 "transaction: { a: {}, b: '}' }"
    = String opening " a: {}, b: '}' }" /\
  matching_brace "transaction: { a: {}, b: '}' }" 13 = Some 26%nat /\
  exists k, 26%nat = (13 + S k)%nat /\
    balance (first_chars k " a: {}, b: '}' }") = 0.
Proof.
  assert (Hs : from 13 "transaction: { a: {}, b: '}' }"
               = String opening " a: {}, b: '}' }") by reflexivity.
  assert (Hm : matching_brace "transaction: { a: {}, b: '}' }" 13 = Some 26%nat)
    by reflexivity.
  split; [exact Hs|]. split; [exact Hm|].
  destruct (matching_brace_closes_balanced_text _ _ _ Hs) as (Hsome & _).
  destruct (Hsome _ Hm) as (k & Hk & _ & Hbal & _).
  exists k. split; [exact Hk|exact Hbal].
Defined.

End BraceWitness.

(* ------------------------------------------------------------------ *)
(** * The parser's events in the ledger builder *)

Section NormalizeFacts.

Import Compute Normalize.

(** X21.  On an event as the parser leaves it, the currency is known,
    the type test of the ledger builder is a test of the stored type as
    it stands: the row counts as a CREDIT, or as a DEBIT, exactly when
    its type is that text.  Normalizing such an event again
    changes nothing, and the decimal places of its row are those of its
    currency, of [UNKNOWN] when the event had none (parser.py, lines
    243-250; compute.py, lines 79-80 and 101-106). *)
Theorem normalized_type_is_read_as_it_stands (cfg : Config) (e : Event) :
  let e' := normalize e in
  normalize e' = e' /\
  currency e' <> None /\
  (reads_as "CREDIT" e' <-> type e' = Some "CREDIT"%string) /\
  (reads_as "DEBIT" e' <-> type e' = Some "DEBIT"%string) /\
  (expected_balance e' <> None <->
   type e' = Some "CREDIT"%string \/ type e' = Some "DEBIT"%string) /\
  dps cfg e' = get_decimals cfg (currency_or_unknown (currency e)).
Proof.
  cbn zeta.
  assert (Hread : forall kind, kind <> "NONE"%string ->
            (reads_as kind (normalize e) <-> type (normalize e) = Some kind)).
  { intros kind Hk. unfold reads_as, normalize. cbn [type].
    destruct (type e) as [t|]; cbn [option_map py_str].
    - rewrite upper_idem. split; [intros ->; reflexivity|intros [= ->]; reflexivity].
    - split; [intro H; exfalso; apply Hk; symmetry; exact H|discriminate]. }
  split; [|split; [|split; [|split; [|split]]]].
  - unfold normalize. cbn [type source currency timestamp userId id messageId eventType
                           action amount vat oldBalance newBalance paymentBalance
                           currency_or_unknown].
    destruct (type e), (source e); cbn [option_map]; rewrite ?upper_idem; reflexivity.
  - discriminate.
  - apply Hread. discriminate.
  - apply Hread. discriminate.
  - rewrite <- !Hread by discriminate. unfold reads_as, expected_balance.
    destruct (String.eqb_spec (upper (py_str (type (normalize e)))) "CREDIT") as [E|E].
    + split; [auto|discriminate].
    + destruct (String.eqb_spec (upper (py_str (type (normalize e)))) "DEBIT") as [E'|E'].
      * split; [auto|discriminate].
      * split; [congruence|tauto].
  - reflexivity.
Qed.

End NormalizeFacts.

Section NormalizeWitness.

Import Compute Normalize.

Lemma normalized_type_is_read_as_it_stands_witness :
  type (normalize Samples.credit_lower) = Some "CREDIT"%string /\
  reads_as "CREDIT" (normalize Samples.credit_lower) /\
  expected_balance (normalize Samples.credit_lower) <> None.
Proof.
  destruct (normalized_type_is_read_as_it_stands default_config Samples.credit_lower)
    as (_ & _ & Hcredit & _ & Hexp & _).
  split; [reflexivity|]. split.
  - apply Hcredit. reflexivity.
  - apply Hexp. left. reflexivity.
Defined.

End NormalizeWitness.
